(** * Seneca event-log core: shared store, log tailer, replay controller

    A shallow embedding of
      - [src/processors/shared_pipeline_events.py] (class [SharedPipelineEvents]),
      - [src/processors/pipeline_replay.py]        (class [PipelineReplayController]),
      - [src/processors/conversation_stream.py]    (class [ConversationStreamProcessor]),
    together with the properties of the event-log engine that are stated
    about them.

    Python dictionaries are finite maps ([gmap string value]); the JSON
    values they hold are the inductive [value]; Python integers are [Z];
    exceptions are an explicit [result]; the wall clock
    ([datetime.now()]) is an explicit argument of every operation that
    reads it. *)

From Stdlib Require Import ZArith String Ascii List Floats Permutation Sorted Lia.
From stdpp Require Import gmap strings list fin_maps pretty.

Set Warnings "-register-all".
#[local] Open Scope string_scope.
#[local] Open Scope list_scope.

(** ** Python values *)

(** What [json.load] / [json.loads] can produce: [None], booleans, integers,
    floats, strings, lists and string-keyed dictionaries. *)
Inductive value : Type :=
  | VNone
  | VBool (b : bool)
  | VInt (z : Z)
  | VFloat (x : float)
  | VStr (s : string)
  | VList (l : list value)
  | VDict (d : gmap string value).

Abbreviation dict := (gmap string value).

(** The exception classes the modelled code can let escape. *)
Inductive exn : Type :=
  | ValueError
  | TypeError
  | AttributeError
  | KeyError
  | OverflowError.

Inductive result (A : Type) : Type :=
  | Ok (a : A)
  | Raise (e : exn).
Arguments Ok {A} a.
Arguments Raise {A} e.

(** Exceptions propagate through sequencing: [x ← r; k] (stdpp's notation
    for [mbind]) stops at the first [Raise]. *)
#[global] Instance result_ret : MRet result := fun A a => Ok a.
#[global] Instance result_bind : MBind result := fun A B k r =>
  match r with
  | Ok a => k a
  | Raise e => Raise e
  end.

#[global] Instance result_fmap : FMap result := fun A B g r =>
  match r with
  | Ok a => Ok (g a)
  | Raise e => Raise e
  end.

(** [d.get(key, default)] *)
Definition get (key : string) (default : value) (d : dict) : value :=
  match d !! key with
  | Some v => v
  | None => default
  end.

(** Python truthiness ([bool(v)]) on JSON values. *)
Definition truthy (v : value) : bool :=
  match v with
  | VNone => false
  | VBool b => b
  | VInt z => negb (Z.eqb z 0)
  | VFloat x => negb (PrimFloat.is_zero x)
  | VStr s => negb (String.eqb s "")
  | VList l => match l with [] => false | _ => true end
  | VDict d => match map_to_list d with [] => false | _ => true end
  end.

(** [v == s] for a string [s]: only a string compares equal to a string. *)
Definition eq_str (v : value) (s : string) : bool :=
  match v with
  | VStr t => String.eqb t s
  | _ => false
  end.

(** ** The shared event store ([shared_pipeline_events.py]) *)

Module Store.

(** The store document [{"flows": {...}, "events": [...]}]. A flow record
    and an event are dictionaries. *)
Record document : Type := Document {
  flows : gmap string dict;
  events : list dict
}.

Definition empty_document : document := Document ∅ [].

(** The backing file: [None] when it is missing or does not hold a JSON
    document, [Some d] when it holds the document [d]. *)
Definition file : Type := option document.

(** [_read_events]: a missing or unparseable file reads as the empty
    document. *)
Definition _read_events (f : file) : document :=
  match f with
  | Some data => data
  | None => empty_document
  end.

(** [_write_events]: the whole document replaces the file's content. *)
Definition _write_events (data : document) : file := Some data.

(** The record [add_flow] stores. *)
Definition new_flow (flow_id project_name now : string) : dict :=
  <["id" := VStr flow_id]>
    (<["project_name" := VStr project_name]>
       (<["started_at" := VStr now]>
          (<["completed_at" := VNone]>
             (<["is_active" := VBool true]> ∅)))).

(** [add_flow]: what the call does to the document it read. *)
Definition add_flow_body (flow_id project_name now : string) (data : document)
  : document :=
  Document (<[flow_id := new_flow flow_id project_name now]> (flows data))
           (events data).

Definition add_flow (flow_id project_name now : string) (f : file)
  : result unit * file :=
  let data := _read_events f in
  (Ok tt, _write_events (add_flow_body flow_id project_name now data)).

(** [e.get('flow_id') == flow_id] *)
Definition of_flow (flow_id : string) (e : dict) : bool :=
  eq_str (get "flow_id" VNone e) flow_id.

(** [{"flow_id": flow_id, "timestamp": now, **event}]: the keys of [event]
    win over the two defaults. *)
Definition with_defaults (flow_id now : string) (event : dict) : dict :=
  event ∪ <["flow_id" := VStr flow_id]> (<["timestamp" := VStr now]> ∅).

(** [f"{flow_id}_{n}"] *)
Definition fresh_event_id (flow_id : string) (n : nat) : string :=
  flow_id +:+ "_" +:+ pretty (N.of_nat n).

(** The record [add_event] appends, given the events already stored. *)
Definition event_data (flow_id now : string) (event : dict) (stored : list dict)
  : dict :=
  let e := with_defaults flow_id now event in
  match e !! "event_id" with
  | Some _ => e
  | None =>
      <["event_id" :=
          VStr (fresh_event_id flow_id
                  (length (List.filter (of_flow flow_id) stored)))]> e
  end.

(** [add_event] between its read and its write: [None] is the early
    [return] for an unknown flow (nothing is written). *)
Definition add_event_body (flow_id : string) (event : dict) (now : string)
  (data : document) : option document :=
  match flows data !! flow_id with
  | None => None
  | Some fl =>
      let evs := events data ++ [event_data flow_id now event (events data)] in
      let fls :=
        match event !! "stage" with
        | Some stage => <[flow_id := <["current_stage" := stage]> fl]> (flows data)
        | None => flows data
        end in
      Some (Document fls evs)
  end.

Definition add_event (flow_id : string) (event : dict) (now : string) (f : file)
  : result unit * file :=
  match add_event_body flow_id event now (_read_events f) with
  | None => (Ok tt, f)
  | Some data' => (Ok tt, _write_events data')
  end.

Definition complete_flow_body (flow_id now : string) (data : document)
  : option document :=
  match flows data !! flow_id with
  | None => None
  | Some fl =>
      Some (Document
              (<[flow_id := <["is_active" := VBool false]>
                              (<["completed_at" := VStr now]> fl)]> (flows data))
              (events data))
  end.

Definition complete_flow (flow_id now : string) (f : file) : result unit * file :=
  match complete_flow_body flow_id now (_read_events f) with
  | None => (Ok tt, f)
  | Some data' => (Ok tt, _write_events data')
  end.

Definition get_flow_events (flow_id : string) (f : file) : list dict :=
  List.filter (of_flow flow_id) (events (_read_events f)).

(** A run of [add_event] calls on one flow, each with its event and the
    clock reading of the call. *)
Definition add_events (flow_id : string) (calls : list (dict * string)) (f : file)
  : file :=
  fold_left (fun f c => snd (add_event flow_id (fst c) (snd c) f)) calls f.

(** The flow's record says it was completed. *)
Definition is_completed (flow_id : string) (f : file) : bool :=
  match flows (_read_events f) !! flow_id with
  | Some fl => truthy (get "completed_at" VNone fl)
  | None => false
  end.

(** The caller's event names no flow of its own, or names the flow it is
    appended to. *)
Definition own_flow_id (flow_id : string) (event : dict) : Prop :=
  event !! "flow_id" = None ∨ event !! "flow_id" = Some (VStr flow_id).

(** Every stored event belongs to a registered flow. *)
Definition events_owned (f : file) : Prop :=
  ∀ e s, In e (events (_read_events f)) → of_flow s e = true →
         is_Some (flows (_read_events f) !! s).

(** The files the store's writers produce from a missing file, when no
    event names a foreign flow. *)
Inductive built : file → Prop :=
  | built_missing : built None
  | built_add_flow f flow_id project_name now :
      built f → built (snd (add_flow flow_id project_name now f))
  | built_add_event f flow_id event now :
      built f → own_flow_id flow_id event →
      built (snd (add_event flow_id event now f))
  | built_complete_flow f flow_id now :
      built f → built (snd (complete_flow flow_id now f)).

End Store.

(** Sample stores used to evaluate the operations. *)
Module StoreExamples.
Import Store.

Definition t0 : string := "2024-01-15T10:00:00".
Definition t1 : string := "2024-01-15T10:05:00".
Definition t2 : string := "2024-01-15T10:10:00".

Definition task_event : dict :=
  <["event_type" := VStr "task_created"]> (<["stage" := VStr "task_creation"]> ∅).

(** An event dictionary that names another flow than the one it is
    appended to. *)
Definition foreign_event : dict := <["flow_id" := VStr "f2"]> task_event.

Definition one_flow : file := snd (add_flow "f1" "demo" t0 None).

(** The record the store holds after [add_event("f1", foreign_event)] on
    [one_flow]. *)
Definition misfiled_event : dict := event_data "f1" t1 foreign_event [].

Definition two_calls : list (dict * string) :=
  [(task_event, t1); (task_event, t2)].
Definition closed_flow : file := snd (complete_flow "f1" t1 one_flow).

End StoreExamples.

(** ** The replay controller ([pipeline_replay.py]) *)

Module Replay.

(** [sorted(l, key=key)] on string keys. Python's sort is stable and
    compares keys with [<] only; insertion from the right, each element
    placed before the first one whose key is not smaller, computes that
    same list. Strings are compared position by position on their
    characters, which [String.ltb] does on the bytes of the encoded text. *)
Fixpoint insert_by {A : Type} (key : A → string) (x : A) (l : list A) : list A :=
  match l with
  | [] => [x]
  | y :: l' =>
      if String.ltb (key y) (key x) then y :: insert_by key x l' else x :: l
  end.

Fixpoint sorted {A : Type} (key : A → string) (l : list A) : list A :=
  match l with
  | [] => []
  | x :: l' => insert_by key x (sorted key l')
  end.

(** The keys of [a] and [b] are in order. *)
Definition key_le {A : Type} (key : A → string) (a b : A) : Prop :=
  String.leb (key a) (key b) = true.

(** [e.get('timestamp', '')] when that value is a string. *)
Definition timestamp_str (e : dict) : option string :=
  match get "timestamp" (VStr "") e with
  | VStr s => Some s
  | _ => None
  end.

(** The sort key of an event whose timestamp is a string or missing. *)
Definition timestamp_key (e : dict) : string := default "" (timestamp_str e).

(** Numbers as [<] compares them: Python compares an [int], a [bool]
    and a [float] by their exact values. A finite number is held as a
    multiple of [2^-1074], which every finite float is; a NaN is no
    number here (every comparison with it is false). *)
Inductive number : Type :=
  | NegInf
  | Fin (units : Z)
  | PosInf.

Definition number_of_float (x : float) : option number :=
  match Prim2SF x with
  | S754_zero _ => Some (Fin 0)
  | S754_infinity true => Some NegInf
  | S754_infinity false => Some PosInf
  | S754_nan => None
  | S754_finite s m e =>
      Some (Fin (Z.shiftl (if s then Z.neg m else Z.pos m) (e + 1074)))
  end.

Definition number_of (v : value) : option number :=
  match v with
  | VInt z => Some (Fin (Z.shiftl z 1074))
  | VBool b => Some (Fin (Z.shiftl (if b then 1 else 0) 1074))
  | VFloat x => number_of_float x
  | _ => None
  end.

Definition number_ltb (a b : number) : bool :=
  match a, b with
  | NegInf, NegInf => false
  | NegInf, _ => true
  | Fin _, NegInf => false
  | Fin x, Fin y => (x <? y)%Z
  | Fin _, PosInf => true
  | PosInf, _ => false
  end.

(** [sorted(l, key=...)] for a [<] given as a boolean function: the same
    insertion as [insert_by]. *)
Fixpoint insert_with {A : Type} (lt : A → A → bool) (x : A) (l : list A)
  : list A :=
  match l with
  | [] => [x]
  | y :: l' => if lt y x then y :: insert_with lt x l' else x :: l
  end.

Fixpoint sorted_with {A : Type} (lt : A → A → bool) (l : list A) : list A :=
  match l with
  | [] => []
  | x :: l' => insert_with lt x (sorted_with lt l')
  end.

(** [e.get('timestamp', '')] *)
Definition timestamp_value (e : dict) : value := get "timestamp" (VStr "") e.

(** That value as a number, when it is one. *)
Definition timestamp_number (e : dict) : option number :=
  number_of (timestamp_value e).

(** [<] on the keys of two events whose timestamps are numbers. *)
Definition number_before (a b : dict) : bool :=
  match timestamp_number a, timestamp_number b with
  | Some x, Some y => number_ltb x y
  | _, _ => false
  end.

(** The kinds of keys [<] tells apart: two strings, two numbers and two
    lists can be compared; [None] and a dictionary are ordered with
    nothing, themselves included; keys of two kinds are not ordered. *)
Definition is_number_kind (v : value) : bool :=
  match v with
  | VInt _ | VBool _ | VFloat _ => true
  | _ => false
  end.

Definition is_list_kind (v : value) : bool :=
  match v with
  | VList _ => true
  | _ => false
  end.

(** What a call that sorts can do: return, raise the [TypeError] of a
    comparison, or depend on which comparisons [list.sort] makes, which is
    not modelled. *)
Inductive load_outcome (A : Type) : Type :=
  | Returns (a : A)
  | RaisesTypeError
  | Unmodelled.
Arguments Returns {A} a.
Arguments RaisesTypeError {A}.
Arguments Unmodelled {A}.

(** [_load_flow_events]:
    [sorted(get_flow_events(flow_id), key=lambda e: e.get('timestamp', ''))].
    String keys, which is what [add_event] writes, are sorted as strings. A
    list of at most one event is returned as it is, no key being compared.
    Number keys are sorted by value. Keys that are all numbers with a NaN
    among them, or all lists, are not modelled. Every other list of keys
    holds two keys that [<] does not order and that a sort has to compare
    (directly or through others), so the call raises [TypeError]. *)
Definition _load_flow_events (f : Store.file) (flow_id : string)
  : load_outcome (list dict) :=
  let all_events := Store.get_flow_events flow_id f in
  if forallb (λ e, bool_decide (is_Some (timestamp_str e))) all_events
  then Returns (sorted timestamp_key all_events)
  else if (length all_events <=? 1)%nat then Returns all_events
  else if forallb (λ e, bool_decide (is_Some (timestamp_number e))) all_events
  then Returns (sorted_with number_before all_events)
  else if forallb (λ e, is_number_kind (timestamp_value e)) all_events
          || forallb (λ e, is_list_kind (timestamp_value e)) all_events
  then Unmodelled
  else RaisesTypeError.

Record controller : Type := Controller {
  flow_id : string;
  events : list dict;
  current_position : Z;
  max_position : Z
}.

(** [__init__] *)
Definition new_controller (f : Store.file) (flow_id : string)
  : load_outcome controller :=
  match _load_flow_events f flow_id with
  | Returns evs => Returns (Controller flow_id evs 0 (Z.of_nat (length evs)))
  | RaisesTypeError => RaisesTypeError
  | Unmodelled => Unmodelled
  end.

Definition set_position (c : controller) (position : Z) : controller :=
  Controller (flow_id c) (events c) position (max_position c).

(** [get_current_event] *)
Definition get_current_event (c : controller) : option dict :=
  if (0 <=? current_position c)%Z
     && (current_position c <? Z.of_nat (length (events c)))%Z
  then events c !! Z.to_nat (current_position c)
  else None.

(** [get_state_at_position]: [self.events[:min(position + 1, len(self.events))]] *)
Definition get_state_at_position (c : controller) (position : Z) : list dict :=
  if (position <? 0)%Z then []
  else take (Z.to_nat (Z.min (position + 1) (Z.of_nat (length (events c)))))
            (events c).

(** The dictionary [get_current_state] returns. *)
Record replay_state : Type := ReplayState {
  state_flow_id : string;
  state_current_position : Z;
  state_max_position : Z;
  is_at_start : bool;
  is_at_end : bool;
  current_event : option dict;
  visible_events : list dict
}.

Definition get_current_state (c : controller) : replay_state :=
  {| state_flow_id := flow_id c;
     state_current_position := current_position c;
     state_max_position := max_position c;
     is_at_start := (current_position c =? 0)%Z;
     is_at_end := (max_position c <=? current_position c)%Z;
     current_event := get_current_event c;
     visible_events := get_state_at_position c (current_position c) |}.

(** The navigation methods update the cursor in place and return
    [(success, state)]; here they return the controller after the call
    with that pair. *)
Definition step_forward (c : controller) : controller * (bool * replay_state) :=
  if (current_position c <? max_position c - 1)%Z then
    let c' := set_position c (current_position c + 1) in
    (c', (true, get_current_state c'))
  else (c, (false, get_current_state c)).

Definition step_back (c : controller) : controller * (bool * replay_state) :=
  if (0 <? current_position c)%Z then
    let c' := set_position c (current_position c - 1) in
    (c', (true, get_current_state c'))
  else (c, (false, get_current_state c)).

Definition seek_to (position : Z) (c : controller)
  : controller * (bool * replay_state) :=
  if (0 <=? position)%Z && (position <? max_position c)%Z then
    let c' := set_position c position in
    (c', (true, get_current_state c'))
  else (c, (false, get_current_state c)).

(** [enumerate(l)] with Python integers as indices. *)
Definition enumerate {A : Type} (l : list A) : list (Z * A) :=
  imap (λ i x, (Z.of_nat i, x)) l.

(** [find_decision_points] *)
Definition find_decision_points (c : controller) : list Z :=
  fst <$> List.filter (λ ie, eq_str (get "event_type" VNone (snd ie)) "decision_point")
                      (enumerate (events c)).

Definition key_event_types : list string :=
  ["decision_point"; "ai_prd_analysis"; "tasks_generated"; "quality_metrics";
   "performance_metrics"].

(** [{event_type: [] for event_type in key_event_types}] *)
Definition empty_key_events : gmap string (list Z) :=
  list_to_map ((λ t, (t, [])) <$> key_event_types).

(** One turn of the loop of [find_key_events]. [event_type in key_events]
    hashes the value: a list or a dictionary raises [TypeError]; any other
    value that is not a string is no key of the map. *)
Definition record_key_event (key_events : gmap string (list Z)) (ie : Z * dict)
  : result (gmap string (list Z)) :=
  match get "event_type" (VStr "") (snd ie) with
  | VStr t =>
      match key_events !! t with
      | Some positions => Ok (<[t := positions ++ [fst ie]]> key_events)
      | None => Ok key_events
      end
  | VList _ | VDict _ => Raise TypeError
  | _ => Ok key_events
  end.

Definition find_key_events (c : controller) : result (gmap string (list Z)) :=
  fold_left (λ acc ie, key_events ← acc; record_key_event key_events ie)
            (enumerate (events c)) (Ok empty_key_events).

End Replay.

(** Sample flows used to evaluate the replay controller. *)
Module ReplayExamples.
Import Store StoreExamples.

Definition analysis_event : dict :=
  <["event_type" := VStr "ai_prd_analysis"]> (<["stage" := VStr "ai_analysis"]> ∅).

Definition generation_event : dict :=
  <["event_type" := VStr "tasks_generated"]>
    (<["stage" := VStr "task_generation"]> ∅).

(** Flow [f1] with three events appended at increasing times. *)
Definition three_events : file :=
  add_events "f1"
    [(analysis_event, t0); (generation_event, t1); (task_event, t2)] one_flow.

(** Flow [f1] with the same three events, the second one appended while
    the clock read an earlier time than for the first. *)
Definition clock_stepped_back : file :=
  add_events "f1"
    [(analysis_event, t1); (generation_event, t0); (task_event, t2)] one_flow.

(** The records the store holds for the first two events of
    [clock_stepped_back]. *)
Definition early_analysis : dict := event_data "f1" t1 analysis_event [].
Definition late_generation : dict :=
  event_data "f1" t0 generation_event [early_analysis].

(** The records the store holds for the three events of [three_events]. *)
Definition stored_analysis : dict := event_data "f1" t0 analysis_event [].
Definition stored_generation : dict :=
  event_data "f1" t1 generation_event [stored_analysis].
Definition stored_task : dict :=
  event_data "f1" t2 task_event [stored_analysis; stored_generation].

(** Flow [f1] with two events that bring their own [timestamp], a number:
    [**event] puts it in the place of the clock's text. *)
Definition number_analysis : dict :=
  event_data "f1" t0 (<["timestamp" := VInt 10]> analysis_event) [].
Definition number_generation : dict :=
  event_data "f1" t1 (<["timestamp" := VFloat 9.5]> generation_event)
    [number_analysis].
Definition number_timestamps : file :=
  add_events "f1"
    [(<["timestamp" := VInt 10]> analysis_event, t0);
     (<["timestamp" := VFloat 9.5]> generation_event, t1)] one_flow.

(** Flow [f1] with a number timestamp and a text timestamp. *)
Definition mixed_timestamps : file :=
  add_events "f1"
    [(<["timestamp" := VInt 10]> analysis_event, t0); (generation_event, t1)]
    one_flow.

(** The controller [PipelineReplayController("f1")] builds over
    [three_events]. *)
Definition three_event_controller : Replay.controller :=
  Replay.Controller "f1" [stored_analysis; stored_generation; stored_task] 0 3.

(** The controller [PipelineReplayController("f1")] builds over
    [clock_stepped_back]. *)
Definition stepped_back_controller : Replay.controller :=
  Replay.Controller "f1" [late_generation; early_analysis; stored_task] 0 3.

End ReplayExamples.

(** ** The log tailer ([conversation_stream.py]) *)

Module Tailer.

(** Text built by an f-string or by [json.dumps] is kept as the format and
    its arguments: [str()] and [json.dumps] are functions of them, so equal
    descriptions stand for equal strings. *)
Inductive piece : Type :=
  | Lit (s : string)      (* literal text of the f-string *)
  | Str (v : value).      (* [{v}]: the value formatted by [str()] *)

Inductive text : Type :=
  | Plain (v : value)             (* a value of the record, as it is *)
  | FString (pieces : list piece) (* an f-string *)
  | JsonDumps (d : dict).         (* [json.dumps(d)] *)

(** One line of a log file, as [_process_log_file] and [json.loads] see it:
    blank ([line.strip()] is empty), not JSON ([JSONDecodeError]), or the
    decoded JSON value. *)
Inductive line : Type :=
  | Blank
  | Invalid
  | Json (v : value).

(** [needle in s] on strings. *)
Fixpoint is_substring (needle s : string) : bool :=
  String.prefix needle s ||
  match s with
  | EmptyString => false
  | String _ s' => is_substring needle s'
  end.

(** [needle in v]: substring of a string, element of a list, key of a
    dictionary; the other values are not containers. *)
Definition contains (needle : string) (v : value) : result bool :=
  match v with
  | VStr s => Ok (is_substring needle s)
  | VList l => Ok (existsb (λ x, eq_str x needle) l)
  | VDict d => Ok (bool_decide (is_Some (d !! needle)))
  | _ => Raise TypeError
  end.

Section Parser.

(** [datetime] and [datetime.fromisoformat] ([None]: [ValueError]). *)
Variable datetime : Type.
Variable fromisoformat : string → option datetime.

Record ConversationEvent : Type := {
  id : string;
  timestamp : datetime;
  source : value;
  target : value;
  event_type : value;
  message : text;
  metadata : value;
  confidence : value;
  duration_ms : value
}.

(** [f"event_{self._event_counter}"] *)
Definition event_id (counter : nat) : string :=
  "event_" +:+ pretty (N.of_nat counter).

(** [datetime.fromisoformat(data.get('timestamp', datetime.now().isoformat()))],
    where [now] is the text [datetime.now().isoformat()] of the moment of
    the call. *)
Definition parse_timestamp (data : dict) (now : string) : result datetime :=
  match get "timestamp" (VStr now) data with
  | VStr s =>
      match fromisoformat s with
      | Some t => Ok t
      | None => Raise ValueError
      end
  | _ => Raise TypeError
  end.

Definition _parse_simple_event (counter : nat) (data : dict) (timestamp : datetime)
  : ConversationEvent :=
  let event_type := get "type" (VStr "unknown") data in
  let '(source, target) :=
    if eq_str event_type "ping_request" then
      (get "source" (VStr "mcp_client") data, VStr "marcus")
    else if eq_str event_type "ping_response" then
      (VStr "marcus", VStr "mcp_client")
    else
      (get "source" (VStr "unknown") data, get "target" (VStr "unknown") data) in
  let message := get "message" (VStr "") data in
  let message :=
    if truthy message then Plain message
    else if eq_str event_type "ping_request" then
      FString [Lit "Ping: "; Str (get "echo" (VStr "pong") data)]
    else if eq_str event_type "ping_response" then
      FString [Lit "Pong: "; Str (get "echo" (VStr "pong") data);
               Lit " (Status: "; Str (get "status" (VStr "unknown") data); Lit ")"]
    else JsonDumps (delete "timestamp" (delete "type" data)) in
  {| id := event_id counter; timestamp := timestamp;
     source := source; target := target; event_type := event_type;
     message := message; metadata := VDict data;
     confidence := VNone; duration_ms := VNone |}.

Definition _parse_worker_event (counter : nat) (data : dict) (timestamp : datetime)
  : result ConversationEvent :=
  let worker_id := get "worker_id" (VStr "unknown") data in
  let conversation_type := get "conversation_type" (VStr "") data in
  to_pm ← contains "worker_to_pm" conversation_type;
  let '(source, target) :=
    if to_pm : bool then (worker_id, VStr "marcus") else (VStr "marcus", worker_id) in
  Ok {| id := event_id counter; timestamp := timestamp;
        source := source; target := target;
        event_type := VStr "worker_message";
        message := Plain (get "message" (VStr "") data);
        metadata := get "metadata" (VDict ∅) data;
        confidence := VNone; duration_ms := VNone |}.

Definition _parse_thinking_event (counter : nat) (data : dict) (timestamp : datetime)
  : ConversationEvent :=
  {| id := event_id counter; timestamp := timestamp;
     source := VStr "marcus"; target := VStr "internal";
     event_type := VStr "pm_thinking";
     message := Plain (get "thought" (VStr "") data);
     metadata := get "context" (VDict ∅) data;
     confidence := VNone; duration_ms := VNone |}.

Definition _parse_decision_event (counter : nat) (data : dict) (timestamp : datetime)
  : ConversationEvent :=
  {| id := event_id counter; timestamp := timestamp;
     source := VStr "marcus"; target := VStr "decision";
     event_type := VStr "pm_decision";
     message := Plain (get "decision" (VStr "") data);
     metadata :=
       VDict (<["rationale" := get "rationale" (VStr "") data]>
             (<["alternatives" := get "alternatives_considered" (VList []) data]>
             (<["decision_factors" := get "decision_factors" (VDict ∅) data]> ∅)));
     confidence := get "confidence_score" VNone data;
     duration_ms := VNone |}.

Definition _parse_kanban_event (counter : nat) (data : dict) (timestamp : datetime)
  : result ConversationEvent :=
  let direction := get "conversation_type" (VStr "") data in
  to_kanban ← contains "pm_to_kanban" direction;
  let '(source, target, event_type) :=
    if to_kanban : bool
    then (VStr "marcus", VStr "kanban_board", VStr "kanban_request")
    else (VStr "kanban_board", VStr "marcus", VStr "kanban_response") in
  Ok {| id := event_id counter; timestamp := timestamp;
        source := source; target := target; event_type := event_type;
        message := Plain (get "action" (VStr "") data);
        metadata :=
          VDict (<["data" := get "data" (VDict ∅) data]>
                (<["processing_steps" := get "processing_steps" (VList []) data]> ∅));
        confidence := VNone; duration_ms := VNone |}.

Definition _parse_assignment_event (counter : nat) (data : dict)
  (timestamp : datetime) : ConversationEvent :=
  {| id := event_id counter; timestamp := timestamp;
     source := VStr "marcus"; target := get "worker_id" (VStr "unknown") data;
     event_type := VStr "task_assignment";
     message := FString [Lit "Task "; Str (get "task_id" VNone data);
                         Lit " assigned"];
     metadata :=
       VDict (<["task_details" := get "task_details" (VDict ∅) data]>
             (<["assignment_score" := get "assignment_score" VNone data]>
             (<["dependency_analysis" := get "dependency_analysis" (VDict ∅) data]> ∅)));
     confidence := VNone; duration_ms := VNone |}.

Definition _parse_progress_event (counter : nat) (data : dict) (timestamp : datetime)
  : ConversationEvent :=
  {| id := event_id counter; timestamp := timestamp;
     source := get "worker_id" (VStr "unknown") data; target := VStr "marcus";
     event_type := VStr "progress_update";
     message := FString [Str (get "progress" (VInt 0) data); Lit "% - ";
                         Str (get "message" (VStr "") data)];
     metadata :=
       VDict (<["task_id" := get "task_id" VNone data]>
             (<["status" := get "status" VNone data]>
             (<["metrics" := get "metrics" (VDict ∅) data]> ∅)));
     confidence := VNone; duration_ms := VNone |}.

Definition _parse_blocker_event (counter : nat) (data : dict) (timestamp : datetime)
  : ConversationEvent :=
  {| id := event_id counter; timestamp := timestamp;
     source := get "worker_id" (VStr "unknown") data; target := VStr "marcus";
     event_type := VStr "blocker_report";
     message := Plain (get "blocker_description" (VStr "") data);
     metadata :=
       VDict (<["task_id" := get "task_id" VNone data]>
             (<["severity" := get "severity" VNone data]>
             (<["suggested_solutions" := get "suggested_solutions" (VList []) data]> ∅)));
     confidence := VNone; duration_ms := VNone |}.

Definition _parse_system_state_event (counter : nat) (data : dict)
  (timestamp : datetime) : ConversationEvent :=
  {| id := event_id counter; timestamp := timestamp;
     source := VStr "marcus"; target := VStr "system";
     event_type := VStr "system_state";
     message := Plain (VStr "System state update");
     metadata :=
       VDict (<["active_workers" := get "active_workers" (VInt 0) data]>
             (<["tasks_in_progress" := get "tasks_in_progress" (VInt 0) data]>
             (<["tasks_completed" := get "tasks_completed" (VInt 0) data]>
             (<["tasks_blocked" := get "tasks_blocked" (VInt 0) data]>
             (<["system_metrics" := get "system_metrics" (VDict ∅) data]> ∅)))));
     confidence := VNone; duration_ms := VNone |}.

(** [_parse_log_entry] after the timestamp was read: the dispatch on the
    schema. [counter] is [self._event_counter] after its increment. *)
Definition dispatch (counter : nat) (data : dict) (timestamp : datetime)
  : result (option ConversationEvent) :=
  if bool_decide (is_Some (data !! "type"))
     && negb (bool_decide (is_Some (data !! "event")))
  then Ok (Some (_parse_simple_event counter data timestamp))
  else
    let event_name := get "event" (VStr "") data in
    if eq_str event_name "worker_communication" then
      Some <$> _parse_worker_event counter data timestamp
    else if eq_str event_name "pm_thinking" then
      Ok (Some (_parse_thinking_event counter data timestamp))
    else if eq_str event_name "pm_decision" then
      Ok (Some (_parse_decision_event counter data timestamp))
    else if eq_str event_name "kanban_interaction" then
      Some <$> _parse_kanban_event counter data timestamp
    else if eq_str event_name "task_assignment" then
      Ok (Some (_parse_assignment_event counter data timestamp))
    else if eq_str event_name "progress_update" then
      Ok (Some (_parse_progress_event counter data timestamp))
    else if eq_str event_name "blocker_reported" then
      Ok (Some (_parse_blocker_event counter data timestamp))
    else if eq_str event_name "system_state" then
      Ok (Some (_parse_system_state_event counter data timestamp))
    else Ok None.

(** The state of a [ConversationStreamProcessor] that parsing touches.
    In [_process_log_file] below the file is the list of its lines and a
    position counts lines; [TailerBytes._process_log_file] is the pass over
    the bytes of the file, with positions in bytes. *)
Record processor : Type := Processor {
  conversation_history : list ConversationEvent;
  max_history_size : nat;
  _event_counter : nat;
  _file_positions : gmap string nat
}.

(** [__init__] *)
Definition new_processor : processor := Processor [] 1000 0 ∅.

Definition bump (p : processor) : processor :=
  Processor (conversation_history p) (max_history_size p)
            (S (_event_counter p)) (_file_positions p).

(** [_parse_log_entry]: the counter is incremented first, whatever
    follows; [data.get] on a value that is no dictionary raises
    [AttributeError]. *)
Definition _parse_log_entry (p : processor) (data : value) (now : string)
  : processor * result (option ConversationEvent) :=
  let p := bump p in
  (p, match data with
      | VDict d =>
          timestamp ← parse_timestamp d now;
          dispatch (_event_counter p) d timestamp
      | _ => Raise AttributeError
      end).

(** [self.conversation_history.append(event)] and the eviction of the
    oldest entry beyond [max_history_size]. *)
Definition remember (p : processor) (event : ConversationEvent) : processor :=
  let history := conversation_history p ++ [event] in
  let history :=
    if (max_history_size p <? length history)%nat then drop 1 history else history in
  Processor history (max_history_size p) (_event_counter p) (_file_positions p).

(** [_process_log_line]: a line that is no JSON is skipped; an event is
    added to the history and handed to every handler (whose own exceptions
    are caught); any other exception of the parser escapes. The result
    holds the event handed to the handlers, if any. *)
Definition _process_log_line (p : processor) (l : line) (now : string)
  : processor * result (option ConversationEvent) :=
  match l with
  | Blank | Invalid => (p, Ok None)
  | Json data =>
      match _parse_log_entry p data now with
      | (p, Ok (Some event)) => (remember p event, Ok (Some event))
      | (p, r) => (p, r)
      end
  end.

(** The loop of [_process_log_file] over the lines read; [clock n] is the
    clock reading of the call of [_parse_log_entry] made when the counter
    is [n]. The boolean tells whether the loop reached the end of the file;
    an exception ends it early. *)
Fixpoint process_lines (p : processor) (lines : list line) (clock : nat → string)
  : processor * list ConversationEvent * bool :=
  match lines with
  | [] => (p, [], true)
  | Blank :: rest => process_lines p rest clock
  | l :: rest =>
      match _process_log_line p l (clock (_event_counter p)) with
      | (p, Ok delivered) =>
          let '(p, events, finished) := process_lines p rest clock in
          (p, option_list delivered ++ events, finished)
      | (p, Raise _) => (p, [], false)
      end
  end.

(** [_process_log_file]: read from [from_position] on; the file position
    is recorded only when the loop ends normally; an exception is caught
    and reported, nothing is raised. The result holds the events handed to
    the handlers, in order. *)
Definition _process_log_file (p : processor) (file_path : string)
  (lines : list line) (from_position : nat) (clock : nat → string)
  : processor * list ConversationEvent :=
  let '(p, events, finished) := process_lines p (drop from_position lines) clock in
  if finished : bool then
    (Processor (conversation_history p) (max_history_size p) (_event_counter p)
               (<[file_path := Nat.max from_position (length lines)]>
                  (_file_positions p)),
     events)
  else (p, events).

(** An event without its timestamp. *)
Definition untimed (e : ConversationEvent)
  : string * value * value * value * text * value * value * value :=
  (id e, source e, target e, event_type e, message e, metadata e,
   confidence e, duration_ms e).

(** Two processors in the same state, the timestamps in their histories
    apart. *)
Definition same_but_for_timestamps (p1 p2 : processor) : Prop :=
  untimed <$> conversation_history p1 = untimed <$> conversation_history p2 ∧
  max_history_size p1 = max_history_size p2 ∧
  _event_counter p1 = _event_counter p2 ∧
  _file_positions p1 = _file_positions p2.

(** Two results of the parser that agree, the timestamp of the event
    apart. *)
Definition agree (r1 r2 : result (option ConversationEvent)) : Prop :=
  fmap (M:=result) (fmap (M:=option) untimed) r1 =
  fmap (M:=result) (fmap (M:=option) untimed) r2.

(** Every decoded record of the file carries its own timestamp. *)
Definition all_timestamped (lines : list line) : Prop :=
  ∀ d, In (Json (VDict d)) lines → is_Some (d !! "timestamp").

End Parser.

Arguments id {datetime} _.
Arguments timestamp {datetime} _.
Arguments source {datetime} _.
Arguments target {datetime} _.
Arguments event_type {datetime} _.
Arguments message {datetime} _.
Arguments metadata {datetime} _.
Arguments conversation_history {datetime} _.
Arguments _event_counter {datetime} _.
Arguments _file_positions {datetime} _.
Arguments max_history_size {datetime} _.
Arguments new_processor {datetime}.
Arguments untimed {datetime} _.
Arguments same_but_for_timestamps {datetime} _ _.
Arguments agree {datetime} _ _.
Arguments bump {datetime} _.
Arguments remember {datetime} _ _.

End Tailer.

(** ** The replay timeline ([PipelineReplayController.get_timeline_data]) *)

Module Timeline.

Section Timeline.

Variable datetime : Type.
Variable fromisoformat : string → option datetime.

(** [int((event_time - start_time).total_seconds() * 1000)]: the
    difference goes through a binary float and raises [TypeError] between
    a naive and an aware datetime. *)
Variable elapsed_ms : datetime → datetime → result Z.

(** The summary of an event. The timeline is given for any summary
    function; [Summary._get_event_summary] is the one of the code. *)
Variable _get_event_summary : dict → result string.

Record entry : Type := {
  position : Z;
  timestamp : value;
  relative_ms : Z;
  event_type : value;
  stage : value;
  status : value;
  summary : string
}.

(** [datetime.fromisoformat(event.get("timestamp", ""))] *)
Definition event_time (event : dict) : result datetime :=
  match get "timestamp" (VStr "") event with
  | VStr s =>
      match fromisoformat s with
      | Some t => Ok t
      | None => Raise ValueError
      end
  | _ => Raise TypeError
  end.

Definition timeline_entry (i : Z) (event : dict) (relative_ms : Z) : result entry :=
  summary ← _get_event_summary event;
  Ok {| position := i;
        timestamp := get "timestamp" (VStr "") event;
        relative_ms := relative_ms;
        event_type := get "event_type" (VStr "") event;
        stage := get "stage" (VStr "") event;
        status := get "status" (VStr "") event;
        summary := summary |}.

(** The turns of the loop after the first one. *)
Fixpoint later_entries (start_time : datetime) (i : Z) (events : list dict)
  : result (list entry) :=
  match events with
  | [] => Ok []
  | event :: rest =>
      event_time ← event_time event;
      relative_ms ← elapsed_ms event_time start_time;
      e ← timeline_entry i event relative_ms;
      es ← later_entries start_time (i + 1) rest;
      Ok (e :: es)
  end.

Definition get_timeline_data (events : list dict) : result (list entry) :=
  match events with
  | [] => Ok []
  | event :: rest =>
      start_time ← event_time event;
      e ← timeline_entry 0 event 0;
      es ← later_entries start_time 1 rest;
      Ok (e :: es)
  end.

End Timeline.

End Timeline.

(** ** Two processes on one store file

    [add_event] reads the file under a shared lock, which it releases, and
    later writes it: [open(..., "w")] empties the file, and only then the
    exclusive lock is taken for the time of [json.dump]. A call is thus
    three steps, between which the other process may run. *)

Module Sched.
Import Store.

Inductive stage : Type :=
  | Idle                       (* between two calls *)
  | Loaded (data : document)   (* [_read_events] returned [data] *)
  | Opened (data : document).  (* the file is open for writing, emptied *)

(** A process: the [add_event] calls it still has to make (event and clock
    reading), and where it stands in the first of them. *)
Record process : Type := Process {
  pending : list (dict * string);
  at_stage : stage
}.

(** One step of a process, on the file as it is now. *)
Definition step (flow_id : string) (p : process) (f : file) : process * file :=
  match pending p with
  | [] => (p, f)
  | (event, now) :: rest =>
      match at_stage p with
      | Idle => (Process (pending p) (Loaded (_read_events f)), f)
      | Loaded data =>
          match add_event_body flow_id event now data with
          | None => (Process rest Idle, f)
          | Some data' => (Process (pending p) (Opened data'), None)
          end
      | Opened data' => (Process rest Idle, _write_events data')
      end
  end.

Inductive pid : Type := P1 | P2.

Record system : Type := System {
  shared_file : file;
  process1 : process;
  process2 : process
}.

Definition system_step (flow_id : string) (s : system) (who : pid) : system :=
  match who with
  | P1 => let '(p, f) := step flow_id (process1 s) (shared_file s) in
          System f p (process2 s)
  | P2 => let '(p, f) := step flow_id (process2 s) (shared_file s) in
          System f (process1 s) p
  end.

Definition run (flow_id : string) (schedule : list pid) (s : system) : system :=
  fold_left (system_step flow_id) schedule s.

(** Both processes have made all their calls. *)
Definition finished (s : system) : bool :=
  match pending (process1 s), pending (process2 s) with
  | [], [] => true
  | _, _ => false
  end.

(** [n] copies of a schedule, one after the other. *)
Fixpoint rounds (n : nat) (round : list pid) : list pid :=
  match n with
  | O => []
  | S n' => round ++ rounds n' round
  end.

(** Two processes with 100 calls each on flow [f1], which is registered. *)
Definition hundred_calls : list (dict * string) :=
  repeat (StoreExamples.task_event, StoreExamples.t2) 100.

Definition two_writers : system :=
  System StoreExamples.one_flow (Process hundred_calls Idle)
         (Process hundred_calls Idle).

(** Each process completes a call before the other starts one. *)
Definition one_after_the_other : list pid :=
  rounds 100 [P1; P1; P1; P2; P2; P2].

(** Both processes read, then both write: the second write is made from
    what was read before the first. *)
Definition both_read_then_write : list pid :=
  rounds 100 [P1; P2; P1; P1; P2; P2].

End Sched.

(** ** A reference [datetime.fromisoformat]

    Used to evaluate the parser on sample records. It reads the two shapes
    that [datetime.isoformat()] writes for a naive datetime,
    [YYYY-MM-DDTHH:MM:SS] and [YYYY-MM-DDTHH:MM:SS.ffffff] (any character
    may stand for the [T]), with the range checks of the [datetime]
    constructor. Python reads these texts to the same value; Python reads
    further shapes (shorter times, UTC offsets), which this reference does
    not, and none of which is a sample below. *)

Module IsoFormat.

Record datetime : Type := DateTime {
  year : N; month : N; day : N;
  hour : N; minute : N; second : N; microsecond : N
}.

Definition digit (c : ascii) : option N :=
  let n := N_of_ascii c in
  if (48 <=? n)%N && (n <=? 57)%N then Some (n - 48)%N else None.

Fixpoint digits (acc : N) (s : string) : option N :=
  match s with
  | EmptyString => Some acc
  | String c s' => d ← digit c; digits (10 * acc + d)%N s'
  end.

(** The field of [len] decimal digits that starts at [start]. *)
Definition field (start len : nat) (s : string) : option N :=
  let part := String.substring start len s in
  if (String.length part =? len)%nat then digits 0 part else None.

Definition char_is (n : nat) (c : ascii) (s : string) : bool :=
  match String.get n s with
  | Some c' => Ascii.eqb c c'
  | None => false
  end.

Definition is_leap (y : N) : bool :=
  ((y mod 4 =? 0) && negb (y mod 100 =? 0) || (y mod 400 =? 0))%N.

Definition days_in_month (y m : N) : N :=
  if (m =? 2)%N then (if is_leap y then 29 else 28)%N
  else if ((m =? 4) || (m =? 6) || (m =? 9) || (m =? 11))%N then 30%N
  else 31%N.

Definition in_range (t : datetime) : bool :=
  ((1 <=? year t) && (year t <=? 9999) && (1 <=? month t) && (month t <=? 12)
   && (1 <=? day t) && (day t <=? days_in_month (year t) (month t))
   && (hour t <? 24) && (minute t <? 60) && (second t <? 60))%N.

Definition fromisoformat (s : string) : option datetime :=
  let n := String.length s in
  if ((n =? 19) || (n =? 26))%nat
     && char_is 4 "-" s && char_is 7 "-" s
     && char_is 13 ":" s && char_is 16 ":" s
     && ((n =? 19)%nat || char_is 19 "." s)
  then
    y ← field 0 4 s; mo ← field 5 2 s; d ← field 8 2 s;
    h ← field 11 2 s; mi ← field 14 2 s; sec ← field 17 2 s;
    us ← (if (n =? 19)%nat then Some 0%N else field 20 6 s);
    let t := DateTime y mo d h mi sec us in
    if in_range t then Some t else None
  else None.

End IsoFormat.

(** Sample log files used to evaluate the tailer. *)
Module TailerExamples.
Import Tailer.

(** [{"type": "status", "source": "agent_1", "message": "started"}] *)
Definition untimed_record : dict :=
  <["type" := VStr "status"]>
    (<["source" := VStr "agent_1"]> (<["message" := VStr "started"]> ∅)).

(** The same record with [timestamp = 2024-01-15T10:00:00]. *)
Definition timed_record : dict :=
  <["timestamp" := VStr "2024-01-15T10:00:00"]> untimed_record.

(** The same record with [timestamp = yesterday]. *)
Definition bad_time_record : dict :=
  <["timestamp" := VStr "yesterday"]> untimed_record.

(** Two clocks that read different times. *)
Definition morning (n : nat) : string := "2024-01-15T10:00:00".
Definition evening (n : nat) : string := "2024-01-15T22:00:00".

Definition untimed_log : list line := [Json (VDict untimed_record)].
Definition timed_log : list line :=
  [Json (VDict timed_record); Blank; Invalid; Json (VDict timed_record)].
Definition bad_time_log : list line :=
  [Json (VDict bad_time_record); Json (VDict timed_record)].
Definition mixed_log : list line :=
  [Json (VDict untimed_record); Blank; Json (VDict timed_record); Invalid].

End TailerExamples.

(** ** The producer's front end ([SharedPipelineVisualizer]) *)

Module Visualizer.
Import Store.

(** [PipelineStage] of [pipeline_flow.py], and the [value] of each member. *)
Inductive PipelineStage : Type :=
  | MCP_REQUEST
  | AI_ANALYSIS
  | PRD_PARSING
  | TASK_GENERATION
  | TASK_CREATION
  | TASK_ASSIGNMENT
  | WORK_PROGRESS
  | TASK_COMPLETION.

Definition stage_value (stage : PipelineStage) : string :=
  match stage with
  | MCP_REQUEST => "mcp_request"
  | AI_ANALYSIS => "ai_analysis"
  | PRD_PARSING => "prd_parsing"
  | TASK_GENERATION => "task_generation"
  | TASK_CREATION => "task_creation"
  | TASK_ASSIGNMENT => "task_assignment"
  | WORK_PROGRESS => "work_progress"
  | TASK_COMPLETION => "task_completion"
  end.

(** [dict[key] = v] when [o] is [Some v], nothing when it is [None]
    ([if x is not None: event[key] = x]). *)
Definition set_if_given (key : string) (o : option value) (d : dict) : dict :=
  match o with
  | Some v => <[key := v]> d
  | None => d
  end.

(** The dictionary [SharedPipelineVisualizer.add_event] builds. *)
Definition build_event (stage : PipelineStage) (event_type : string) (data : dict)
  (status : string) (duration_ms : option Z) (error : option string) : dict :=
  set_if_given "error" (VStr <$> error)
    (set_if_given "duration_ms" (VInt <$> duration_ms)
       (<["stage" := VStr (stage_value stage)]>
          (<["event_type" := VStr event_type]>
             (<["data" := VDict data]>
                (<["status" := VStr status]> ∅))))).

(** [SharedPipelineVisualizer.start_flow] *)
Definition start_flow (flow_id project_name now : string) (f : file)
  : result unit * file :=
  Store.add_flow flow_id project_name now f.

(** [SharedPipelineVisualizer.add_event] *)
Definition add_event (flow_id : string) (stage : PipelineStage)
  (event_type : string) (data : dict) (status : string)
  (duration_ms : option Z) (error : option string) (now : string) (f : file)
  : result unit * file :=
  Store.add_event flow_id
    (build_event stage event_type data status duration_ms error) now f.

(** [SharedPipelineVisualizer.complete_flow] *)
Definition complete_flow (flow_id now : string) (f : file) : result unit * file :=
  Store.complete_flow flow_id now f.

(** [track_task_creation] *)
Definition track_task_creation (flow_id task_id task_name : string)
  (success : bool) (error : option string) (now : string) (f : file)
  : result unit * file :=
  add_event flow_id TASK_CREATION
    (if success then "task_created" else "task_creation_failed")
    (<["task_id" := VStr task_id]> (<["task_name" := VStr task_name]> ∅))
    (if success then "completed" else "failed")
    None error now f.

(** [track_decision_point]: [data_now] is the clock reading stored inside
    the payload, [now] the one [add_event] takes afterwards. *)
Definition track_decision_point (flow_id : string) (stage : PipelineStage)
  (decision rationale : string) (confidence : value) (alternatives : list value)
  (data_now now : string) (f : file) : result unit * file :=
  add_event flow_id stage "decision_point"
    (<["decision" := VStr decision]>
       (<["rationale" := VStr rationale]>
          (<["confidence" := confidence]>
             (<["alternatives_considered" := VList alternatives]>
                (<["timestamp" := VStr data_now]> ∅)))))
    "completed" None None now f.

(** What [d[key]] gives: the value, or [KeyError] with the missing key. *)
Inductive indexed (A : Type) : Type :=
  | Found (a : A)
  | KeyError (key : string).
Arguments Found {A} a.
Arguments KeyError {A} key.

#[global] Instance indexed_ret : MRet indexed := fun A a => Found a.
#[global] Instance indexed_bind : MBind indexed := fun A B k r =>
  match r with
  | Found a => k a
  | KeyError key => KeyError key
  end.

(** [d[key]] *)
Definition index (key : string) (d : dict) : indexed value :=
  match d !! key with
  | Some v => Found v
  | None => KeyError key
  end.

(** [f"{flow_id}_{i}"] *)
Definition node_id (flow_id : string) (i : nat) : string :=
  flow_id +:+ "_" +:+ pretty (N.of_nat i).

(** The node [get_flow_visualization] builds for the event at index [i]. *)
Definition node (flow_id : string) (i : nat) (event : dict) : indexed dict :=
  label ← index "event_type" event;
  timestamp ← index "timestamp" event;
  let n : dict :=
    <["id" := VStr (node_id flow_id i)]>
      (<["label" := label]>
         (<["stage" := get "stage" (VStr "unknown") event]>
            (<["timestamp" := timestamp]>
               (<["status" := get "status" (VStr "unknown") event]>
                  (<["data" := get "data" (VDict ∅) event]> ∅))))) in
  Found (set_if_given "duration_ms" (event !! "duration_ms")
           (set_if_given "error" (event !! "error") n)).

(** An edge [{"from": ..., "to": ...}]. *)
Record edge : Type := Edge { edge_from : string; edge_to : string }.

(** The loop of [get_flow_visualization], from index [i] on. *)
Fixpoint graph_from (flow_id : string) (i : nat) (events : list dict)
  : indexed (list dict * list edge) :=
  match events with
  | [] => Found ([], [])
  | event :: rest =>
      n ← node flow_id i event;
      let new_edges :=
        match i with
        | O => []
        | S j => [Edge (node_id flow_id j) (node_id flow_id i)]
        end in
      '(nodes, edges) ← graph_from flow_id (S i) rest;
      Found (n :: nodes, new_edges ++ edges)
  end.

(** What [get_flow_visualization] returns: the error dictionary, or the
    graph. *)
Inductive visualization : Type :=
  | NotFound (flow_id : string)    (* [{"error": f"Flow {flow_id} not found"}] *)
  | Graph (flow_id : string) (nodes : list dict) (edges : list edge)
          (total_events : nat).

Definition get_flow_visualization (flow_id : string) (f : file)
  : indexed visualization :=
  let events := Store.get_flow_events flow_id f in
  match events with
  | [] => Found (NotFound flow_id)
  | _ =>
      '(nodes, edges) ← graph_from flow_id 0 events;
      Found (Graph flow_id nodes edges (length events))
  end.

End Visualizer.

(** ** The replay controller: decision context and export *)

Module ReplayContext.
Import Replay.

(** [l[lo:hi]] for bounds that are not negative. *)
Definition slice {A : Type} (lo hi : Z) (l : list A) : list A :=
  drop (Z.to_nat lo) (take (Z.to_nat hi) l).

(** A byte that continues a character of the encoded text. *)
Definition is_continuation (c : ascii) : bool :=
  let n := N_of_ascii c in (128 <=? n)%N && (n <? 192)%N.

(** [len(s)]: the number of characters of the text. *)
Fixpoint char_count (s : string) : nat :=
  match s with
  | EmptyString => 0
  | String c s' => (if is_continuation c then 0 else 1) + char_count s'
  end.

(** [len(v)] *)
Definition py_len (v : value) : result nat :=
  match v with
  | VStr s => Ok (char_count s)
  | VList l => Ok (length l)
  | VDict d => Ok (size d)
  | _ => Raise TypeError
  end.

(** [event.get("data", {}).get(key, default)] *)
Definition data_get (key : string) (default : value) (event : dict) : result value :=
  match get "data" (VDict ∅) event with
  | VDict d => Ok (get key default d)
  | _ => Raise AttributeError
  end.

(** The entry [get_decision_context] adds for the three event types it
    knows: [decision_details], [analysis_details] or [generation_details]. *)
Inductive details : Type :=
  | DecisionDetails (decision rationale confidence alternatives : value)
  | AnalysisDetails (requirements_extracted : nat) (confidence ambiguities : value)
  | GenerationDetails (task_count reasoning complexity : value).

Definition type_details (event : dict) : result (option details) :=
  let event_type := get "event_type" VNone event in
  if eq_str event_type "decision_point" then
    decision ← data_get "decision" (VStr "") event;
    rationale ← data_get "rationale" (VStr "") event;
    confidence ← data_get "confidence" (VInt 0) event;
    alternatives ← data_get "alternatives_considered" (VList []) event;
    Ok (Some (DecisionDetails decision rationale confidence alternatives))
  else if eq_str event_type "ai_prd_analysis" then
    requirements ← data_get "extracted_requirements" (VList []) event;
    n ← py_len requirements;
    confidence ← data_get "confidence" (VInt 0) event;
    ambiguities ← data_get "ambiguities" (VList []) event;
    Ok (Some (AnalysisDetails n confidence ambiguities))
  else if eq_str event_type "tasks_generated" then
    task_count ← data_get "task_count" (VInt 0) event;
    reasoning ← data_get "task_breakdown_reasoning" (VStr "") event;
    complexity ← data_get "complexity_score" (VInt 0) event;
    Ok (Some (GenerationDetails task_count reasoning complexity))
  else Ok None.

(** The dictionary [get_decision_context] returns for a position in
    range. *)
Record context : Type := Context {
  context_position : Z;
  context_event : dict;
  context_event_type : value;
  context_timestamp : value;
  previous_context : list dict;
  subsequent_impact : list dict;
  context_details : option details
}.

(** [get_decision_context]: [None] is the empty dictionary returned for a
    position out of range. *)
Definition get_decision_context (c : controller) (position : Z)
  : result (option context) :=
  let n := Z.of_nat (length (events c)) in
  if (position <? 0)%Z || (n <=? position)%Z then Ok None
  else
    match events c !! Z.to_nat position with
    | None => Ok None
    | Some event =>
        let previous_events := slice (Z.max 0 (position - 5)) position (events c) in
        let subsequent_events :=
          slice (position + 1) (Z.min (position + 6) n) (events c) in
        d ← type_details event;
        Ok (Some (Context position event
                    (get "event_type" (VStr "") event)
                    (get "timestamp" (VStr "") event)
                    previous_events subsequent_events d))
    end.

(** The cursor of a controller is where [__init__] and the navigation
    methods can leave it. *)
Definition cursor_valid (c : controller) : Prop :=
  max_position c = Z.of_nat (length (events c)) ∧
  (0 ≤ current_position c)%Z ∧
  ((current_position c < max_position c)%Z ∨
   (max_position c = 0%Z ∧ current_position c = 0%Z)).

(** The positions of the events of type [t], as [find_key_events] counts
    them. *)
Definition positions_of (t : string) (events : list dict) : list Z :=
  fst <$> List.filter (λ ie, eq_str (get "event_type" (VStr "") (snd ie)) t)
                      (enumerate events).

(** [event_type in key_events] can be evaluated: the type is hashable. *)
Definition hashable_type (event : dict) : bool :=
  match get "event_type" (VStr "") event with
  | VList _ | VDict _ => false
  | _ => true
  end.

End ReplayContext.

(** [export_replay_data] *)

Module ReplayExport.
Import Replay.

Section Bundle.

Variable datetime : Type.
Variable fromisoformat : string → option datetime.
Variable elapsed_ms : datetime → datetime → result Z.
Variable _get_event_summary : dict → result string.

Record bundle : Type := Bundle {
  export_flow_id : string;
  total_events : nat;
  exported_events : list dict;
  timeline : list (Timeline.entry);
  key_events : gmap string (list Z);
  decision_points : list Z;
  start_time : value;
  end_time : value;
  total_duration_ms : value
}.

(** What the loop of [get_timeline_data] copies from the event [e] into
    its timeline entry [en]. *)
Definition entry_of (e : dict) (en : Timeline.entry) : Prop :=
  Timeline.timestamp en = get "timestamp" (VStr "") e ∧
  Timeline.event_type en = get "event_type" (VStr "") e ∧
  Timeline.stage en = get "stage" (VStr "") e ∧
  Timeline.status en = get "status" (VStr "") e ∧
  _get_event_summary e = Ok (Timeline.summary en).

(** [e.get("timestamp") if self.events else None], for the first or the
    last event [o]. *)
Definition timestamp_or_none (o : option dict) : value :=
  match o with
  | Some e => get "timestamp" VNone e
  | None => VNone
  end.

Definition export_replay_data (c : controller) : result bundle :=
  tl ← Timeline.get_timeline_data datetime fromisoformat elapsed_ms
         _get_event_summary (events c);
  ke ← find_key_events c;
  duration ← match last (events c) with
             | Some e => ReplayContext.data_get "total_duration_ms" (VInt 0) e
             | None => Ok (VInt 0)
             end;
  Ok (Bundle (flow_id c) (length (events c)) (events c) tl ke
             (find_decision_points c)
             (timestamp_or_none (head (events c)))
             (timestamp_or_none (last (events c)))
             duration).

End Bundle.

End ReplayExport.

(** ** The summary of an event ([_get_event_summary])

    The branches and the reads of the payload are the code's. What Python
    itself does to the value read is taken as given: [str()] of a value in
    an f-string, the slice [v[:50]], the formatting [f"{v * 100:.0f}"] and
    [str.title]. *)

Module Summary.

(** [s.replace('_', ' ')] *)
Fixpoint replace_underscores (s : string) : string :=
  match s with
  | EmptyString => EmptyString
  | String c s' =>
      String (if Ascii.eqb c "_" then " "%char else c) (replace_underscores s')
  end.

Section Summary.

(** [str(v)] *)
Variable str_of : value → string.

(** [v[:50]]: a string or a list is cut; the other values raise. *)
Variable first_50 : value → result value.

(** [f"{v * 100:.0f}"]: a number is formatted; the other values raise, in
    the product or in the formatting. *)
Variable percent : value → result string.

(** [s.title()] *)
Variable title : string → string.

Definition _get_event_summary (event : dict) : result string :=
  let event_type := get "event_type" (VStr "") event in
  if eq_str event_type "decision_point" then
    decision ← ReplayContext.data_get "decision" (VStr "Unknown") event;
    shown ← first_50 decision;
    Ok ("Decision: " +:+ str_of shown +:+ "...")
  else if eq_str event_type "ai_prd_analysis" then
    confidence ← ReplayContext.data_get "confidence" (VInt 0) event;
    shown ← percent confidence;
    Ok ("AI Analysis: " +:+ shown +:+ "% confidence")
  else if eq_str event_type "tasks_generated" then
    task_count ← ReplayContext.data_get "task_count" (VInt 0) event;
    Ok ("Generated " +:+ str_of task_count +:+ " tasks")
  else if eq_str event_type "task_created" then
    task_name ← ReplayContext.data_get "task_name" (VStr "Unknown task") event;
    Ok ("Created: " +:+ str_of task_name)
  else if eq_str event_type "quality_metrics" then
    score ← ReplayContext.data_get "overall_quality_score" (VInt 0) event;
    shown ← percent score;
    Ok ("Quality: " +:+ shown +:+ "%")
  else
    match event_type with
    | VStr s => Ok (title (replace_underscores s))
    | _ => Raise AttributeError
    end.

End Summary.

End Summary.

(** Sample values for the export: a reference for the elapsed time between
    two naive datetimes read by [IsoFormat.fromisoformat] (exact when the
    difference is a whole number of milliseconds), and the bundle of the
    three-event flow. The summary text is not evaluated in the samples: the
    event type stands for it. *)

Module ReplayExportExamples.
Import IsoFormat.

Definition days_before_year (y : N) : N :=
  let y1 := (y - 1)%N in (y1 * 365 + y1 / 4 - y1 / 100 + y1 / 400)%N.

Definition days_before_month (y m : N) : N :=
  foldr N.add 0%N
    ((λ k, days_in_month y (N.of_nat k)) <$> seq 1 (N.to_nat m - 1)).

Definition microseconds (t : datetime) : N :=
  let days := (days_before_year (year t) + days_before_month (year t) (month t)
               + day t)%N in
  ((((days * 24 + hour t) * 60 + minute t) * 60 + second t) * 1000000
   + microsecond t)%N.

Definition elapsed_ms (a b : datetime) : result Z :=
  Ok (Z.quot (Z.of_N (microseconds a) - Z.of_N (microseconds b)) 1000).

Definition type_as_summary (event : dict) : result string :=
  match get "event_type" (VStr "") event with
  | VStr s => Ok s
  | _ => Raise AttributeError
  end.

Definition sample_timeline : list Timeline.entry :=
  [ {| Timeline.position := 0; Timeline.timestamp := VStr StoreExamples.t0;
       Timeline.relative_ms := 0;
       Timeline.event_type := VStr "ai_prd_analysis";
       Timeline.stage := VStr "ai_analysis"; Timeline.status := VStr "";
       Timeline.summary := "ai_prd_analysis" |};
    {| Timeline.position := 1; Timeline.timestamp := VStr StoreExamples.t1;
       Timeline.relative_ms := 300000;
       Timeline.event_type := VStr "tasks_generated";
       Timeline.stage := VStr "task_generation"; Timeline.status := VStr "";
       Timeline.summary := "tasks_generated" |};
    {| Timeline.position := 2; Timeline.timestamp := VStr StoreExamples.t2;
       Timeline.relative_ms := 600000;
       Timeline.event_type := VStr "task_created";
       Timeline.stage := VStr "task_creation"; Timeline.status := VStr "";
       Timeline.summary := "task_created" |} ].

Definition list_typed_event : dict :=
  <["event_type" := VList []]> (<["timestamp" := VStr StoreExamples.t0]> ∅).

Definition list_typed_controller : Replay.controller :=
  Replay.Controller "f1" [list_typed_event] 0 1.

Definition sample_bundle : ReplayExport.bundle :=
  ReplayExport.Bundle "f1" 3
    (Replay.events ReplayExamples.three_event_controller)
    sample_timeline
    (<["ai_prd_analysis" := [0%Z]]>
       (<["tasks_generated" := [1%Z]]> Replay.empty_key_events))
    [] (VStr StoreExamples.t0) (VStr StoreExamples.t2) (VInt 0).

End ReplayExportExamples.

(** ** The log tailer: the file watcher and the queue of notifications

    [LogFileHandler.on_modified] and
    [ConversationStreamProcessor._process_queue]
    ([conversation_stream.py]). *)

Module Watcher.
Import Tailer.

(** [s.endswith(suffix)] *)
Definition endswith (suffix s : string) : bool :=
  let n := String.length s in
  let m := String.length suffix in
  (m <=? n)%nat && String.eqb (String.substring (n - m) m s) suffix.

(** The file system events the watcher hands to [on_modified]. *)
Inductive fs_event : Type :=
  | FileModifiedEvent (src_path : string)
  | OtherEvent (src_path : string).

(** A line [json.loads] decodes. *)
Definition is_json (l : line) : bool :=
  match l with
  | Json _ => true
  | _ => false
  end.

Section Watcher.

Variable datetime : Type.
Variable fromisoformat : string → option datetime.

(** [str(Path(src_path))], the key of [_file_positions]. *)
Variable path_str : string → string.

(** An event without its id and its timestamp. *)
Definition content (e : ConversationEvent datetime)
  : value * value * value * text * value * value * value :=
  (source e, target e, event_type e, message e, metadata e,
   Tailer.confidence datetime e, Tailer.duration_ms datetime e).

(** [on_modified]: the notification [(file_path, last_position)] is put
    on the queue with the position recorded at this moment. *)
Definition on_modified (p : processor datetime) (event : fs_event)
  (queue : list (string * nat)) : list (string * nat) :=
  match event with
  | FileModifiedEvent src_path =>
      if endswith ".jsonl" src_path then
        let last_position :=
          default 0 (_file_positions p !! path_str src_path) in
        queue ++ [(src_path, last_position)]
      else queue
  | OtherEvent _ => queue
  end.

(** [_process_queue]: the queue is emptied, each notification processed
    from the position it carries. [contents file_path] is what the file
    holds when the queue is processed, [None] when it cannot be opened (the
    exception is caught in [_process_log_file]). The result holds the events
    handed to the handlers, in order. *)
Fixpoint _process_queue (p : processor datetime) (queue : list (string * nat))
  (contents : string → option (list line)) (clock : nat → string)
  : processor datetime * list (ConversationEvent datetime) :=
  match queue with
  | [] => (p, [])
  | (file_path, last_position) :: rest =>
      let '(p, events) :=
        match contents file_path with
        | Some lines =>
            _process_log_file datetime fromisoformat p (path_str file_path)
              lines last_position clock
        | None => (p, [])
        end in
      let '(p, later) := _process_queue p rest contents clock in
      (p, events ++ later)
  end.

End Watcher.

Arguments content {datetime} _.

End Watcher.

(** ** The log tailer on the bytes of the file

    [_process_log_file] opens the file in text mode, seeks to the byte
    offset [from_position], iterates over the lines from there and records
    [f.tell()], the byte offset reached. The text of the file is taken with
    one byte per character, as [json.dumps] writes it. *)

Module TailerBytes.
Import Tailer.

Definition LF : ascii := "010"%char.
Definition CR : ascii := "013"%char.

(** The newline translation of text mode: [\r\n] and [\r] are read as
    [\n]. *)
Fixpoint translate_newlines (s : string) : string :=
  match s with
  | EmptyString => EmptyString
  | String c s' =>
      if Ascii.eqb c CR then
        match s' with
        | String c' _ =>
            if Ascii.eqb c' LF then translate_newlines s'
            else String LF (translate_newlines s')
        | EmptyString => String LF EmptyString
        end
      else String c (translate_newlines s')
  end.

(** The lines of a translated text, each with its [\n]; [cur] is the part
    of the line read so far. A last line without [\n] is a line too. *)
Fixpoint lines_from (cur s : string) : list string :=
  match s with
  | EmptyString =>
      match cur with
      | EmptyString => []
      | _ => [cur]
      end
  | String c s' =>
      if Ascii.eqb c LF then (cur +:+ String LF EmptyString) :: lines_from "" s'
      else lines_from (cur +:+ String c EmptyString) s'
  end.

(** [async for line in f] *)
Definition readlines (s : string) : list string :=
  lines_from "" (translate_newlines s).

(** [f.seek(n)]: the text from byte [n] on. *)
Fixpoint drop_bytes (n : nat) (s : string) : string :=
  match n, s with
  | O, _ => s
  | S n', String _ s' => drop_bytes n' s'
  | S _, EmptyString => EmptyString
  end.

(** The text is empty or ends with [\n]: every line of it is whole. *)
Fixpoint whole_lines (s : string) : bool :=
  match s with
  | EmptyString => true
  | String c s' =>
      match s' with
      | EmptyString => Ascii.eqb c LF
      | _ => whole_lines s'
      end
  end.

(** The text holds no [\n] and no [\r]. *)
Fixpoint plain (s : string) : bool :=
  match s with
  | EmptyString => true
  | String c s' => negb (Ascii.eqb c LF) && negb (Ascii.eqb c CR) && plain s'
  end.

Section Bytes.

Variable datetime : Type.
Variable fromisoformat : string → option datetime.

(** What [line.strip()] and [json.loads(line)] make of a line. *)
Variable classify : string → line.

(** The lines read from byte [from_position] on. *)
Definition read_records (content : string) (from_position : nat) : list line :=
  classify <$> readlines (drop_bytes from_position content).

(** [_process_log_file] on the bytes [content] of the file: the position
    recorded is the byte offset reached, the end of the file (or
    [from_position], beyond it); it is recorded only when the loop ends
    normally. *)
Definition _process_log_file (p : processor datetime) (file_path : string)
  (content : string) (from_position : nat) (clock : nat → string)
  : processor datetime * list (ConversationEvent datetime) :=
  let '(p, events, finished) :=
    process_lines datetime fromisoformat p
      (read_records content from_position) clock in
  if finished : bool then
    (Processor datetime (conversation_history p) (max_history_size p)
               (_event_counter p)
               (<[file_path := Nat.max from_position (String.length content)]>
                  (_file_positions p)),
     events)
  else (p, events).

End Bytes.

End TailerBytes.

Module TailerBytesExamples.
Import Tailer TailerExamples TailerBytes.

Definition quoted (s : string) : string :=
  String "034" (s +:+ String "034" EmptyString).

(** [{"type": "status", "source": "agent_1", "message": "started"}], the
    text of [untimed_record]. *)
Definition record_text : string :=
  "{" +:+ quoted "type" +:+ ": " +:+ quoted "status" +:+ ", "
      +:+ quoted "source" +:+ ": " +:+ quoted "agent_1" +:+ ", "
      +:+ quoted "message" +:+ ": " +:+ quoted "started" +:+ "}".

Definition newline : string := String LF EmptyString.

(** The first 20 bytes of the record and the rest of it. *)
Definition record_head : string := String.substring 0 20 record_text.
Definition record_rest : string :=
  String.substring 20 (String.length record_text - 20) record_text.

Definition is_space (c : ascii) : bool :=
  Ascii.eqb c " " || Ascii.eqb c LF || Ascii.eqb c CR || Ascii.eqb c "009".

Fixpoint all_spaces (s : string) : bool :=
  match s with
  | EmptyString => true
  | String c s' => is_space c && all_spaces s'
  end.

(** [json.loads] on the lines of the samples: the record's text, alone on
    its line, is decoded; the pieces of it are not JSON. *)
Definition sample_classify (s : string) : line :=
  if all_spaces s then Blank
  else if String.eqb s (record_text +:+ newline) || String.eqb s record_text
  then Json (VDict untimed_record)
  else Invalid.

End TailerBytesExamples.

(** ** Two processes on one store file: the order of the calls *)

Module SchedOrder.

(** The calls of two processes in the order in which they are made when
    the processes take turns, each running a whole call. *)
Fixpoint alternate {A : Type} (calls1 calls2 : list A) : list A :=
  match calls1, calls2 with
  | c1 :: rest1, c2 :: rest2 => c1 :: c2 :: alternate rest1 rest2
  | _, _ => []
  end.

End SchedOrder.

(** ** The store on whatever the file holds

    [json.load] returns any JSON value, not only a document the store
    wrote. The operations of [SharedPipelineEvents] are given here as the
    code applies them to that value, with the exceptions of the subscripts,
    membership tests and method calls they make. [Store] is their restriction
    to store documents ([encode], lemmas [add_event_refines] and the
    like). *)

Module RawStore.

(** The backing file: [None] when it is missing or [json.load] raises
    [JSONDecodeError], [Some v] when it parses to [v]. *)
Definition file : Type := option value.

(** [{"flows": {}, "events": []}] *)
Definition empty_store : value :=
  VDict (<["flows" := VDict ∅]> (<["events" := VList []]> ∅)).

Definition _read_events (f : file) : value :=
  match f with
  | Some data => data
  | None => empty_store
  end.

Definition _write_events (data : value) : file := Some data.

(** [v[key]] for a string [key]: only a dictionary can be subscripted by
    a string. *)
Definition getitem (key : string) (v : value) : result value :=
  match v with
  | VDict d =>
      match d !! key with
      | Some x => Ok x
      | None => Raise KeyError
      end
  | _ => Raise TypeError
  end.

(** [v[key] = x] for a string [key] *)
Definition setitem (key : string) (x : value) (v : value) : result value :=
  match v with
  | VDict d => Ok (VDict (<[key := x]> d))
  | _ => Raise TypeError
  end.

(** [v.append(x)] *)
Definition append (x : value) (v : value) : result value :=
  match v with
  | VList l => Ok (VList (l ++ [x]))
  | _ => Raise AttributeError
  end.

(** [[e for e in l if e.get('flow_id') == flow_id]] over the elements of a
    list: [e.get] raises [AttributeError] on an element that is no
    dictionary. *)
Fixpoint select (flow_id : string) (l : list value) : result (list value) :=
  match l with
  | [] => Ok []
  | VDict d :: rest =>
      selected ← select flow_id rest;
      Ok (if Store.of_flow flow_id d then VDict d :: selected else selected)
  | _ :: rest => Raise AttributeError
  end.

(** [[e for e in v if e.get('flow_id') == flow_id]]: a dictionary is
    iterated over its keys and a string over its characters, which are
    strings and have no [get]; the other values cannot be iterated. *)
Definition flow_events_of (flow_id : string) (v : value) : result (list value) :=
  match v with
  | VList l => select flow_id l
  | VDict d => if bool_decide (d = ∅) then Ok [] else Raise AttributeError
  | VStr s => if String.eqb s "" then Ok [] else Raise AttributeError
  | _ => Raise TypeError
  end.

(** [data["flows"][flow_id][key] = x] *)
Definition set_flow_field (flow_id key : string) (x : value) (data : value)
  : result value :=
  flows ← getitem "flows" data;
  fl ← getitem flow_id flows;
  fl ← setitem key x fl;
  flows ← setitem flow_id fl flows;
  setitem "flows" flows data.

(** [add_flow] between its read and its write. *)
Definition add_flow_body (flow_id project_name now : string) (data : value)
  : result value :=
  flows ← getitem "flows" data;
  flows ← setitem flow_id (VDict (Store.new_flow flow_id project_name now)) flows;
  setitem "flows" flows data.

Definition add_flow (flow_id project_name now : string) (f : file)
  : result unit * file :=
  match add_flow_body flow_id project_name now (_read_events f) with
  | Ok data => (Ok tt, _write_events data)
  | Raise e => (Raise e, f)
  end.

(** [add_event] between its read and its write; [Ok None] is the early
    [return]. *)
Definition add_event_body (flow_id : string) (event : dict) (now : string)
  (data : value) : result (option value) :=
  flows ← getitem "flows" data;
  known ← Tailer.contains flow_id flows;
  if negb known then Ok None
  else
    let event_data := Store.with_defaults flow_id now event in
    event_data ←
      match event_data !! "event_id" with
      | Some _ => Ok event_data
      | None =>
          events ← getitem "events" data;
          mine ← flow_events_of flow_id events;
          Ok (<["event_id" :=
                  VStr (Store.fresh_event_id flow_id (length mine))]> event_data)
      end;
    events ← getitem "events" data;
    events ← append (VDict event_data) events;
    data ← setitem "events" events data;
    data ←
      match event !! "stage" with
      | Some stage => set_flow_field flow_id "current_stage" stage data
      | None => Ok data
      end;
    Ok (Some data).

Definition add_event (flow_id : string) (event : dict) (now : string) (f : file)
  : result unit * file :=
  match add_event_body flow_id event now (_read_events f) with
  | Ok None => (Ok tt, f)
  | Ok (Some data) => (Ok tt, _write_events data)
  | Raise e => (Raise e, f)
  end.

Definition complete_flow_body (flow_id now : string) (data : value)
  : result (option value) :=
  flows ← getitem "flows" data;
  known ← Tailer.contains flow_id flows;
  if known : bool then
    data ← set_flow_field flow_id "completed_at" (VStr now) data;
    data ← set_flow_field flow_id "is_active" (VBool false) data;
    Ok (Some data)
  else Ok None.

Definition complete_flow (flow_id now : string) (f : file) : result unit * file :=
  match complete_flow_body flow_id now (_read_events f) with
  | Ok None => (Ok tt, f)
  | Ok (Some data) => (Ok tt, _write_events data)
  | Raise e => (Raise e, f)
  end.

Definition get_flow_events (flow_id : string) (f : file) : result (list value) :=
  events ← getitem "events" (_read_events f);
  flow_events_of flow_id events.

(** A store document as the JSON value the file holds. *)
Definition encode (d : Store.document) : value :=
  VDict (<["flows" := VDict (VDict <$> Store.flows d)]>
           (<["events" := VList (VDict <$> Store.events d)]> ∅)).

Definition encode_file (f : Store.file) : file := encode <$> f.

End RawStore.

Module RawStoreExamples.

(** Files that hold JSON which is no store document: a list, and an
    object without [flows]. *)
Definition list_file : RawStore.file := Some (VList []).
Definition no_flows_file : RawStore.file :=
  Some (VDict (<["events" := VList []]> ∅)).

End RawStoreExamples.

(** * Properties *)

(** ** The store: appending, registering, completing *)

(** Decidable facts about sample data are settled by evaluation. *)
Ltac by_evaluation := refine (bool_decide_unpack _ _); vm_compute; exact I.

(** An equation between closed terms, checked by evaluating both sides. *)
Ltac evaluate :=
  match goal with |- ?a = ?b => vm_cast_no_check (@eq_refl _ b) end.

Section RawStoreFacts.
Import Store.

(** The JSON object [{"flows": F, "events": E}]. *)
Abbreviation object_of F E :=
  (VDict (<["flows" := F]> (<["events" := E]> (∅ : dict)))).

Lemma set_events F E E' :
  RawStore.setitem "events" E' (object_of F E) = Ok (object_of F E').
Proof.
  unfold RawStore.setitem. by do 2 f_equal.
Qed.

Lemma set_flows F F' E :
  RawStore.setitem "flows" F' (object_of F E) = Ok (object_of F' E).
Proof.
  unfold RawStore.setitem. by do 2 f_equal.
Qed.

Lemma get_flows F E : RawStore.getitem "flows" (object_of F E) = Ok F.
Proof. done. Qed.

Lemma get_events F E : RawStore.getitem "events" (object_of F E) = Ok E.
Proof. done. Qed.

Lemma encode_object (d : document) :
  RawStore.encode d
    = object_of (VDict (VDict <$> flows d)) (VList (VDict <$> events d)).
Proof. done. Qed.

Lemma read_encoded (f : file) :
  RawStore._read_events (RawStore.encode_file f) = RawStore.encode (_read_events f).
Proof.
  destruct f as [d|]; [done|]. unfold RawStore.encode. cbn.
  by rewrite fmap_empty.
Qed.

Lemma contains_encoded flow_id (m : gmap string dict) :
  Tailer.contains flow_id (VDict (VDict <$> m))
    = Ok (bool_decide (is_Some (m !! flow_id))).
Proof.
  cbn. f_equal. apply bool_decide_ext. rewrite lookup_fmap.
  by rewrite fmap_is_Some.
Qed.

Lemma select_encoded flow_id (evs : list dict) :
  RawStore.select flow_id (VDict <$> evs)
    = Ok (VDict <$> List.filter (of_flow flow_id) evs).
Proof.
  induction evs as [|e evs IH]; [done|].
  cbn [fmap list_fmap RawStore.select List.filter]. fold (fmap (M:=list) VDict evs).
  rewrite IH. cbn. by destruct (of_flow flow_id e).
Qed.

Lemma set_flow_field_encoded flow_id key x (fls : gmap string dict) E fl :
  fls !! flow_id = Some fl →
  RawStore.set_flow_field flow_id key x (object_of (VDict (VDict <$> fls)) E)
    = Ok (object_of (VDict (VDict <$> <[flow_id := <[key := x]> fl]> fls)) E).
Proof.
  intros Hfl. unfold RawStore.set_flow_field.
  rewrite get_flows. cbn [mbind result_bind RawStore.getitem].
  rewrite lookup_fmap, Hfl.
  cbn [fmap option_fmap option_map mbind result_bind].
  change (RawStore.setitem key x (VDict fl)) with (Ok (VDict (<[key := x]> fl))).
  cbn [mbind result_bind].
  change (RawStore.setitem flow_id (VDict (<[key := x]> fl)) (VDict (VDict <$> fls)))
    with (Ok (VDict (<[flow_id := VDict (<[key := x]> fl)]> (VDict <$> fls)))).
  cbn [mbind result_bind].
  rewrite set_flows. by rewrite fmap_insert.
Qed.

(** On a store document the operations of the code are those of [Store]:
    none raises, and what they write is the document [Store] gives. *)
Lemma add_flow_refines flow_id project_name now (f : file) :
  RawStore.add_flow flow_id project_name now (RawStore.encode_file f)
    = (Ok tt, RawStore.encode_file (add_flow flow_id project_name now f).2).
Proof.
  unfold RawStore.add_flow, RawStore.add_flow_body.
  rewrite read_encoded, encode_object, get_flows.
  cbn [mbind result_bind].
  change (RawStore.setitem flow_id ?x (VDict ?m))
    with (Ok (VDict (<[flow_id := x]> m))).
  cbn [mbind result_bind]. rewrite set_flows.
  cbn [add_flow snd RawStore.encode_file fmap option_fmap option_map
       _write_events RawStore._write_events].
  rewrite encode_object. unfold add_flow_body. cbn [flows events].
  by rewrite fmap_insert.
Qed.

Lemma event_data_encoded flow_id now event (evs : list dict) F :
  (let event_data := with_defaults flow_id now event in
   match event_data !! "event_id" with
   | Some _ => Ok event_data
   | None =>
       events ← RawStore.getitem "events" (object_of F (VList (VDict <$> evs)));
       mine ← RawStore.flow_events_of flow_id events;
       Ok (<["event_id" := VStr (fresh_event_id flow_id (length mine))]> event_data)
   end) = Ok (event_data flow_id now event evs).
Proof.
  cbn zeta. unfold event_data.
  destruct (with_defaults flow_id now event !! "event_id"); [done|].
  rewrite get_events. cbn [mbind result_bind RawStore.flow_events_of].
  rewrite select_encoded. cbn [mbind result_bind]. by rewrite length_fmap.
Qed.

Lemma add_event_body_refines flow_id event now (d : document) :
  RawStore.add_event_body flow_id event now (RawStore.encode d)
    = Ok (RawStore.encode <$> add_event_body flow_id event now d).
Proof.
  unfold RawStore.add_event_body, add_event_body.
  rewrite !encode_object, event_data_encoded, get_flows, get_events.
  cbn [mbind result_bind]. rewrite contains_encoded. cbn [mbind result_bind].
  destruct (flows d !! flow_id) as [fl|] eqn:Hfl.
  - rewrite bool_decide_eq_true_2 by eauto.
    cbn [negb mbind result_bind RawStore.append].
    rewrite set_events. cbn [mbind result_bind].
    change [VDict (event_data flow_id now event (events d))]
      with (VDict <$> [event_data flow_id now event (events d)]).
    rewrite <- fmap_app.
    destruct (event !! "stage") as [stage|].
    + rewrite (set_flow_field_encoded _ _ _ _ _ fl Hfl). done.
    + done.
  - rewrite bool_decide_eq_false_2 by (by intros [? ?]). done.
Qed.

Lemma add_event_refines flow_id event now (f : file) :
  RawStore.add_event flow_id event now (RawStore.encode_file f)
    = (Ok tt, RawStore.encode_file (add_event flow_id event now f).2).
Proof.
  unfold RawStore.add_event, add_event. rewrite read_encoded.
  rewrite add_event_body_refines.
  by destruct (add_event_body flow_id event now (_read_events f)).
Qed.

Lemma complete_flow_refines flow_id now (f : file) :
  RawStore.complete_flow flow_id now (RawStore.encode_file f)
    = (Ok tt, RawStore.encode_file (complete_flow flow_id now f).2).
Proof.
  unfold RawStore.complete_flow, complete_flow, RawStore.complete_flow_body,
    complete_flow_body.
  rewrite read_encoded, !encode_object, get_flows.
  cbn [mbind result_bind]. rewrite contains_encoded. cbn [mbind result_bind].
  destruct (flows (_read_events f) !! flow_id) as [fl|] eqn:Hfl.
  - rewrite bool_decide_eq_true_2 by eauto.
    rewrite (set_flow_field_encoded _ _ _ _ _ fl Hfl). cbn [mbind result_bind].
    rewrite (set_flow_field_encoded _ _ _ _ _ (<["completed_at" := VStr now]> fl))
      by (by rewrite lookup_insert_eq).
    cbn [mbind result_bind snd RawStore.encode_file fmap option_fmap option_map
         _write_events RawStore._write_events].
    rewrite encode_object. cbn [flows events]. by rewrite insert_insert_eq.
  - rewrite bool_decide_eq_false_2 by (by intros [? ?]). done.
Qed.

Lemma get_flow_events_refines flow_id (f : file) :
  RawStore.get_flow_events flow_id (RawStore.encode_file f)
    = Ok (VDict <$> get_flow_events flow_id f).
Proof.
  unfold RawStore.get_flow_events, get_flow_events.
  rewrite read_encoded, encode_object, get_events.
  cbn [mbind result_bind RawStore.flow_events_of]. apply select_encoded.
Qed.

(** What the file holds when it is no JSON object, or an object without
    [flows]: the subscript [data["flows"]] raises, and nothing is
    written. *)
Lemma getitem_not_object key (v : value) :
  (∀ m, v ≠ VDict m) → RawStore.getitem key v = Raise TypeError.
Proof. intros Hv. destruct v; try done. by destruct (Hv d). Qed.

Lemma setitem_not_object key x (v : value) :
  (∀ m, v ≠ VDict m) → RawStore.setitem key x v = Raise TypeError.
Proof. intros Hv. destruct v; try done. by destruct (Hv d). Qed.

End RawStoreFacts.

Section StoreFacts.
Import Store.

Lemma add_event_returns flow_id event now f :
  fst (add_event flow_id event now f) = Ok tt.
Proof. unfold add_event. by destruct (add_event_body _ _ _ _). Qed.

Lemma with_defaults_keeps flow_id now (event : dict) :
  event ⊆ with_defaults flow_id now event.
Proof. apply map_union_subseteq_l. Qed.

Lemma event_data_keeps flow_id now (event : dict) stored :
  event ⊆ event_data flow_id now event stored.
Proof.
  unfold event_data.
  destruct (with_defaults flow_id now event !! "event_id") eqn:E.
  - apply with_defaults_keeps.
  - etrans; [apply with_defaults_keeps|]. by apply insert_subseteq.
Qed.

Lemma event_data_lookup_other flow_id now (event : dict) stored k :
  k ≠ "event_id" →
  event_data flow_id now event stored !! k = with_defaults flow_id now event !! k.
Proof.
  intros Hk. unfold event_data.
  destruct (with_defaults flow_id now event !! "event_id"); [done|].
  by rewrite lookup_insert_ne.
Qed.

Lemma with_defaults_flow_id flow_id now (event : dict) :
  with_defaults flow_id now event !! "flow_id" =
    Some (default (VStr flow_id) (event !! "flow_id")).
Proof.
  unfold with_defaults. rewrite lookup_union.
  destruct (event !! "flow_id") eqn:E; simpl.
  - by rewrite lookup_insert_eq.
  - by rewrite lookup_insert_eq.
Qed.

Lemma with_defaults_timestamp flow_id now (event : dict) :
  with_defaults flow_id now event !! "timestamp" =
    Some (default (VStr now) (event !! "timestamp")).
Proof.
  unfold with_defaults. rewrite lookup_union.
  destruct (event !! "timestamp") eqn:E; simpl.
  - rewrite lookup_insert_ne; [|done]. by rewrite lookup_insert_eq.
  - rewrite lookup_insert_ne; [|done]. by rewrite lookup_insert_eq.
Qed.

Lemma read_write data : _read_events (_write_events data) = data.
Proof. done. Qed.

Lemma add_event_unknown flow_id event now f :
  flows (_read_events f) !! flow_id = None →
  add_event flow_id event now f = (Ok tt, f).
Proof. intros H. unfold add_event, add_event_body. by rewrite H. Qed.

Lemma add_event_known flow_id event now f fl :
  flows (_read_events f) !! flow_id = Some fl →
  ∃ fls,
    add_event flow_id event now f =
      (Ok tt, Some (Document fls
         (events (_read_events f) ++
            [event_data flow_id now event (events (_read_events f))]))) ∧
    is_Some (fls !! flow_id) ∧
    (∀ other, other ≠ flow_id → fls !! other = flows (_read_events f) !! other).
Proof.
  intros H. unfold add_event, add_event_body. rewrite H.
  destruct (event !! "stage") as [st|]; eexists; (split; [reflexivity|]); split.
  - rewrite lookup_insert_eq. eauto.
  - intros other Ho. by rewrite lookup_insert_ne.
  - rewrite H. eauto.
  - done.
Qed.

(** C1 (as the code has it): [add_event] raises no error of its own for
    an unknown or a completed flow. On a file that is missing, unparseable
    or holds a store document it returns normally: on a flow id that is not
    registered it returns without writing, so the file is unchanged; on a
    registered flow, completed or not, it appends one record to the stored
    events, which keeps every key of the caller's event, and leaves the
    flow's completed state as it was. On a file whose JSON value is no
    object the subscript [data["flows"]] raises [TypeError], and on an
    object without [flows] it raises [KeyError]; nothing is written
    then. *)
Theorem add_event_outcome (flow_id : string) (event : dict) (now : string) :
  (∀ f : file,
     RawStore.add_event flow_id event now (RawStore.encode_file f)
       = (Ok tt, RawStore.encode_file (snd (add_event flow_id event now f))) ∧
     (flows (_read_events f) !! flow_id = None →
        snd (add_event flow_id event now f) = f) ∧
     (is_Some (flows (_read_events f) !! flow_id) →
        ∃ stored,
          events (_read_events (snd (add_event flow_id event now f))) =
            events (_read_events f) ++ [stored] ∧
          event ⊆ stored ∧
          is_completed flow_id (snd (add_event flow_id event now f)) =
            is_completed flow_id f)) ∧
  (∀ v : value, (∀ m, v ≠ VDict m) →
     RawStore.add_event flow_id event now (Some v) = (Raise TypeError, Some v)) ∧
  (∀ m : dict, m !! "flows" = None →
     RawStore.add_event flow_id event now (Some (VDict m))
       = (Raise KeyError, Some (VDict m))).
Proof.
  split; [|split].
  - intros f. split; [apply add_event_refines|]. split.
    + intros H. by rewrite add_event_unknown.
    + intros [fl H].
      exists (event_data flow_id now event (events (_read_events f))).
      unfold is_completed, add_event, add_event_body. rewrite H. simpl.
      split; [done|]. split; [apply event_data_keeps|].
      destruct (event !! "stage") as [st|]; simpl.
      * rewrite lookup_insert_eq. unfold get.
        rewrite lookup_insert_ne; [|done]. done.
      * by rewrite H.
  - intros v Hv. unfold RawStore.add_event, RawStore.add_event_body.
    cbn [RawStore._read_events]. by rewrite (getitem_not_object "flows" v Hv).
  - intros m Hm. unfold RawStore.add_event, RawStore.add_event_body.
    cbn [RawStore._read_events RawStore.getitem]. by rewrite Hm.
Qed.

Lemma add_event_outcome_witness :
  snd (add_event "ghost" StoreExamples.task_event StoreExamples.t2
         StoreExamples.closed_flow) = StoreExamples.closed_flow ∧
  (∃ stored,
     events (_read_events (snd (add_event "f1" StoreExamples.task_event
                                  StoreExamples.t2 StoreExamples.closed_flow))) =
       events (_read_events StoreExamples.closed_flow) ++ [stored] ∧
     StoreExamples.task_event ⊆ stored ∧
     is_completed "f1" (snd (add_event "f1" StoreExamples.task_event
                               StoreExamples.t2 StoreExamples.closed_flow)) =
       is_completed "f1" StoreExamples.closed_flow) ∧
  RawStore.add_event "f1" StoreExamples.task_event StoreExamples.t2
    RawStoreExamples.list_file = (Raise TypeError, RawStoreExamples.list_file) ∧
  RawStore.add_event "f1" StoreExamples.task_event StoreExamples.t2
    RawStoreExamples.no_flows_file
    = (Raise KeyError, RawStoreExamples.no_flows_file).
Proof.
  split; [|split; [|split]].
  - refine (proj1 (proj2 (proj1 (add_event_outcome "ghost"
              StoreExamples.task_event StoreExamples.t2)
              StoreExamples.closed_flow)) _).
    evaluate.
  - refine (proj2 (proj2 (proj1 (add_event_outcome "f1"
              StoreExamples.task_event StoreExamples.t2)
              StoreExamples.closed_flow)) _).
    by_evaluation.
  - refine (proj1 (proj2 (add_event_outcome "f1" StoreExamples.task_event
                            StoreExamples.t2)) (VList []) _).
    discriminate.
  - refine (proj2 (proj2 (add_event_outcome "f1" StoreExamples.task_event
                            StoreExamples.t2)) (<["events" := VList []]> ∅) _).
    evaluate.
Defined.

(** C1, refuted as stated: appending to a completed flow raises nothing and
    the event is stored; appending to an unregistered flow raises nothing
    either, and leaves the file as it was. *)
Lemma add_event_closed_flow_counterexample :
  is_completed "f1" StoreExamples.closed_flow = true ∧
  RawStore.get_flow_events "f1" (RawStore.encode_file StoreExamples.closed_flow)
    = Ok [] ∧
  RawStore.add_event "f1" StoreExamples.task_event StoreExamples.t2
    (RawStore.encode_file StoreExamples.closed_flow)
    = (Ok tt,
       RawStore.encode_file
         (snd (add_event "f1" StoreExamples.task_event StoreExamples.t2
                 StoreExamples.closed_flow))) ∧
  RawStore.get_flow_events "f1"
    (RawStore.encode_file
       (snd (add_event "f1" StoreExamples.task_event StoreExamples.t2
               StoreExamples.closed_flow)))
    = Ok [VDict (event_data "f1" StoreExamples.t2 StoreExamples.task_event [])] ∧
  RawStore.add_event "ghost" StoreExamples.task_event StoreExamples.t2
    (RawStore.encode_file StoreExamples.closed_flow)
    = (Ok tt, RawStore.encode_file StoreExamples.closed_flow).
Proof. repeat split; evaluate. Qed.

(** C2 (as the code has it): [add_flow] has no check for an existing id.
    On a file that is missing, unparseable or holds a store document it
    returns normally and stores a fresh active record under the id, whether
    or not the id was registered before (an existing record is replaced),
    and touches no other flow and no event. It raises and writes nothing
    on a file whose JSON value is no object or whose [flows] is no object
    ([TypeError]) and on an object without [flows] ([KeyError]). *)
Theorem add_flow_outcome (flow_id project_name now : string) :
  (∀ f : file,
     RawStore.add_flow flow_id project_name now (RawStore.encode_file f)
       = (Ok tt,
          RawStore.encode_file (snd (add_flow flow_id project_name now f))) ∧
     (∃ fl,
        flows (_read_events (snd (add_flow flow_id project_name now f)))
          !! flow_id = Some fl ∧
        fl = new_flow flow_id project_name now ∧
        fl !! "is_active" = Some (VBool true) ∧
        fl !! "completed_at" = Some VNone ∧
        fl !! "started_at" = Some (VStr now)) ∧
     (∀ other, other ≠ flow_id →
        flows (_read_events (snd (add_flow flow_id project_name now f))) !! other
          = flows (_read_events f) !! other) ∧
     events (_read_events (snd (add_flow flow_id project_name now f)))
       = events (_read_events f)) ∧
  (∀ v : value, (∀ m, v ≠ VDict m) →
     RawStore.add_flow flow_id project_name now (Some v)
       = (Raise TypeError, Some v)) ∧
  (∀ m : dict, m !! "flows" = None →
     RawStore.add_flow flow_id project_name now (Some (VDict m))
       = (Raise KeyError, Some (VDict m))) ∧
  (∀ (m : dict) (x : value), m !! "flows" = Some x → (∀ fls, x ≠ VDict fls) →
     RawStore.add_flow flow_id project_name now (Some (VDict m))
       = (Raise TypeError, Some (VDict m))).
Proof.
  split; [|split; [|split]].
  - intros f. split; [apply add_flow_refines|]. split; [|split; [|done]].
    + exists (new_flow flow_id project_name now). simpl.
      rewrite lookup_insert_eq. by repeat split.
    + intros other Ho. simpl. by rewrite lookup_insert_ne.
  - intros v Hv. unfold RawStore.add_flow, RawStore.add_flow_body.
    cbn [RawStore._read_events]. by rewrite (getitem_not_object "flows" v Hv).
  - intros m Hm. unfold RawStore.add_flow, RawStore.add_flow_body.
    cbn [RawStore._read_events RawStore.getitem]. by rewrite Hm.
  - intros m x Hm Hx. unfold RawStore.add_flow, RawStore.add_flow_body.
    cbn [RawStore._read_events RawStore.getitem]. rewrite Hm.
    cbn [mbind result_bind]. by rewrite (setitem_not_object flow_id _ x Hx).
Qed.

Lemma add_flow_outcome_witness :
  flows (_read_events (snd (add_flow "f2" "other" StoreExamples.t2
                              StoreExamples.closed_flow))) !! "f1"
    = flows (_read_events StoreExamples.closed_flow) !! "f1" ∧
  RawStore.add_flow "f2" "other" StoreExamples.t2 RawStoreExamples.list_file
    = (Raise TypeError, RawStoreExamples.list_file) ∧
  RawStore.add_flow "f2" "other" StoreExamples.t2 RawStoreExamples.no_flows_file
    = (Raise KeyError, RawStoreExamples.no_flows_file).
Proof.
  split; [|split].
  - refine (proj1 (proj2 (proj2 (proj1 (add_flow_outcome "f2" "other"
              StoreExamples.t2) StoreExamples.closed_flow))) "f1" _).
    discriminate.
  - refine (proj1 (proj2 (add_flow_outcome "f2" "other" StoreExamples.t2))
              (VList []) _).
    discriminate.
  - refine (proj1 (proj2 (proj2 (add_flow_outcome "f2" "other" StoreExamples.t2)))
              (<["events" := VList []]> ∅) _).
    evaluate.
Defined.

(** C2, refuted as stated: registering an id that already exists raises
    nothing and replaces the record; here a completed flow becomes active
    again with a new start time. *)
Lemma add_flow_duplicate_counterexample :
  is_completed "f1" StoreExamples.closed_flow = true ∧
  RawStore.add_flow "f1" "demo" StoreExamples.t2
    (RawStore.encode_file StoreExamples.closed_flow)
    = (Ok tt,
       RawStore.encode_file
         (snd (add_flow "f1" "demo" StoreExamples.t2 StoreExamples.closed_flow))) ∧
  is_completed "f1"
    (snd (add_flow "f1" "demo" StoreExamples.t2 StoreExamples.closed_flow)) = false ∧
  flows (_read_events
           (snd (add_flow "f1" "demo" StoreExamples.t2 StoreExamples.closed_flow)))
    !! "f1" ≠ flows (_read_events StoreExamples.closed_flow) !! "f1".
Proof.
  split; [evaluate|]. split; [evaluate|]. split; [evaluate|].
  intros H.
  apply (f_equal (fun o => o ≫= (.!! "started_at"))) in H.
  vm_compute in H. discriminate.
Qed.

Lemma complete_flow_returns flow_id now f :
  fst (complete_flow flow_id now f) = Ok tt.
Proof. unfold complete_flow. by destruct (complete_flow_body _ _ _). Qed.

Lemma complete_twice_record (fl : dict) (now1 now2 : string) :
  <["is_active" := VBool false]>
    (<["completed_at" := VStr now2]>
       (<["is_active" := VBool false]> (<["completed_at" := VStr now1]> fl)))
  = <["is_active" := VBool false]> (<["completed_at" := VStr now2]> fl).
Proof.
  apply map_eq. intros k.
  destruct (decide (k = "is_active")) as [->|Ha].
  { by rewrite !lookup_insert_eq. }
  destruct (decide (k = "completed_at")) as [->|Hc].
  { rewrite !(lookup_insert_ne _ "is_active") by done.
    by rewrite !lookup_insert_eq. }
  by rewrite !lookup_insert_ne by done.
Qed.

(** C4 (as the code has it): every [complete_flow] call on a registered
    flow stamps [completed_at] with the time of that call, so of two calls
    in a row the later one decides the record: the file after both is the
    file after the second alone. A repeated call therefore keeps
    [is_active] false and every other key, and leaves the record unchanged
    when it writes the [completed_at] value that is already there. *)
Theorem complete_flow_last_call_wins (f : file) (flow_id now1 now2 : string) :
  snd (complete_flow flow_id now2 (snd (complete_flow flow_id now1 f)))
    = snd (complete_flow flow_id now2 f) ∧
  (∀ fl, flows (_read_events f) !! flow_id = Some fl →
     flows (_read_events
              (snd (complete_flow flow_id now2 (snd (complete_flow flow_id now1 f)))))
       !! flow_id
     = Some (<["is_active" := VBool false]> (<["completed_at" := VStr now2]> fl))) ∧
  (now1 = now2 →
     snd (complete_flow flow_id now2 (snd (complete_flow flow_id now1 f)))
       = snd (complete_flow flow_id now1 f)).
Proof.
  assert (Hlast :
    snd (complete_flow flow_id now2 (snd (complete_flow flow_id now1 f)))
      = snd (complete_flow flow_id now2 f)).
  { unfold complete_flow, complete_flow_body.
    destruct (flows (_read_events f) !! flow_id) as [fl|] eqn:E; simpl.
    - rewrite lookup_insert_eq. simpl.
      by rewrite insert_insert_eq, complete_twice_record.
    - by rewrite E. }
  split; [done|]. split.
  - intros fl E. rewrite Hlast.
    unfold complete_flow, complete_flow_body. rewrite E. simpl.
    by rewrite lookup_insert_eq.
  - intros ->. by rewrite Hlast.
Qed.

Lemma complete_flow_last_call_wins_witness :
  flows (_read_events
           (snd (complete_flow "f1" StoreExamples.t2
                   (snd (complete_flow "f1" StoreExamples.t1 StoreExamples.one_flow)))))
    !! "f1"
  = Some (<["is_active" := VBool false]>
            (<["completed_at" := VStr StoreExamples.t2]>
               (new_flow "f1" "demo" StoreExamples.t0))).
Proof.
  refine (proj1 (proj2 (complete_flow_last_call_wins StoreExamples.one_flow "f1"
                          StoreExamples.t1 StoreExamples.t2))
            (new_flow "f1" "demo" StoreExamples.t0) _).
  evaluate.
Defined.

(** C4, refuted as stated: a second [complete_flow] at a later time changes
    the stored record: [completed_at] moves from the first time to the
    second. *)
Lemma complete_flow_repeat_counterexample :
  flows (_read_events StoreExamples.closed_flow) !! "f1" ≫= (.!! "completed_at")
    = Some (VStr StoreExamples.t1) ∧
  flows (_read_events (snd (complete_flow "f1" StoreExamples.t2
                              StoreExamples.closed_flow)))
    !! "f1" ≫= (.!! "completed_at")
    = Some (VStr StoreExamples.t2) ∧
  snd (complete_flow "f1" StoreExamples.t2 StoreExamples.closed_flow)
    ≠ StoreExamples.closed_flow.
Proof.
  repeat split; try (vm_compute; reflexivity).
  intros H.
  apply (f_equal (fun f => flows (_read_events f) !! "f1" ≫= (.!! "completed_at"))) in H.
  vm_compute in H. discriminate.
Qed.

End StoreFacts.

(** ** The store: reading a flow back *)

Section ReadOrder.
Import Store.

Lemma of_flow_event_data flow_id now (event : dict) stored s :
  own_flow_id flow_id event →
  of_flow s (event_data flow_id now event stored) = String.eqb flow_id s.
Proof.
  intros Hown. unfold of_flow, get.
  rewrite event_data_lookup_other by done.
  rewrite with_defaults_flow_id.
  by destruct Hown as [-> | ->].
Qed.

Lemma event_data_timestamp flow_id now (event : dict) stored :
  event_data flow_id now event stored !! "timestamp" =
    Some (default (VStr now) (event !! "timestamp")).
Proof.
  rewrite event_data_lookup_other by done.
  unfold with_defaults. rewrite lookup_union.
  destruct (event !! "timestamp") eqn:E; simpl;
    (rewrite lookup_insert_ne; [|done]); by rewrite lookup_insert_eq.
Qed.

Lemma filter_snoc {A} (p : A → bool) l x :
  List.filter p (l ++ [x]) = List.filter p l ++ (if p x then [x] else []).
Proof. rewrite List.filter_app. simpl. by destruct (p x). Qed.

Lemma get_flow_events_add_event flow_id event now f :
  is_Some (flows (_read_events f) !! flow_id) →
  own_flow_id flow_id event →
  get_flow_events flow_id (snd (add_event flow_id event now f)) =
    get_flow_events flow_id f ++
      [event_data flow_id now event (events (_read_events f))] ∧
  is_Some (flows (_read_events (snd (add_event flow_id event now f))) !! flow_id).
Proof.
  intros [fl Hfl] Hown.
  destruct (add_event_known flow_id event now f fl Hfl) as (fls & -> & Hsome & _).
  unfold get_flow_events. simpl. split; [|done].
  rewrite filter_snoc, of_flow_event_data by done.
  by rewrite String.eqb_refl.
Qed.

Lemma add_events_read_order flow_id calls : ∀ f,
  is_Some (flows (_read_events f) !! flow_id) →
  Forall (λ c, own_flow_id flow_id (fst c)) calls →
  ∃ stored,
    get_flow_events flow_id (add_events flow_id calls f) =
      get_flow_events flow_id f ++ stored ∧
    Forall2 (λ c e, fst c ⊆ e ∧
                    e !! "timestamp" =
                      Some (default (VStr (snd c)) (fst c !! "timestamp")))
            calls stored.
Proof.
  induction calls as [|[event now] calls IH]; intros f Hreg Hown.
  - exists []. simpl. by rewrite app_nil_r.
  - apply Forall_cons in Hown as [Hev Hown]. simpl in Hev.
    destruct (get_flow_events_add_event flow_id event now f Hreg Hev)
      as [Hstep Hreg'].
    destruct (IH _ Hreg' Hown) as (stored & Hget & Hall).
    exists (event_data flow_id now event (events (_read_events f)) :: stored).
    split.
    + change (add_events flow_id ((event, now) :: calls) f)
        with (add_events flow_id calls (snd (add_event flow_id event now f))).
      rewrite Hget, Hstep. by rewrite <- app_assoc.
    + constructor; [|done]. simpl. split.
      * apply event_data_keeps.
      * apply event_data_timestamp.
Qed.

Lemma of_flow_eq s e : of_flow s e = true → e !! "flow_id" = Some (VStr s).
Proof.
  unfold of_flow, get, eq_str.
  destruct (e !! "flow_id") as [[]|]; try done.
  by intros ->%String.eqb_eq.
Qed.

Lemma built_events_owned f : built f → events_owned f.
Proof.
  induction 1 as [|f flow_id name now _ IH|f flow_id event now _ IH Hown
                 |f flow_id now _ IH]; intros e s He Hs.
  - destruct He.
  - simpl in *. destruct (decide (flow_id = s)) as [->|Hne].
    + rewrite lookup_insert_eq. eauto.
    + rewrite lookup_insert_ne by done. by apply (IH e).
  - destruct (flows (_read_events f) !! flow_id) as [fl|] eqn:Hfl.
    + destruct (add_event_known flow_id event now f fl Hfl)
        as (fls & Heq & Hsome & Hother).
      rewrite Heq in *. simpl in *.
      apply in_app_or in He as [He|[<-|[]]].
      * destruct (decide (s = flow_id)) as [->|Hne]; [done|].
        rewrite Hother by done. by apply (IH e).
      * rewrite of_flow_event_data in Hs by done.
        by apply String.eqb_eq in Hs as <-.
    + rewrite add_event_unknown in * by done. by apply (IH e).
  - unfold complete_flow, complete_flow_body in *.
    destruct (flows (_read_events f) !! flow_id) as [fl|] eqn:Hfl; simpl in *.
    + destruct (decide (flow_id = s)) as [->|Hne].
      * rewrite lookup_insert_eq. eauto.
      * rewrite lookup_insert_ne by done. by apply (IH e).
    + by apply (IH e).
Qed.

Lemma events_owned_unknown f flow_id :
  events_owned f → flows (_read_events f) !! flow_id = None →
  get_flow_events flow_id f = [].
Proof.
  intros Hown Hnone. unfold get_flow_events.
  destruct (List.filter _ _) as [|e l] eqn:E; [done|].
  assert (In e (List.filter (of_flow flow_id) (events (_read_events f)))) as Hin
    by (rewrite E; by left).
  apply List.filter_In in Hin as [Hin Hof].
  destruct (Hown e flow_id Hin Hof) as [fl Hfl]. congruence.
Qed.

(** Reading a flow back. [get_flow_events] filters the stored events on
    their own [flow_id] key. For a run of [add_event] calls on a registered
    flow whose events name no other flow, it returns what it returned
    before followed by one stored record per call, in call order, each
    keeping the caller's keys and the call's timestamp default. For an id
    that is not registered, in a file built by the store's writers from
    such events, it returns the empty list. *)
Lemma get_flow_events_of_own_events (f : file) (flow_id : string)
    (calls : list (dict * string)) :
  (is_Some (flows (_read_events f) !! flow_id) →
   Forall (λ c, own_flow_id flow_id (fst c)) calls →
   ∃ stored,
     get_flow_events flow_id (add_events flow_id calls f) =
       get_flow_events flow_id f ++ stored ∧
     Forall2 (λ c e, fst c ⊆ e ∧
                     e !! "timestamp" =
                       Some (default (VStr (snd c)) (fst c !! "timestamp")))
             calls stored) ∧
  (built f → flows (_read_events f) !! flow_id = None →
   get_flow_events flow_id f = []).
Proof.
  split.
  - apply add_events_read_order.
  - intros Hb. apply events_owned_unknown. by apply built_events_owned.
Qed.

(** C5, the code at the failing input: [add_event("f1", event)] on the
    store that holds the registered flow [f1] and no event, with an event
    dictionary that carries [flow_id = "f2"]. The call returns normally and
    stores one record. The record's [event_id] is [f1_0], counted among the
    events of [f1], and the call moves the [current_stage] of [f1]; but the
    record's [flow_id] is the caller's [f2], so [get_flow_events("f1")]
    does not return the event appended to [f1], and [get_flow_events("f2")]
    returns one event for a flow that was never created. *)
Theorem add_event_foreign_flow_id_misfiled :
  let before := RawStore.encode_file StoreExamples.one_flow in
  let after :=
    RawStore.encode_file
      (snd (add_event "f1" StoreExamples.foreign_event StoreExamples.t1
              StoreExamples.one_flow)) in
  RawStore.get_flow_events "f1" before = Ok [] ∧
  RawStore.add_event "f1" StoreExamples.foreign_event StoreExamples.t1 before
    = (Ok tt, after) ∧
  RawStore.get_flow_events "f1" after = Ok [] ∧
  RawStore.get_flow_events "f2" after = Ok [VDict StoreExamples.misfiled_event] ∧
  StoreExamples.foreign_event ⊆ StoreExamples.misfiled_event ∧
  StoreExamples.misfiled_event !! "flow_id" = Some (VStr "f2") ∧
  StoreExamples.misfiled_event !! "event_id" = Some (VStr "f1_0") ∧
  flows (_read_events
           (snd (add_event "f1" StoreExamples.foreign_event StoreExamples.t1
                   StoreExamples.one_flow))) !! "f1"
    ≫= (.!! "current_stage") = Some (VStr "task_creation") ∧
  flows (_read_events
           (snd (add_event "f1" StoreExamples.foreign_event StoreExamples.t1
                   StoreExamples.one_flow))) !! "f2" = None.
Proof.
  cbn zeta. split; [evaluate|]. split; [evaluate|]. split; [evaluate|].
  split; [evaluate|]. split; [apply event_data_keeps|].
  repeat split; evaluate.
Qed.

End ReadOrder.

(** ** The replay controller *)

(** *** The order on strings *)

Section StringOrder.

Lemma ascii_compare_refl a : Ascii.compare a a = Eq.
Proof. unfold Ascii.compare. apply N.compare_refl. Qed.

Lemma string_compare_refl s : String.compare s s = Eq.
Proof. induction s as [|a s IH]; simpl; [done|]. by rewrite ascii_compare_refl. Qed.

Lemma ascii_compare_eq a b : Ascii.compare a b = Eq → a = b.
Proof. apply Ascii.compare_eq_iff. Qed.

Lemma ascii_compare_lt_trans a b c :
  Ascii.compare a b = Lt → Ascii.compare b c = Lt → Ascii.compare a c = Lt.
Proof. unfold Ascii.compare. rewrite !N.compare_lt_iff. lia. Qed.

Lemma string_compare_lt_trans s1 : ∀ s2 s3,
  String.compare s1 s2 = Lt → String.compare s2 s3 = Lt →
  String.compare s1 s3 = Lt.
Proof.
  induction s1 as [|a s1 IH]; intros [|b s2] [|c s3]; simpl; try done.
  destruct (Ascii.compare a b) eqn:Hab; try done;
    destruct (Ascii.compare b c) eqn:Hbc; try done; intros H1 H2.
  - apply ascii_compare_eq in Hab as ->. apply ascii_compare_eq in Hbc as ->.
    rewrite ascii_compare_refl. eauto.
  - apply ascii_compare_eq in Hab as ->. by rewrite Hbc.
  - apply ascii_compare_eq in Hbc as ->. by rewrite Hab.
  - by rewrite (ascii_compare_lt_trans a b c).
Qed.

Lemma ltb_false_leb s1 s2 : String.ltb s1 s2 = false ↔ String.leb s2 s1 = true.
Proof.
  unfold String.ltb, String.leb. rewrite (String.compare_antisym s1 s2).
  by destruct (String.compare s2 s1).
Qed.

Lemma ltb_true_leb s1 s2 : String.ltb s1 s2 = true → String.leb s1 s2 = true.
Proof. unfold String.ltb, String.leb. by destruct (String.compare s1 s2). Qed.

Lemma leb_refl s : String.leb s s = true.
Proof. unfold String.leb. by rewrite string_compare_refl. Qed.

Lemma leb_trans s1 s2 s3 :
  String.leb s1 s2 = true → String.leb s2 s3 = true → String.leb s1 s3 = true.
Proof.
  unfold String.leb.
  destruct (String.compare s1 s2) eqn:H12; try done;
    destruct (String.compare s2 s3) eqn:H23; try done; intros _ _.
  - apply String.compare_eq_iff in H12 as ->. by rewrite H23.
  - apply String.compare_eq_iff in H12 as ->. by rewrite H23.
  - apply String.compare_eq_iff in H23 as ->. by rewrite H12.
  - by rewrite (string_compare_lt_trans s1 s2 s3).
Qed.

Lemma leb_empty s : String.leb "" s = true.
Proof. by destruct s. Qed.


Lemma ltb_irrefl s : String.ltb s s = false.
Proof. unfold String.ltb. by rewrite string_compare_refl. Qed.

End StringOrder.

(** *** [sorted] is the stable sort *)

Section SortedFacts.
Import Replay.
Context {A : Type} (key : A → string).

Lemma insert_by_perm x l : Permutation (x :: l) (insert_by key x l).
Proof.
  induction l as [|y l IH]; simpl; [done|].
  destruct (String.ltb (key y) (key x)); [|done].
  rewrite <- IH. apply perm_swap.
Qed.

Lemma sorted_perm l : Permutation l (sorted key l).
Proof.
  induction l as [|x l IH]; simpl; [done|].
  rewrite <- insert_by_perm. by constructor.
Qed.

Lemma insert_by_sorted x l :
  StronglySorted (key_le key) l → StronglySorted (key_le key) (insert_by key x l).
Proof.
  induction 1 as [|y l Hl IH Hy]; simpl.
  - repeat constructor.
  - destruct (String.ltb (key y) (key x)) eqn:E.
    + constructor; [done|].
      eapply Permutation_Forall; [apply insert_by_perm|].
      constructor; [|done]. by apply ltb_true_leb.
    + apply ltb_false_leb in E.
      constructor; [by constructor|]. constructor; [done|].
      eapply Forall_impl; [exact Hy|]. intros z Hz.
      by eapply leb_trans.
Qed.

Lemma sorted_sorted l : StronglySorted (key_le key) (sorted key l).
Proof.
  induction l as [|x l IH]; simpl; [constructor|]. by apply insert_by_sorted.
Qed.



Lemma sorted_fixpoint l : sorted key l = l ↔ Sorted (key_le key) l.
Proof.
  split.
  - intros <-. apply StronglySorted_Sorted, sorted_sorted.
  - induction 1 as [|x l Hl IH Hx]; [done|].
    cbn [sorted]. rewrite IH.
    destruct Hx as [|y l Hxy]; [done|].
    cbn [insert_by]. apply ltb_false_leb in Hxy. by rewrite Hxy.
Qed.


End SortedFacts.

Section ReplayFacts.
Import Replay.

Lemma forallb_timestamps (l : list dict) :
  Forall (λ e, is_Some (timestamp_str e)) l →
  forallb (λ e, bool_decide (is_Some (timestamp_str e))) l = true.
Proof.
  induction 1 as [|e l He _ IH]; [done|].
  simpl. rewrite IH. by rewrite bool_decide_eq_true_2.
Qed.


Lemma timestamp_key_text (e : dict) s :
  e !! "timestamp" = Some (VStr s) → timestamp_key e = s.
Proof. intros H. unfold timestamp_key, timestamp_str, get. by rewrite H. Qed.

Lemma strongly_sorted_lookup {A} (R : A → A → Prop) (l : list A) i j a b :
  StronglySorted R l → (i < j)%nat → l !! i = Some a → l !! j = Some b → R a b.
Proof.
  intros Hs. revert i j. induction Hs as [|x l Hl IH Hx]; intros i j Hij Ha Hb.
  - done.
  - destruct j as [|j]; [lia|]. simpl in Hb.
    destruct i as [|i]; simpl in Ha.
    + injection Ha as ->. rewrite Forall_forall in Hx. apply Hx.
      by eapply list_elem_of_lookup_2.
    + eapply (IH i j); eauto. lia.
Qed.



(** In that flow the clock stepped back between the first two calls: the
    snapshot is not the append order. *)
Lemma clock_stepped_back_is_reordered :
  _load_flow_events ReplayExamples.clock_stepped_back "f1" =
    Returns [ReplayExamples.late_generation; ReplayExamples.early_analysis;
             ReplayExamples.stored_task] ∧
  Store.get_flow_events "f1" ReplayExamples.clock_stepped_back =
    [ReplayExamples.early_analysis; ReplayExamples.late_generation;
     ReplayExamples.stored_task] ∧
  (λ e : dict, e !! "timestamp") <$>
    [ReplayExamples.late_generation; ReplayExamples.early_analysis;
     ReplayExamples.stored_task] =
    [Some (VStr StoreExamples.t0); Some (VStr StoreExamples.t1);
     Some (VStr StoreExamples.t2)].
Proof. repeat split; evaluate. Qed.

(** *** Timestamps that are not strings *)

Lemma insert_with_perm {A} (lt : A → A → bool) x l :
  Permutation (x :: l) (insert_with lt x l).
Proof.
  induction l as [|y l IH]; simpl; [done|].
  destruct (lt y x); [|done].
  rewrite <- IH. apply perm_swap.
Qed.

Lemma sorted_with_perm {A} (lt : A → A → bool) l :
  Permutation l (sorted_with lt l).
Proof.
  induction l as [|x l IH]; simpl; [done|].
  rewrite <- insert_with_perm. by constructor.
Qed.

Lemma insert_with_sorted {A} (lt : A → A → bool) x l :
  (∀ a b, lt a b = true → lt b a = false) →
  (∀ a b c, lt b a = false → lt c b = false → lt c a = false) →
  StronglySorted (λ a b, lt b a = false) l →
  StronglySorted (λ a b, lt b a = false) (insert_with lt x l).
Proof.
  intros Hasym Htrans. induction 1 as [|y l Hl IH Hy]; simpl.
  - repeat constructor.
  - destruct (lt y x) eqn:E.
    + constructor; [done|].
      eapply Permutation_Forall; [apply insert_with_perm|].
      constructor; [|done]. by apply Hasym.
    + constructor; [by constructor|].
      constructor; [done|].
      eapply Forall_impl; [exact Hy|]. intros z Hz. cbn in Hz.
      by apply (Htrans x y z).
Qed.

Lemma sorted_with_sorted {A} (lt : A → A → bool) l :
  (∀ a b, lt a b = true → lt b a = false) →
  (∀ a b c, lt b a = false → lt c b = false → lt c a = false) →
  StronglySorted (λ a b, lt b a = false) (sorted_with lt l).
Proof.
  intros Hasym Htrans. induction l as [|x l IH]; simpl; [constructor|].
  by apply insert_with_sorted.
Qed.

Lemma number_ltb_asym a b : number_ltb a b = true → number_ltb b a = false.
Proof.
  destruct a, b; simpl; try done. intros H%Z.ltb_lt. apply Z.ltb_ge. lia.
Qed.

Lemma number_ltb_trans a b c :
  number_ltb b a = false → number_ltb c b = false → number_ltb c a = false.
Proof.
  destruct a, b, c; simpl; try done.
  intros H1%Z.ltb_ge H2%Z.ltb_ge. apply Z.ltb_ge. lia.
Qed.

(** Number timestamps are sorted by value: the snapshot holds the flow's
    events, and of two of its events the earlier one never has the greater
    timestamp. *)
Lemma load_flow_events_numbers (f : Store.file) (flow_id : string) :
  Forall (λ e, is_Some (timestamp_number e)) (Store.get_flow_events flow_id f) →
  ∃ snapshot,
    _load_flow_events f flow_id = Returns snapshot ∧
    Permutation (Store.get_flow_events flow_id f) snapshot ∧
    ∀ i j e e' x x',
      (i < j)%nat → snapshot !! i = Some e → snapshot !! j = Some e' →
      timestamp_number e = Some x → timestamp_number e' = Some x' →
      number_ltb x' x = false.
Proof.
  intros Hnum. unfold _load_flow_events.
  set (evs := Store.get_flow_events flow_id f) in *.
  assert (∀ l : list dict, Forall (λ e, is_Some (timestamp_number e)) l →
            StronglySorted (λ a b, number_before b a = false)
                           (sorted_with number_before l)) as Hsorted.
  { intros l Hl.
    assert (Forall (λ e, is_Some (timestamp_number e)) (sorted_with number_before l))
      as Hl' by (eapply Permutation_Forall; [apply sorted_with_perm|done]).
    clear Hl. induction l as [|x l IH]; simpl in *; [constructor|].
    assert (Forall (λ e, is_Some (timestamp_number e))
                   (sorted_with number_before l)) as Hrest.
    { eapply Permutation_Forall in Hl'; [|symmetry; apply insert_with_perm].
      by apply Forall_cons in Hl' as [_ ?]. }
    assert (is_Some (timestamp_number x)) as [nx Hx].
    { eapply Permutation_Forall in Hl'; [|symmetry; apply insert_with_perm].
      by apply Forall_cons in Hl' as [? _]. }
    specialize (IH Hrest). clear Hl'.
    induction IH as [|y l' Hl' IHl' Hy]; simpl.
    - repeat constructor.
    - apply Forall_cons in Hrest as [[ny Hny] Hrest].
      destruct (number_before y x) eqn:E.
      + constructor; [by apply IHl'|].
        eapply Permutation_Forall; [apply insert_with_perm|].
        constructor; [|done].
        unfold number_before in *. rewrite Hx, Hny in *.
        by apply number_ltb_asym.
      + constructor; [by constructor|].
        constructor; [done|].
        rewrite Forall_forall in Hy, Hrest |- *. intros z Hz.
        destruct (Hrest z Hz) as [nz Hnz]. specialize (Hy z Hz).
        unfold number_before in *. rewrite Hx, Hny, Hnz in *.
        by apply (number_ltb_trans nx ny nz). }
  assert (∃ snapshot,
            Permutation evs snapshot ∧
            StronglySorted (λ a b, number_before b a = false) snapshot ∧
            (if forallb (λ e, bool_decide (is_Some (timestamp_str e))) evs
             then Returns (sorted timestamp_key evs)
             else if (length evs <=? 1)%nat then Returns evs
             else if forallb (λ e, bool_decide (is_Some (timestamp_number e))) evs
             then Returns (sorted_with number_before evs)
             else if forallb (λ e, is_number_kind (timestamp_value e)) evs
                     || forallb (λ e, is_list_kind (timestamp_value e)) evs
             then Unmodelled else RaisesTypeError) = Returns snapshot)
    as (snapshot & Hperm & Hs & ->).
  { destruct evs as [|e0 [|e1 rest]].
    - exists []. repeat split; constructor.
    - exists [e0]. split; [done|]. split; [repeat constructor|].
      by destruct (forallb _ [e0]).
    - set (evs := e0 :: e1 :: rest) in *.
      assert (forallb (λ e, bool_decide (is_Some (timestamp_str e))) evs = false)
        as ->.
      { apply Forall_cons in Hnum as [[n Hn] _]. cbn [evs forallb].
        rewrite bool_decide_eq_false_2; [done|].
        unfold timestamp_number, timestamp_str, timestamp_value in *.
        destruct (get "timestamp" (VStr "") e0); first [done|by intros [? ?]]. }
      assert (forallb (λ e, bool_decide (is_Some (timestamp_number e))) evs = true)
        as ->.
      { apply forallb_forall. intros e He%list_elem_of_In.
        rewrite Forall_forall in Hnum. by apply bool_decide_eq_true_2, Hnum. }
      exists (sorted_with number_before evs).
      split; [apply sorted_with_perm|]. split; [by apply Hsorted|done]. }
  exists snapshot. split; [done|]. split; [done|].
  intros i j e e' x x' Hij Hi Hj Hx Hx'.
  pose proof (strongly_sorted_lookup _ _ i j e e' Hs Hij Hi Hj) as Hle.
  cbn in Hle. unfold number_before in Hle. by rewrite Hx, Hx' in Hle.
Qed.

(** A flow that holds an event whose timestamp is a string (or missing) and
    an event whose timestamp is not a string makes the constructor raise
    [TypeError]. *)
Lemma load_flow_events_mixed_raises (f : Store.file) (flow_id : string)
    (e1 e2 : dict) :
  e1 ∈ Store.get_flow_events flow_id f →
  e2 ∈ Store.get_flow_events flow_id f →
  is_Some (timestamp_str e1) → timestamp_str e2 = None →
  _load_flow_events f flow_id = RaisesTypeError ∧
  new_controller f flow_id = RaisesTypeError.
Proof.
  intros H1 H2 [s Hs] Hn.
  assert (_load_flow_events f flow_id = RaisesTypeError) as Hload.
  { unfold _load_flow_events.
    set (evs := Store.get_flow_events flow_id f) in *.
    assert (∀ P : dict → bool, P e1 = false → forallb P evs = false) as Hno1.
    { intros P HP. apply not_true_is_false. intros Hall.
      rewrite forallb_forall in Hall.
      apply list_elem_of_In, Hall in H1. congruence. }
    assert (∀ P : dict → bool, P e2 = false → forallb P evs = false) as Hno2.
    { intros P HP. apply not_true_is_false. intros Hall.
      rewrite forallb_forall in Hall.
      apply list_elem_of_In, Hall in H2. congruence. }
    rewrite (Hno2 (λ e, bool_decide (is_Some (timestamp_str e))))
      by (apply bool_decide_eq_false_2; rewrite Hn; by intros [? ?]).
    assert ((length evs <=? 1)%nat = false) as ->.
    { apply Nat.leb_gt. destruct evs as [|a [|b rest]]; simpl.
      - by apply elem_of_nil in H1.
      - apply list_elem_of_singleton in H1, H2. subst. rewrite Hs in Hn. done.
      - lia. }
    assert (get "timestamp" (VStr "") e1 = VStr s) as Hv.
    { unfold timestamp_str in Hs. by destruct (get "timestamp" (VStr "") e1);
        simplify_eq. }
    rewrite (Hno1 (λ e, bool_decide (is_Some (timestamp_number e))))
      by (apply bool_decide_eq_false_2; unfold timestamp_number, timestamp_value;
          rewrite Hv; by intros [? ?]).
    rewrite (Hno1 (λ e, is_number_kind (timestamp_value e)))
      by (unfold timestamp_value; by rewrite Hv).
    rewrite (Hno1 (λ e, is_list_kind (timestamp_value e)))
      by (unfold timestamp_value; by rewrite Hv).
    done. }
  split; [done|]. unfold new_controller. by rewrite Hload.
Qed.

(** Number timestamps in a store: the snapshot is sorted by value. *)
Lemma number_timestamps_are_sorted :
  Store.get_flow_events "f1" ReplayExamples.number_timestamps
    = [ReplayExamples.number_analysis; ReplayExamples.number_generation] ∧
  _load_flow_events ReplayExamples.number_timestamps "f1"
    = Returns [ReplayExamples.number_generation; ReplayExamples.number_analysis].
Proof. split; evaluate. Qed.

(** A number timestamp and a text timestamp in one flow. *)
Lemma mixed_timestamps_raise :
  new_controller ReplayExamples.mixed_timestamps "f1" = RaisesTypeError.
Proof. evaluate. Qed.


Lemma navigation_keeps_events (c : controller) (p : Z) :
  events (fst (step_forward c)) = events c ∧
  max_position (fst (step_forward c)) = max_position c ∧
  events (fst (step_back c)) = events c ∧
  max_position (fst (step_back c)) = max_position c ∧
  events (fst (seek_to p c)) = events c ∧
  max_position (fst (seek_to p c)) = max_position c.
Proof.
  unfold step_forward, step_back, seek_to.
  repeat split; repeat case_match; done.
Qed.

(** C6: in a session over [N > 0] events, [step_forward] at position
    [N - 1] and [step_back] at position [0] return [False] and leave the
    cursor where it is; [seek_to p] succeeds exactly for [0 <= p < N], and
    then the current event is [events[p]]; for any other [p] it returns
    [False] with the cursor unchanged. Each call returns a pair: none
    raises. *)
Theorem navigation_at_the_bounds (c : controller) :
  max_position c = Z.of_nat (length (events c)) →
  (0 < length (events c))%nat →
  (current_position c = (max_position c - 1)%Z →
     step_forward c = (c, (false, get_current_state c))) ∧
  (current_position c = 0%Z →
     step_back c = (c, (false, get_current_state c))) ∧
  (∀ p, (0 ≤ p < max_position c)%Z →
     seek_to p c = (set_position c p, (true, get_current_state (set_position c p))) ∧
     current_position (set_position c p) = p ∧
     is_Some (events c !! Z.to_nat p) ∧
     get_current_event (set_position c p) = events c !! Z.to_nat p) ∧
  (∀ p, ¬ (0 ≤ p < max_position c)%Z →
     seek_to p c = (c, (false, get_current_state c))).
Proof.
  intros Hmax Hpos. repeat split.
  - intros Hlast. unfold step_forward. rewrite Hlast.
    by rewrite Z.ltb_irrefl.
  - intros Hfirst. unfold step_back. by rewrite Hfirst.
  - unfold seek_to.
    replace (0 <=? p)%Z with true by (symmetry; apply Z.leb_le; lia).
    replace (p <? max_position c)%Z with true by (symmetry; apply Z.ltb_lt; lia).
    done.
  - apply lookup_lt_is_Some. lia.
  - unfold get_current_event. simpl.
    replace (0 <=? p)%Z with true by (symmetry; apply Z.leb_le; lia).
    replace (p <? Z.of_nat (length (events c)))%Z with true
      by (symmetry; apply Z.ltb_lt; lia).
    done.
  - intros p Hout. unfold seek_to.
    destruct (0 <=? p)%Z eqn:E1; [|done].
    destruct (p <? max_position c)%Z eqn:E2; [|done].
    apply Z.leb_le in E1. apply Z.ltb_lt in E2. lia.
Qed.

Lemma navigation_at_the_bounds_witness :
  step_back ReplayExamples.three_event_controller =
    (ReplayExamples.three_event_controller,
     (false, get_current_state ReplayExamples.three_event_controller)).
Proof.
  refine (proj1 (proj2 (navigation_at_the_bounds
                          ReplayExamples.three_event_controller _ _)) _).
  - reflexivity.
  - by_evaluation.
  - reflexivity.
Defined.

Lemma record_key_event_at (key_events : gmap string (list Z)) i (e : dict) t ps :
  e !! "event_type" = Some (VStr t) → key_events !! t = Some ps →
  record_key_event key_events (i, e) = Ok (<[t := ps ++ [i]]> key_events).
Proof.
  intros H Hk. unfold record_key_event, get. cbn [snd fst]. by rewrite H, Hk.
Qed.

Lemma record_key_event_skip (key_events : gmap string (list Z)) i (e : dict) t :
  e !! "event_type" = Some (VStr t) → key_events !! t = None →
  record_key_event key_events (i, e) = Ok key_events.
Proof.
  intros H Hk. unfold record_key_event, get. cbn [snd fst]. by rewrite H, Hk.
Qed.

(** Three events of the types [ai_prd_analysis], [tasks_generated],
    [task_created] at the positions 0, 1, 2 of a controller. *)
Lemma key_events_of_typed_events (c : controller) (e0 e1 e2 : dict) :
  events c = [e0; e1; e2] →
  e0 !! "event_type" = Some (VStr "ai_prd_analysis") →
  e1 !! "event_type" = Some (VStr "tasks_generated") →
  e2 !! "event_type" = Some (VStr "task_created") →
  find_key_events c =
    Ok (<["ai_prd_analysis" := [0%Z]]>
          (<["tasks_generated" := [1%Z]]> empty_key_events)) ∧
  find_decision_points c = [].
Proof.
  intros Hev H0 H1 H2. split.
  - unfold find_key_events. rewrite Hev.
    change (enumerate [e0; e1; e2]) with [(0%Z, e0); (1%Z, e1); (2%Z, e2)].
    cbn [fold_left mbind result_bind].
    rewrite (record_key_event_at empty_key_events 0 e0 "ai_prd_analysis" []
               H0 ltac:(evaluate)).
    cbn [mbind result_bind app].
    rewrite (record_key_event_at _ 1 e1 "tasks_generated" [] H1 ltac:(evaluate)).
    cbn [mbind result_bind app].
    rewrite (record_key_event_skip _ 2 e2 "task_created" H2 ltac:(evaluate)).
    evaluate.
  - unfold find_decision_points. rewrite Hev.
    change (enumerate [e0; e1; e2]) with [(0%Z, e0); (1%Z, e1); (2%Z, e2)].
    cbn [List.filter]. unfold get. cbn [snd].
    rewrite H0, H1, H2. reflexivity.
Qed.

(** C9 (as the code has it): for a flow whose three stored events have the
    types [ai_prd_analysis], [tasks_generated], [task_created] in that
    order, and string timestamps that do not decrease in that order, the
    controller built for the flow holds the three events in that order;
    [find_key_events] returns the map with all five key event types, where
    [ai_prd_analysis] has [[0]], [tasks_generated] has [[1]] and the three
    other types have the empty list; [find_decision_points] returns the
    empty list. *)
Theorem key_events_of_three_event_flow (f : Store.file) (flow_id : string)
    (e0 e1 e2 : dict) (s0 s1 s2 : string) :
  Store.get_flow_events flow_id f = [e0; e1; e2] →
  e0 !! "event_type" = Some (VStr "ai_prd_analysis") →
  e1 !! "event_type" = Some (VStr "tasks_generated") →
  e2 !! "event_type" = Some (VStr "task_created") →
  e0 !! "timestamp" = Some (VStr s0) →
  e1 !! "timestamp" = Some (VStr s1) →
  e2 !! "timestamp" = Some (VStr s2) →
  String.leb s0 s1 = true → String.leb s1 s2 = true →
  ∃ c,
    new_controller f flow_id = Returns c ∧
    events c = [e0; e1; e2] ∧
    find_key_events c =
      Ok (<["ai_prd_analysis" := [0%Z]]>
            (<["tasks_generated" := [1%Z]]> empty_key_events)) ∧
    (<["ai_prd_analysis" := [0%Z]]>
       (<["tasks_generated" := [1%Z]]> empty_key_events)
     : gmap string (list Z)) =
      list_to_map [("decision_point", []); ("ai_prd_analysis", [0%Z]);
                   ("tasks_generated", [1%Z]); ("quality_metrics", []);
                   ("performance_metrics", [])] ∧
    find_decision_points c = [].
Proof.
  intros Hev H0 H1 H2 Hs0 Hs1 Hs2 H01 H12.
  assert (_load_flow_events f flow_id = Returns [e0; e1; e2]) as Hload.
  { unfold _load_flow_events. rewrite Hev.
    rewrite forallb_timestamps; last first.
    { repeat constructor; unfold timestamp_str, get;
        rewrite ?Hs0, ?Hs1, ?Hs2; eauto. }
    f_equal. apply sorted_fixpoint.
    repeat constructor; unfold key_le;
      rewrite ?(timestamp_key_text _ _ Hs0), ?(timestamp_key_text _ _ Hs1),
              ?(timestamp_key_text _ _ Hs2); done. }
  exists (Controller flow_id [e0; e1; e2] 0 3).
  split; [unfold new_controller; by rewrite Hload|]. split; [done|].
  destruct (key_events_of_typed_events (Controller flow_id [e0; e1; e2] 0 3)
              e0 e1 e2 eq_refl H0 H1 H2) as [Hkey Hdec].
  split; [exact Hkey|]. split; [evaluate|exact Hdec].
Qed.

Lemma three_event_controller_built :
  new_controller ReplayExamples.three_events "f1"
    = Returns ReplayExamples.three_event_controller.
Proof. evaluate. Qed.

Lemma key_events_of_three_event_flow_witness :
  ∃ c,
    new_controller ReplayExamples.three_events "f1" = Returns c ∧
    events c = [ReplayExamples.stored_analysis; ReplayExamples.stored_generation;
                ReplayExamples.stored_task] ∧
    find_key_events c =
      Ok (<["ai_prd_analysis" := [0%Z]]>
            (<["tasks_generated" := [1%Z]]> empty_key_events)) ∧
    (<["ai_prd_analysis" := [0%Z]]>
       (<["tasks_generated" := [1%Z]]> empty_key_events)
     : gmap string (list Z)) =
      list_to_map [("decision_point", []); ("ai_prd_analysis", [0%Z]);
                   ("tasks_generated", [1%Z]); ("quality_metrics", []);
                   ("performance_metrics", [])] ∧
    find_decision_points c = [].
Proof.
  refine (key_events_of_three_event_flow ReplayExamples.three_events "f1"
            ReplayExamples.stored_analysis ReplayExamples.stored_generation
            ReplayExamples.stored_task
            StoreExamples.t0 StoreExamples.t1 StoreExamples.t2
            _ _ _ _ _ _ _ _ _).
  - evaluate.
  - evaluate.
  - evaluate.
  - evaluate.
  - evaluate.
  - evaluate.
  - evaluate.
  - evaluate.
  - evaluate.
Defined.

(** Positions are those of the snapshot, which follows the timestamps: in
    the flow whose second event was appended at an earlier clock reading
    than the first, the stored types are in the same order
    [ai_prd_analysis], [tasks_generated], [task_created], and
    [find_key_events] has [ai_prd_analysis] at 1 and [tasks_generated] at
    0. *)
Lemma key_events_follow_the_timestamps :
  (λ e, get "event_type" VNone e) <$>
    Store.get_flow_events "f1" ReplayExamples.clock_stepped_back
    = [VStr "ai_prd_analysis"; VStr "tasks_generated"; VStr "task_created"] ∧
  new_controller ReplayExamples.clock_stepped_back "f1"
    = Returns ReplayExamples.stepped_back_controller ∧
  find_key_events ReplayExamples.stepped_back_controller =
    Ok (<["ai_prd_analysis" := [1%Z]]>
          (<["tasks_generated" := [0%Z]]> empty_key_events)).
Proof. repeat split; evaluate. Qed.

(** C9, refuted as stated: for the flow with the three events, appended at
    increasing times, the map [find_key_events] returns is not the
    two-entry map: it has five keys, [decision_point] among them with the
    empty list. *)
Lemma find_key_events_two_entry_counterexample :
  (λ e, get "event_type" VNone e) <$>
    Store.get_flow_events "f1" ReplayExamples.three_events
    = [VStr "ai_prd_analysis"; VStr "tasks_generated"; VStr "task_created"] ∧
  new_controller ReplayExamples.three_events "f1"
    = Returns ReplayExamples.three_event_controller ∧
  find_key_events ReplayExamples.three_event_controller ≠
    Ok (<["ai_prd_analysis" := [0%Z]]> (<["tasks_generated" := [1%Z]]> ∅)) ∧
  match find_key_events ReplayExamples.three_event_controller with
  | Ok key_events => key_events !! "decision_point" = Some [] ∧
                     size key_events = 5%nat
  | Raise _ => False
  end.
Proof.
  split; [evaluate|]. split; [evaluate|]. split.
  - intros H.
    apply (f_equal (λ r, match r with
                         | Ok m => m !! "decision_point"
                         | Raise _ => None
                         end)) in H.
    vm_compute in H. discriminate.
  - vm_compute. split; reflexivity.
Qed.

End ReplayFacts.

(** ** The log tailer *)

Section TailerFacts.
Import Tailer.

Context {datetime : Type} (fromisoformat : string → option datetime).

Abbreviation parse_entry := (_parse_log_entry datetime fromisoformat).
Abbreviation process_line := (_process_log_line datetime fromisoformat).
Abbreviation process_all := (process_lines datetime fromisoformat).
Abbreviation process_file := (_process_log_file datetime fromisoformat).

Lemma parse_timestamp_missing (d : dict) now t :
  d !! "timestamp" = None → fromisoformat now = Some t →
  parse_timestamp datetime fromisoformat d now = Ok t.
Proof. intros Hd Hnow. unfold parse_timestamp, get. by rewrite Hd, Hnow. Qed.

Lemma parse_timestamp_present (d : dict) now1 now2 :
  is_Some (d !! "timestamp") →
  parse_timestamp datetime fromisoformat d now1 =
  parse_timestamp datetime fromisoformat d now2.
Proof. intros [v Hv]. unfold parse_timestamp, get. by rewrite Hv. Qed.

Lemma parse_timestamp_unparseable (d : dict) now s :
  d !! "timestamp" = Some (VStr s) → fromisoformat s = None →
  parse_timestamp datetime fromisoformat d now = Raise ValueError.
Proof. intros Hd Hs. unfold parse_timestamp, get. by rewrite Hd, Hs. Qed.

Lemma simple_event_timestamp counter (d : dict) t :
  timestamp (_parse_simple_event datetime counter d t) = t.
Proof. unfold _parse_simple_event. by repeat case_match. Qed.

Lemma simple_event_untimed counter (d : dict) t1 t2 :
  untimed (_parse_simple_event datetime counter d t1) =
  untimed (_parse_simple_event datetime counter d t2).
Proof. unfold _parse_simple_event. by repeat case_match. Qed.

(** Whatever the parser builds carries the timestamp it was given. *)
Lemma dispatch_timestamp counter (d : dict) t ev :
  dispatch datetime counter d t = Ok (Some ev) → timestamp ev = t.
Proof.
  unfold dispatch, _parse_worker_event, _parse_kanban_event.
  repeat case_match; simpl; try congruence;
    try (intros [= <-]; apply simple_event_timestamp);
    try (intros [= <-]; reflexivity);
    repeat (destruct (contains _ _) as [[]|]; simpl; try congruence;
            try (intros [= <-]; reflexivity)).
Qed.

(** Apart from the timestamp, what the parser builds does not depend on
    the timestamp. *)
Lemma dispatch_untimed counter (d : dict) t1 t2 :
  fmap (M:=result) (fmap (M:=option) untimed) (dispatch datetime counter d t1) =
  fmap (M:=result) (fmap (M:=option) untimed) (dispatch datetime counter d t2).
Proof.
  unfold dispatch, _parse_worker_event, _parse_kanban_event.
  repeat case_match; simpl; try reflexivity;
    try (by rewrite (simple_event_untimed counter d t1 t2));
    repeat (destruct (contains _ _) as [[]|]; simpl; try reflexivity).
Qed.

Lemma dispatch_simple counter (d : dict) t :
  is_Some (d !! "type") → d !! "event" = None →
  dispatch datetime counter d t = Ok (Some (_parse_simple_event datetime counter d t)).
Proof.
  intros Ht He. unfold dispatch.
  rewrite (bool_decide_eq_true_2 _ Ht).
  rewrite bool_decide_eq_false_2; [done|]. rewrite He. by intros [? ?].
Qed.

Lemma parse_entry_timestamped (p : processor datetime) v now1 now2 :
  (∀ d, v = VDict d → is_Some (d !! "timestamp")) →
  parse_entry p v now1 = parse_entry p v now2.
Proof.
  intros Hts. unfold _parse_log_entry. destruct v; try done.
  by rewrite (parse_timestamp_present d now1 now2) by eauto.
Qed.

Lemma process_all_timestamped lines : ∀ (p : processor datetime) clock1 clock2,
  all_timestamped lines →
  process_all p lines clock1 = process_all p lines clock2.
Proof.
  induction lines as [|l lines IH]; intros p clock1 clock2 Hts; [done|].
  assert (all_timestamped lines) as Hrest.
  { intros d Hd. apply Hts. by right. }
  destruct l as [| |v]; cbn [process_lines].
  - by apply IH.
  - cbn [_process_log_line]. by rewrite (IH p clock1 clock2).
  - cbn [_process_log_line].
    rewrite (parse_entry_timestamped p v (clock1 (_event_counter p))
               (clock2 (_event_counter p))).
    + destruct (parse_entry p v _) as [q [[ev|]|e]]; try done;
        by rewrite (IH _ clock1 clock2).
    + intros d ->. apply Hts. by left.
Qed.

Lemma all_timestamped_drop n lines :
  all_timestamped lines → all_timestamped (drop n lines).
Proof.
  intros Hts d Hd. apply Hts.
  apply list_elem_of_In. apply list_elem_of_In in Hd.
  by eapply subseteq_drop.
Qed.

Lemma remember_similar (p1 p2 : processor datetime) ev1 ev2 :
  same_but_for_timestamps p1 p2 → untimed ev1 = untimed ev2 →
  same_but_for_timestamps (remember p1 ev1) (remember p2 ev2).
Proof.
  intros (Hh & Hm & Hc & Hf) Hev. unfold remember. repeat split; simpl; try done.
  assert (untimed <$> (conversation_history p1 ++ [ev1]) =
          untimed <$> (conversation_history p2 ++ [ev2])) as Happ.
  { rewrite !fmap_app. simpl. by rewrite Hh, Hev. }
  assert (length (conversation_history p1 ++ [ev1]) =
          length (conversation_history p2 ++ [ev2])) as Hlen.
  { apply (f_equal length) in Happ. by rewrite !length_fmap in Happ. }
  rewrite Hm, Hlen.
  destruct (_ <? _)%nat; [|done]. by rewrite !fmap_drop, Happ.
Qed.

Lemma bump_similar (p1 p2 : processor datetime) :
  same_but_for_timestamps p1 p2 → same_but_for_timestamps (bump p1) (bump p2).
Proof. intros (Hh & Hm & Hc & Hf). repeat split; simpl; congruence. Qed.

Lemma parse_entry_similar (p1 p2 : processor datetime) v now1 now2 :
  same_but_for_timestamps p1 p2 →
  is_Some (fromisoformat now1) → is_Some (fromisoformat now2) →
  same_but_for_timestamps (fst (parse_entry p1 v now1)) (fst (parse_entry p2 v now2)) ∧
  agree (snd (parse_entry p1 v now1)) (snd (parse_entry p2 v now2)).
Proof.
  intros Hsim [t1 H1] [t2 H2]. unfold _parse_log_entry. cbn [fst snd].
  split; [by apply bump_similar|].
  destruct Hsim as (_ & _ & Hc & _). unfold agree.
  destruct v; try done. cbn [bump _event_counter]. rewrite Hc.
  destruct (d !! "timestamp") as [ts|] eqn:Hts.
  - rewrite (parse_timestamp_present d now1 now2) by eauto.
    destruct (parse_timestamp _ _ d now2); [|done].
    cbn [mbind result_bind]. reflexivity.
  - rewrite (parse_timestamp_missing d now1 t1), (parse_timestamp_missing d now2 t2)
      by done.
    cbn [mbind result_bind]. apply dispatch_untimed.
Qed.

Lemma process_line_similar (p1 p2 : processor datetime) l now1 now2 :
  same_but_for_timestamps p1 p2 →
  is_Some (fromisoformat now1) → is_Some (fromisoformat now2) →
  same_but_for_timestamps (fst (process_line p1 l now1)) (fst (process_line p2 l now2)) ∧
  agree (snd (process_line p1 l now1)) (snd (process_line p2 l now2)).
Proof.
  intros Hsim Hn1 Hn2. destruct l as [| |v]; try done.
  cbn [_process_log_line].
  destruct (parse_entry_similar p1 p2 v now1 now2 Hsim Hn1 Hn2) as [Hq Hr].
  destruct (parse_entry p1 v now1) as [q1 r1], (parse_entry p2 v now2) as [q2 r2].
  cbn [fst snd] in *. unfold agree in *.
  destruct r1 as [[ev1|]|e1], r2 as [[ev2|]|e2]; simpl in Hr; try done.
  cbn [fst snd]. split; [|done].
  apply remember_similar; [done|]. congruence.
Qed.

Lemma process_all_similar lines : ∀ (p1 p2 : processor datetime) clock1 clock2,
  same_but_for_timestamps p1 p2 →
  (∀ n, is_Some (fromisoformat (clock1 n))) →
  (∀ n, is_Some (fromisoformat (clock2 n))) →
  same_but_for_timestamps (process_all p1 lines clock1).1.1
                          (process_all p2 lines clock2).1.1 ∧
  untimed <$> (process_all p1 lines clock1).1.2 =
    untimed <$> (process_all p2 lines clock2).1.2 ∧
  (process_all p1 lines clock1).2 = (process_all p2 lines clock2).2.
Proof.
  induction lines as [|l lines IH]; intros p1 p2 clock1 clock2 Hsim Hc1 Hc2.
  { done. }
  destruct l as [| |v]; cbn [process_lines].
  - by apply IH.
  - cbn [_process_log_line].
    destruct (IH p1 p2 clock1 clock2 Hsim Hc1 Hc2) as (Hq' & Hev & Hfin).
    destruct (process_all p1 lines clock1) as [[q1' ev1] f1],
             (process_all p2 lines clock2) as [[q2' ev2] f2].
    done.
  - destruct (process_line_similar p1 p2 (Json v) (clock1 (_event_counter p1))
                (clock2 (_event_counter p2)) Hsim (Hc1 _) (Hc2 _)) as [Hq Hr].
    destruct (process_line p1 (Json v) _) as [q1 r1],
             (process_line p2 (Json v) _) as [q2 r2].
    cbn [fst snd] in *. unfold agree in Hr.
    destruct r1 as [o1|e1], r2 as [o2|e2]; simpl in Hr; try done.
    destruct (IH q1 q2 clock1 clock2 Hq Hc1 Hc2) as (Hq' & Hev & Hfin).
    destruct (process_all q1 lines clock1) as [[q1' ev1] f1],
             (process_all q2 lines clock2) as [[q2' ev2] f2].
    cbn [fst snd] in *. split; [done|]. split; [|done].
    rewrite !fmap_app, Hev. f_equal.
    destruct o1, o2; simpl in *; congruence.
Qed.

(** C7 (as the code has it): a record without a timestamp is parsed with
    the clock reading of the call: every event built from it carries that
    time, and a record of the simple schema always yields its event. A
    record whose timestamp is a string that [datetime.fromisoformat]
    refuses makes the line parser raise [ValueError]; the loop over the
    file stops there, without an event for this line or for any later
    one. *)
Theorem parser_timestamp_handling (p : processor datetime) (d : dict) (now : string) :
  (d !! "timestamp" = None → ∀ t, fromisoformat now = Some t →
     (∀ ev, snd (process_line p (Json (VDict d)) now) = Ok (Some ev) →
            timestamp ev = t) ∧
     (is_Some (d !! "type") → d !! "event" = None →
        ∃ ev, snd (process_line p (Json (VDict d)) now) = Ok (Some ev) ∧
              timestamp ev = t)) ∧
  (∀ s, d !! "timestamp" = Some (VStr s) → fromisoformat s = None →
     snd (process_line p (Json (VDict d)) now) = Raise ValueError ∧
     ∀ rest clock,
       process_all p (Json (VDict d) :: rest) clock = (bump p, [], false)).
Proof.
  split.
  - intros Hd t Hnow.
    assert (snd (process_line p (Json (VDict d)) now) =
            dispatch datetime (S (_event_counter p)) d t) as Hline.
    { cbn [_process_log_line _parse_log_entry].
      rewrite (parse_timestamp_missing d now t Hd Hnow).
      cbn [mbind result_bind bump _event_counter].
      by destruct (dispatch datetime _ d t) as [[ev|]|e]. }
    split.
    + intros ev. rewrite Hline. apply dispatch_timestamp.
    + intros Htype Hevent. rewrite Hline, dispatch_simple by done.
      eexists. split; [reflexivity|]. apply simple_event_timestamp.
  - intros s Hd Hs.
    assert (∀ now', process_line p (Json (VDict d)) now' = (bump p, Raise ValueError))
      as Hline.
    { intros now'. cbn [_process_log_line _parse_log_entry].
      by rewrite (parse_timestamp_unparseable d now' s Hd Hs). }
    split; [by rewrite Hline|].
    intros rest clock. cbn [process_lines]. by rewrite Hline.
Qed.

(** C8 (as the code has it): two fresh processors reading the same lines
    do the same, whatever their clocks read, when every record carries its
    own timestamp. In general their events agree in number, order and in
    every field but the timestamp, which for a record without one is the
    time at which each processor parsed it. *)
Theorem parsing_determinism (file_path : string) (lines : list line)
    (from_position : nat) (clock1 clock2 : nat → string) :
  (all_timestamped lines →
     process_file new_processor file_path lines from_position clock1 =
     process_file new_processor file_path lines from_position clock2) ∧
  ((∀ n, is_Some (fromisoformat (clock1 n))) →
   (∀ n, is_Some (fromisoformat (clock2 n))) →
     untimed <$> snd (process_file new_processor file_path lines from_position clock1) =
     untimed <$> snd (process_file new_processor file_path lines from_position clock2)).
Proof.
  split.
  - intros Hts. unfold _process_log_file.
    by rewrite (process_all_timestamped (drop from_position lines) new_processor
                  clock1 clock2) by by apply all_timestamped_drop.
  - intros Hc1 Hc2. unfold _process_log_file.
    destruct (process_all_similar (drop from_position lines) new_processor
                new_processor clock1 clock2) as (_ & Hev & Hfin); try done.
    destruct (process_all new_processor _ clock1) as [[q1 ev1] f1],
             (process_all new_processor _ clock2) as [[q2 ev2] f2].
    cbn [fst snd] in *. subst f2. by destruct f1.
Qed.

End TailerFacts.

Section TailerSamples.
Import Tailer TailerExamples.

Lemma parser_timestamp_handling_witness :
  (∃ ev, snd (_process_log_line _ IsoFormat.fromisoformat new_processor
                (Json (VDict untimed_record)) (morning 0)) = Ok (Some ev) ∧
         IsoFormat.fromisoformat (morning 0) = Some (timestamp ev)) ∧
  snd (_process_log_line _ IsoFormat.fromisoformat new_processor
         (Json (VDict bad_time_record)) (morning 0)) = Raise ValueError.
Proof.
  split.
  - destruct (parser_timestamp_handling IsoFormat.fromisoformat new_processor
                untimed_record (morning 0)) as [H _].
    destruct (H eq_refl (IsoFormat.DateTime 2024 1 15 10 0 0 0) eq_refl)
      as [_ Hsimple].
    destruct Hsimple as (ev & Hev & Ht).
    + vm_compute. eauto.
    + vm_compute. reflexivity.
    + exists ev. split; [exact Hev|]. rewrite Ht. reflexivity.
  - destruct (parser_timestamp_handling IsoFormat.fromisoformat new_processor
                bad_time_record (morning 0)) as [_ H].
    destruct (H "yesterday") as [Hraise _].
    + vm_compute. reflexivity.
    + vm_compute. reflexivity.
    + exact Hraise.
Defined.

(** C7, refuted as stated: on a record whose timestamp is the text
    [yesterday] the line parser raises [ValueError]; the file loop stops on
    that line, so the well-formed record after it, which alone yields its
    event, yields none. *)
Lemma unparseable_timestamp_counterexample :
  snd (_process_log_line _ IsoFormat.fromisoformat new_processor
         (Json (VDict bad_time_record)) (morning 0)) = Raise ValueError ∧
  snd (_process_log_file _ IsoFormat.fromisoformat new_processor "realtime_1.jsonl"
         bad_time_log 0 morning) = [] ∧
  length (snd (_process_log_file _ IsoFormat.fromisoformat new_processor
                 "realtime_1.jsonl" [Json (VDict timed_record)] 0 morning)) = 1%nat.
Proof. vm_compute. repeat split. Qed.

Lemma parsing_determinism_witness :
  _process_log_file _ IsoFormat.fromisoformat new_processor "realtime_1.jsonl"
    timed_log 0 morning =
  _process_log_file _ IsoFormat.fromisoformat new_processor "realtime_1.jsonl"
    timed_log 0 evening ∧
  untimed <$> snd (_process_log_file _ IsoFormat.fromisoformat new_processor
                     "realtime_1.jsonl" untimed_log 0 morning) =
  untimed <$> snd (_process_log_file _ IsoFormat.fromisoformat new_processor
                     "realtime_1.jsonl" untimed_log 0 evening).
Proof.
  split.
  - destruct (parsing_determinism IsoFormat.fromisoformat "realtime_1.jsonl"
                timed_log 0 morning evening) as [H _].
    apply H. intros d [Hd|[Hd|[Hd|[Hd|[]]]]]; try discriminate;
      injection Hd as <-; vm_compute; eauto.
  - destruct (parsing_determinism IsoFormat.fromisoformat "realtime_1.jsonl"
                untimed_log 0 morning evening) as [_ H].
    apply H; intros n; vm_compute; eauto.
Defined.

(** C8, refuted as stated: two fresh processors read the same one-line file,
    whose record has no timestamp, one in the morning and one in the
    evening; the events they produce differ in their timestamps. *)
Lemma parsing_clock_counterexample :
  timestamp <$> snd (_process_log_file _ IsoFormat.fromisoformat new_processor
                       "realtime_1.jsonl" untimed_log 0 morning)
    = [IsoFormat.DateTime 2024 1 15 10 0 0 0] ∧
  timestamp <$> snd (_process_log_file _ IsoFormat.fromisoformat new_processor
                       "realtime_1.jsonl" untimed_log 0 evening)
    = [IsoFormat.DateTime 2024 1 15 22 0 0 0] ∧
  snd (_process_log_file _ IsoFormat.fromisoformat new_processor
         "realtime_1.jsonl" untimed_log 0 morning) ≠
  snd (_process_log_file _ IsoFormat.fromisoformat new_processor
         "realtime_1.jsonl" untimed_log 0 evening).
Proof.
  split; [vm_compute; reflexivity|]. split; [vm_compute; reflexivity|].
  intros H. apply (f_equal (fmap timestamp)) in H. vm_compute in H. discriminate.
Qed.

End TailerSamples.

(** ** The timeline, and two processes on one file *)

Section TimelineFacts.
Import Timeline.

Context {datetime : Type} (fromisoformat : string → option datetime)
  (elapsed_ms : datetime → datetime → result Z)
  (_get_event_summary : dict → result string).

(** [get_timeline_data] reads a missing timestamp as the empty text, which
    [datetime.fromisoformat] refuses: the call raises [ValueError] when the
    first event of the flow has no timestamp. *)
Lemma timeline_missing_timestamp_raises (event : dict) (rest : list dict) :
  fromisoformat "" = None → event !! "timestamp" = None →
  get_timeline_data datetime fromisoformat elapsed_ms _get_event_summary
    (event :: rest) = Raise ValueError.
Proof.
  intros Hempty Hmissing. unfold get_timeline_data, event_time, get.
  by rewrite Hmissing, Hempty.
Qed.

(** The same for a timestamp that is a text [datetime.fromisoformat]
    refuses. *)
Lemma timeline_unparseable_timestamp_raises (event : dict) (rest : list dict) s :
  event !! "timestamp" = Some (VStr s) → fromisoformat s = None →
  get_timeline_data datetime fromisoformat elapsed_ms _get_event_summary
    (event :: rest) = Raise ValueError.
Proof.
  intros Hts Hs. unfold get_timeline_data, event_time, get.
  by rewrite Hts, Hs.
Qed.

End TimelineFacts.

Section SchedFacts.
Import Store Sched.

(** A call whose three steps run without the other process in between is
    one [add_event]. *)
Lemma step_three_times flow_id event now rest (f : file) :
  let p := Process ((event, now) :: rest) Idle in
  let '(p1, f1) := step flow_id p f in
  let '(p2, f2) := step flow_id p1 f1 in
  let '(p3, f3) :=
    match at_stage p2 with
    | Opened _ => step flow_id p2 f2
    | _ => (p2, f2)
    end in
  p3 = Process rest Idle ∧ f3 = snd (add_event flow_id event now f).
Proof.
  cbn [step pending at_stage]. unfold add_event.
  destruct (add_event_body flow_id event now (_read_events f)) as [data'|];
    cbn [step pending at_stage]; done.
Qed.

(** One round in which both processes read before either writes: both calls
    return, and the file gains the event of the second writer only. *)
Lemma both_read_then_write_round flow_id (d : document)
    event1 now1 rest1 event2 now2 rest2 :
  is_Some (flows d !! flow_id) →
  ∃ d',
    run flow_id [P1; P2; P1; P1; P2; P2]
      (System (Some d) (Process ((event1, now1) :: rest1) Idle)
              (Process ((event2, now2) :: rest2) Idle))
    = System (Some d') (Process rest1 Idle) (Process rest2 Idle) ∧
    events d' = events d ++ [event_data flow_id now2 event2 (events d)] ∧
    is_Some (flows d' !! flow_id).
Proof.
  intros [fl Hfl].
  assert (∀ event now,
    add_event_body flow_id event now d =
      Some (Document
              match event !! "stage" with
              | Some stage => <[flow_id := <["current_stage" := stage]> fl]> (flows d)
              | None => flows d
              end
              (events d ++ [event_data flow_id now event (events d)]))) as Hbody.
  { intros event now. unfold add_event_body. by rewrite Hfl. }
  unfold run.
  repeat (cbn [fold_left system_step step pending at_stage process1 process2
               shared_file _read_events _write_events];
          rewrite ?Hbody).
  eexists. split; [reflexivity|]. split; [reflexivity|].
  cbn [flows]. destruct (event2 !! "stage"); [|by rewrite Hfl].
  rewrite lookup_insert_eq. eauto.
Qed.

(** Whatever the number of calls, that schedule loses one event in two. *)
Lemma both_read_then_write_count flow_id calls1 : ∀ calls2 (d : document),
  length calls1 = length calls2 →
  is_Some (flows d !! flow_id) →
  let s := run flow_id (rounds (length calls1) [P1; P2; P1; P1; P2; P2])
               (System (Some d) (Process calls1 Idle) (Process calls2 Idle)) in
  finished s = true ∧
  length (events (_read_events (shared_file s))) =
    (length (events d) + length calls1)%nat.
Proof.
  induction calls1 as [|[event1 now1] calls1 IH];
    intros [|[event2 now2] calls2] d Hlen Hreg; try discriminate.
  - simpl. split; [done|]. lia.
  - cbn [length rounds]. unfold run. rewrite fold_left_app.
    destruct (both_read_then_write_round flow_id d event1 now1 calls1
                event2 now2 calls2 Hreg) as (d' & Hrun & Hev & Hreg').
    unfold run in Hrun. rewrite Hrun.
    destruct (IH calls2 d' ltac:(by injection Hlen) Hreg') as [Hfin Hcount].
    unfold run in Hfin, Hcount. split; [done|].
    rewrite Hcount, Hev, length_app. simpl. lia.
Qed.

(** C3, the code at the failing schedule: two processes make 100
    [add_event] calls each on the registered flow [f1]. When every call
    runs to its end before the next one starts, the file ends with 200
    events. When in every round both processes read before either writes,
    all 200 calls return and the file ends with 100 events. After the
    [open] of a write and before its [json.dump], the file holds no
    document. *)
Theorem interleaved_add_event_loses_events :
  finished (run "f1" one_after_the_other two_writers) = true ∧
  length (events (_read_events
            (shared_file (run "f1" one_after_the_other two_writers)))) = 200%nat ∧
  finished (run "f1" both_read_then_write two_writers) = true ∧
  length (events (_read_events
            (shared_file (run "f1" both_read_then_write two_writers)))) = 100%nat ∧
  shared_file (run "f1" [P1; P1] two_writers) = None.
Proof. vm_compute. repeat split. Qed.

End SchedFacts.

(** ** More on the store *)

Section StoreMore.
Import Store.

Lemma fresh_event_id_inj flow_id : Inj (=) (=) (fresh_event_id flow_id).
Proof.
  intros n m H. unfold fresh_event_id in H.
  apply String.app_inj, String.app_inj in H.
  by apply (inj pretty), (inj N.of_nat) in H.
Qed.

Lemma event_data_fresh_id flow_id now (event : dict) stored :
  event !! "event_id" = None →
  event_data flow_id now event stored !! "event_id" =
    Some (VStr (fresh_event_id flow_id
                  (length (List.filter (of_flow flow_id) stored)))).
Proof.
  intros Hid. unfold event_data.
  assert (with_defaults flow_id now event !! "event_id" = None) as ->.
  { unfold with_defaults. rewrite lookup_union, Hid. simpl.
    by rewrite !lookup_insert_ne. }
  by rewrite lookup_insert_eq.
Qed.

Lemma add_events_ids flow_id calls : ∀ f,
  is_Some (flows (_read_events f) !! flow_id) →
  Forall (λ c, fst c !! "flow_id" = None ∧ fst c !! "event_id" = None) calls →
  ∃ stored,
    get_flow_events flow_id (add_events flow_id calls f) =
      get_flow_events flow_id f ++ stored ∧
    (λ e, e !! "event_id") <$> stored =
      (λ k, Some (VStr (fresh_event_id flow_id k))) <$>
        seq (length (get_flow_events flow_id f)) (length calls).
Proof.
  induction calls as [|[event now] calls IH]; intros f Hreg Hcalls.
  - exists []. simpl. by rewrite app_nil_r.
  - apply Forall_cons in Hcalls as [[Hfid Hid] Hcalls]. simpl in Hfid, Hid.
    destruct (get_flow_events_add_event flow_id event now f Hreg (or_introl Hfid))
      as [Hstep Hreg'].
    destruct (IH _ Hreg' Hcalls) as (stored & Hget & Hids).
    exists (event_data flow_id now event (events (_read_events f)) :: stored).
    split.
    + change (add_events flow_id ((event, now) :: calls) f)
        with (add_events flow_id calls (snd (add_event flow_id event now f))).
      rewrite Hget, Hstep. by rewrite <- app_assoc.
    + cbn [fmap list_fmap length seq]. f_equal.
      * by apply event_data_fresh_id.
      * rewrite Hids, Hstep, length_app. simpl.
        by replace (length (get_flow_events flow_id f) + 1)%nat
          with (S (length (get_flow_events flow_id f))) by lia.
Qed.

(** X1: events appended to a registered flow without an [event_id] (and
    without a [flow_id]) of their own get the ids [<flow>_<n>],
    [<flow>_<n+1>], ... where [n] is the number of events the flow had:
    the ids count up with the flow's events and are pairwise distinct. *)
Theorem add_events_sequential_ids (f : file) (flow_id : string)
    (calls : list (dict * string)) :
  is_Some (flows (_read_events f) !! flow_id) →
  Forall (λ c, fst c !! "flow_id" = None ∧ fst c !! "event_id" = None) calls →
  ∃ stored,
    get_flow_events flow_id (add_events flow_id calls f) =
      get_flow_events flow_id f ++ stored ∧
    (λ e, e !! "event_id") <$> stored =
      (λ k, Some (VStr (fresh_event_id flow_id k))) <$>
        seq (length (get_flow_events flow_id f)) (length calls) ∧
    NoDup ((λ e, e !! "event_id") <$> stored).
Proof.
  intros Hreg Hcalls.
  destruct (add_events_ids flow_id calls f Hreg Hcalls) as (stored & Hget & Hids).
  exists stored. split; [done|]. split; [done|].
  rewrite Hids. apply NoDup_fmap_2; [|apply NoDup_seq].
  intros n m [= H]. by apply fresh_event_id_inj in H.
Qed.

Lemma add_events_sequential_ids_witness :
  ∃ stored,
    get_flow_events "f1"
      (add_events "f1" StoreExamples.two_calls StoreExamples.one_flow) =
      get_flow_events "f1" StoreExamples.one_flow ++ stored ∧
    (λ e, e !! "event_id") <$> stored =
      (λ k, Some (VStr (fresh_event_id "f1" k))) <$>
        seq (length (get_flow_events "f1" StoreExamples.one_flow))
            (length StoreExamples.two_calls) ∧
    NoDup ((λ e, e !! "event_id") <$> stored).
Proof.
  refine (add_events_sequential_ids StoreExamples.one_flow "f1"
            StoreExamples.two_calls _ _).
  - by_evaluation.
  - repeat constructor; evaluate.
Defined.

Lemma of_flow_event_data_other flow_id other now (event : dict) stored :
  own_flow_id flow_id event → other ≠ flow_id →
  of_flow other (event_data flow_id now event stored) = false.
Proof.
  intros Hown Hne. rewrite of_flow_event_data by done.
  apply String.eqb_neq. congruence.
Qed.

(** X2: the writers touch their own flow only. [add_event] on one flow
    (with an event that names no other flow) changes neither the events
    [get_flow_events] returns for any other flow nor any other flow record;
    [add_flow] and [complete_flow] change no stored event at all, and no
    other flow record. *)
Theorem writers_leave_other_flows (f : file) (flow_id other : string)
    (event : dict) (project_name now : string) :
  other ≠ flow_id →
  (own_flow_id flow_id event →
     get_flow_events other (snd (add_event flow_id event now f)) =
       get_flow_events other f) ∧
  flows (_read_events (snd (add_event flow_id event now f))) !! other =
    flows (_read_events f) !! other ∧
  events (_read_events (snd (add_flow flow_id project_name now f))) =
    events (_read_events f) ∧
  flows (_read_events (snd (add_flow flow_id project_name now f))) !! other =
    flows (_read_events f) !! other ∧
  events (_read_events (snd (complete_flow flow_id now f))) =
    events (_read_events f) ∧
  flows (_read_events (snd (complete_flow flow_id now f))) !! other =
    flows (_read_events f) !! other.
Proof.
  intros Hne.
  assert (Hadd :
    add_event flow_id event now f = (Ok tt, f) ∨
    ∃ fls, add_event flow_id event now f =
             (Ok tt, Some (Document fls
                (events (_read_events f) ++
                   [event_data flow_id now event (events (_read_events f))]))) ∧
           fls !! other = flows (_read_events f) !! other).
  { destruct (flows (_read_events f) !! flow_id) as [fl|] eqn:Hfl.
    - right. destruct (add_event_known flow_id event now f fl Hfl)
        as (fls & Heq & _ & Hother).
      exists fls. split; [done|]. by apply Hother.
    - left. by apply add_event_unknown. }
  split; [|split; [|split; [|split; [|split]]]].
  - intros Hown. destruct Hadd as [->|(fls & -> & _)]; [done|].
    unfold get_flow_events. cbn [snd _read_events events].
    rewrite filter_snoc, of_flow_event_data_other by done.
    by rewrite app_nil_r.
  - by destruct Hadd as [->|(fls & -> & Hfls)].
  - done.
  - simpl. by rewrite lookup_insert_ne.
  - unfold complete_flow, complete_flow_body.
    by destruct (flows (_read_events f) !! flow_id).
  - unfold complete_flow, complete_flow_body.
    destruct (flows (_read_events f) !! flow_id); [|done].
    simpl. by rewrite lookup_insert_ne.
Qed.

Lemma writers_leave_other_flows_witness :
  get_flow_events "f2"
    (snd (add_event "f1" StoreExamples.task_event StoreExamples.t2
            StoreExamples.one_flow)) =
  get_flow_events "f2" StoreExamples.one_flow.
Proof.
  refine (proj1 (writers_leave_other_flows StoreExamples.one_flow "f1" "f2"
                   StoreExamples.task_event "demo" StoreExamples.t2 _) _).
  - discriminate.
  - left. evaluate.
Defined.

End StoreMore.

(** ** The producer's front end *)

Section VisualizerFacts.
Import Store.

Lemma set_if_given_lookup key o (d : dict) k :
  k ≠ key → Visualizer.set_if_given key o d !! k = d !! k.
Proof.
  intros Hk. unfold Visualizer.set_if_given. destruct o; [|done].
  by rewrite lookup_insert_ne.
Qed.

Lemma build_event_lookup stage event_type data status duration_ms error k :
  k ≠ "error" → k ≠ "duration_ms" →
  Visualizer.build_event stage event_type data status duration_ms error !! k =
    (<["stage" := VStr (Visualizer.stage_value stage)]>
       (<["event_type" := VStr event_type]>
          (<["data" := VDict data]>
             (<["status" := VStr status]> (∅ : dict))))) !! k.
Proof.
  intros He Hd. unfold Visualizer.build_event.
  by rewrite !set_if_given_lookup.
Qed.

(** X3: an event recorded through [SharedPipelineVisualizer.add_event] on a
    registered flow is read back by [get_flow_events] as the flow's last
    event, with the stage value, event type and status of the call, the
    flow id and the time of the call; the flow record's [current_stage]
    becomes the stage of the call. *)
Theorem visualizer_event_read_back (f : file) (flow_id : string)
    (stage : Visualizer.PipelineStage) (event_type : string) (data : dict)
    (status : string) (duration_ms : option Z) (error : option string)
    (now : string) :
  is_Some (flows (_read_events f) !! flow_id) →
  ∃ stored,
    get_flow_events flow_id
      (snd (Visualizer.add_event flow_id stage event_type data status
              duration_ms error now f)) =
      get_flow_events flow_id f ++ [stored] ∧
    stored !! "event_type" = Some (VStr event_type) ∧
    stored !! "stage" = Some (VStr (Visualizer.stage_value stage)) ∧
    stored !! "status" = Some (VStr status) ∧
    stored !! "data" = Some (VDict data) ∧
    stored !! "flow_id" = Some (VStr flow_id) ∧
    stored !! "timestamp" = Some (VStr now) ∧
    flows (_read_events
             (snd (Visualizer.add_event flow_id stage event_type data status
                     duration_ms error now f))) !! flow_id
      ≫= (.!! "current_stage") = Some (VStr (Visualizer.stage_value stage)).
Proof.
  intros Hreg. unfold Visualizer.add_event.
  set (event := Visualizer.build_event stage event_type data status duration_ms error).
  assert (∀ k, k ≠ "error" → k ≠ "duration_ms" →
            event !! k = (<["stage" := VStr (Visualizer.stage_value stage)]>
                           (<["event_type" := VStr event_type]>
                              (<["data" := VDict data]>
                                 (<["status" := VStr status]> (∅ : dict))))) !! k)
    as Hlook by (intros; by apply build_event_lookup).
  assert (event !! "flow_id" = None) as Hfid by (by rewrite Hlook).
  assert (event !! "timestamp" = None) as Hts by (by rewrite Hlook).
  destruct (get_flow_events_add_event flow_id event now f Hreg (or_introl Hfid))
    as [Hstep _].
  exists (event_data flow_id now event (events (_read_events f))).
  split; [done|].
  pose proof (event_data_keeps flow_id now event (events (_read_events f))) as Hsub.
  assert (∀ k v, event !! k = Some v →
            event_data flow_id now event (events (_read_events f)) !! k = Some v)
    as Hkeep by (intros k v Hk; by eapply lookup_weaken).
  repeat split.
  - apply Hkeep. by rewrite Hlook.
  - apply Hkeep. by rewrite Hlook.
  - apply Hkeep. by rewrite Hlook.
  - apply Hkeep. by rewrite Hlook.
  - rewrite event_data_lookup_other, with_defaults_flow_id by done.
    by rewrite Hfid.
  - rewrite event_data_timestamp. by rewrite Hts.
  - destruct Hreg as [fl Hfl].
    unfold add_event, add_event_body. rewrite Hfl.
    assert (event !! "stage" = Some (VStr (Visualizer.stage_value stage))) as ->
      by (by rewrite Hlook).
    cbn [snd _write_events _read_events flows].
    rewrite lookup_insert_eq. simpl. by rewrite lookup_insert_eq.
Qed.

Lemma visualizer_event_read_back_witness :
  ∃ stored,
    get_flow_events "f1"
      (snd (Visualizer.add_event "f1" Visualizer.AI_ANALYSIS "ai_prd_analysis" ∅
              "completed" (Some 120%Z) None StoreExamples.t1
              StoreExamples.one_flow)) =
      get_flow_events "f1" StoreExamples.one_flow ++ [stored] ∧
    stored !! "event_type" = Some (VStr "ai_prd_analysis") ∧
    stored !! "stage" = Some (VStr (Visualizer.stage_value Visualizer.AI_ANALYSIS)) ∧
    stored !! "status" = Some (VStr "completed") ∧
    stored !! "data" = Some (VDict ∅) ∧
    stored !! "flow_id" = Some (VStr "f1") ∧
    stored !! "timestamp" = Some (VStr StoreExamples.t1) ∧
    flows (_read_events
             (snd (Visualizer.add_event "f1" Visualizer.AI_ANALYSIS
                     "ai_prd_analysis" ∅ "completed" (Some 120%Z) None
                     StoreExamples.t1 StoreExamples.one_flow))) !! "f1"
      ≫= (.!! "current_stage") =
      Some (VStr (Visualizer.stage_value Visualizer.AI_ANALYSIS)).
Proof.
  refine (visualizer_event_read_back StoreExamples.one_flow "f1"
            Visualizer.AI_ANALYSIS "ai_prd_analysis" ∅ "completed"
            (Some 120%Z) None StoreExamples.t1 _).
  by_evaluation.
Defined.

Lemma node_found flow_id i (event : dict) :
  is_Some (event !! "event_type") → is_Some (event !! "timestamp") →
  ∃ n, Visualizer.node flow_id i event = Visualizer.Found n ∧
       n !! "id" = Some (VStr (Visualizer.node_id flow_id i)) ∧
       n !! "label" = event !! "event_type".
Proof.
  intros [label Hl] [ts Hts]. unfold Visualizer.node, Visualizer.index.
  rewrite Hl, Hts. cbn [mbind Visualizer.indexed_bind].
  eexists. split; [reflexivity|].
  rewrite !set_if_given_lookup by done. split.
  - by rewrite lookup_insert_eq.
  - rewrite lookup_insert_ne by done. by rewrite lookup_insert_eq.
Qed.

Lemma node_missing flow_id i (event : dict) :
  event !! "event_type" = None ∨ event !! "timestamp" = None →
  ∃ key, Visualizer.node flow_id i event = Visualizer.KeyError key.
Proof.
  unfold Visualizer.node, Visualizer.index.
  destruct (event !! "event_type"); cbn [mbind Visualizer.indexed_bind].
  - intros [|Hts]; [done|]. rewrite Hts. eauto.
  - eauto.
Qed.

Lemma graph_from_found flow_id events : ∀ i,
  Forall (λ e : dict, is_Some (e !! "event_type") ∧ is_Some (e !! "timestamp"))
         events →
  ∃ nodes edges,
    Visualizer.graph_from flow_id i events = Visualizer.Found (nodes, edges) ∧
    length nodes = length events ∧
    (∀ k n, nodes !! k = Some n →
            n !! "id" = Some (VStr (Visualizer.node_id flow_id (i + k)))) ∧
    (λ n, n !! "label") <$> nodes = (λ e, e !! "event_type") <$> events ∧
    edges = (λ j, Visualizer.Edge (Visualizer.node_id flow_id j)
                                  (Visualizer.node_id flow_id (S j))) <$>
            match i with
            | O => seq 0 (length events - 1)
            | S i' => seq i' (length events)
            end.
Proof.
  induction events as [|event events IH]; intros i Hok.
  - exists [], []. repeat split; try done. by destruct i.
  - apply Forall_cons in Hok as [[Hl Hts] Hok].
    destruct (node_found flow_id i event Hl Hts) as (n & Hn & Hid & Hlabel).
    destruct (IH (S i) Hok) as (nodes & edges & Hg & Hlen & Hids & Hlabels & Hedges).
    cbn [Visualizer.graph_from]. rewrite Hn. cbn [mbind Visualizer.indexed_bind].
    rewrite Hg. cbn [mbind Visualizer.indexed_bind].
    eexists _, _. split; [reflexivity|]. split; [simpl; lia|].
    split; [|split].
    + intros [|k] m Hk; simpl in Hk.
      * injection Hk as <-. by rewrite Nat.add_0_r.
      * rewrite (Hids k m Hk). do 3 f_equal. lia.
    + cbn [fmap list_fmap]. f_equal; [exact Hlabel|exact Hlabels].
    + rewrite Hedges. destruct i as [|i']; simpl.
      * by rewrite Nat.sub_0_r.
      * done.
Qed.

(** X4: [get_flow_visualization] answers "not found" for a flow without
    stored events. For a flow with [n > 0] events that all carry
    [event_type] and [timestamp] it returns [n] nodes in event order, the
    [i]-th with id [<flow>_<i>] and the event type as label, chained by the
    [n - 1] edges from each node to the next, and [total_events = n]. When
    some event lacks one of the two keys it raises [KeyError]. *)
Theorem flow_visualization_shape (f : file) (flow_id : string) :
  (get_flow_events flow_id f = [] →
     Visualizer.get_flow_visualization flow_id f =
       Visualizer.Found (Visualizer.NotFound flow_id)) ∧
  (get_flow_events flow_id f ≠ [] →
   Forall (λ e : dict, is_Some (e !! "event_type") ∧ is_Some (e !! "timestamp"))
          (get_flow_events flow_id f) →
     ∃ nodes edges,
       Visualizer.get_flow_visualization flow_id f =
         Visualizer.Found (Visualizer.Graph flow_id nodes edges
                             (length (get_flow_events flow_id f))) ∧
       length nodes = length (get_flow_events flow_id f) ∧
       (∀ k n, nodes !! k = Some n →
               n !! "id" = Some (VStr (Visualizer.node_id flow_id k))) ∧
       (λ n, n !! "label") <$> nodes =
         (λ e, e !! "event_type") <$> get_flow_events flow_id f ∧
       edges = (λ j, Visualizer.Edge (Visualizer.node_id flow_id j)
                                     (Visualizer.node_id flow_id (S j))) <$>
               seq 0 (length (get_flow_events flow_id f) - 1)) ∧
  (Exists (λ e : dict, e !! "event_type" = None ∨ e !! "timestamp" = None)
          (get_flow_events flow_id f) →
     ∃ key, Visualizer.get_flow_visualization flow_id f = Visualizer.KeyError key).
Proof.
  unfold Visualizer.get_flow_visualization. split; [|split].
  - by intros ->.
  - intros Hne Hok.
    destruct (graph_from_found flow_id (get_flow_events flow_id f) 0 Hok)
      as (nodes & edges & Hg & Hlen & Hids & Hlabels & Hedges).
    exists nodes, edges. rewrite Hg.
    destruct (get_flow_events flow_id f); [done|].
    cbn [mbind Visualizer.indexed_bind]. repeat split; done.
  - intros Hex.
    assert (∀ i, ∃ key, Visualizer.graph_from flow_id i (get_flow_events flow_id f)
                        = Visualizer.KeyError key) as Hraise.
    { induction Hex as [event events Hmiss|event events _ IH]; intros i.
      - destruct (node_missing flow_id i event Hmiss) as [key Hkey].
        exists key. cbn [Visualizer.graph_from]. by rewrite Hkey.
      - cbn [Visualizer.graph_from].
        destruct (Visualizer.node flow_id i event) as [n|key];
          cbn [mbind Visualizer.indexed_bind]; [|eauto].
        destruct (IH (S i)) as [key ->]. eauto. }
    destruct (Hraise 0%nat) as [key Hkey]. exists key. rewrite Hkey.
    destruct (get_flow_events flow_id f) eqn:E; [by inversion Hex|done].
Qed.

Lemma flow_visualization_shape_witness :
  ∃ nodes edges,
    Visualizer.get_flow_visualization "f1" ReplayExamples.three_events =
      Visualizer.Found (Visualizer.Graph "f1" nodes edges
                          (length (get_flow_events "f1" ReplayExamples.three_events))) ∧
    length nodes = length (get_flow_events "f1" ReplayExamples.three_events) ∧
    (∀ k n, nodes !! k = Some n →
            n !! "id" = Some (VStr (Visualizer.node_id "f1" k))) ∧
    (λ n, n !! "label") <$> nodes =
      (λ e, e !! "event_type") <$> get_flow_events "f1" ReplayExamples.three_events ∧
    edges = (λ j, Visualizer.Edge (Visualizer.node_id "f1" j)
                                  (Visualizer.node_id "f1" (S j))) <$>
            seq 0 (length (get_flow_events "f1" ReplayExamples.three_events) - 1).
Proof.
  refine (proj1 (proj2 (flow_visualization_shape ReplayExamples.three_events "f1"))
            _ _).
  - intros H. apply (f_equal length) in H. vm_compute in H. discriminate.
  - by_evaluation.
Defined.

End VisualizerFacts.

(** ** More on the replay controller *)

Section CursorFacts.
Import Replay ReplayContext.

Lemma controller_eta (c : controller) :
  Controller (flow_id c) (events c) (current_position c) (max_position c) = c.
Proof. by destruct c. Qed.



(** X6: what [get_current_state] shows. With a valid cursor on a flow that
    has events, [is_at_end] is false at every position, the last one
    included; there is a current event, and [visible_events] is the prefix
    of the events up to and with the current one, never a later event. On
    an empty flow [is_at_start] and [is_at_end] are both true, there is no
    current event and nothing is visible. *)
Theorem current_state_of_valid_cursor (c : controller) :
  cursor_valid c →
  (events c ≠ [] →
     is_at_end (get_current_state c) = false ∧
     ∃ e, events c !! Z.to_nat (current_position c) = Some e ∧
          current_event (get_current_state c) = Some e ∧
          visible_events (get_current_state c) =
            take (S (Z.to_nat (current_position c))) (events c) ∧
          length (visible_events (get_current_state c)) =
            S (Z.to_nat (current_position c)) ∧
          last (visible_events (get_current_state c)) = Some e) ∧
  (events c = [] →
     is_at_start (get_current_state c) = true ∧
     is_at_end (get_current_state c) = true ∧
     current_event (get_current_state c) = None ∧
     visible_events (get_current_state c) = []).
Proof.
  intros (Hmax & Hlo & Hhi). split.
  - intros Hne.
    assert (0 < length (events c))%nat as Hlen
      by (destruct (events c); [done|simpl; lia]).
    assert (current_position c < Z.of_nat (length (events c)))%Z as Hlt by lia.
    split.
    { cbn. apply Z.leb_gt. lia. }
    destruct (lookup_lt_is_Some_2 (events c) (Z.to_nat (current_position c)))
      as [e He]; [lia|].
    exists e. split; [done|].
    assert (visible_events (get_current_state c) =
            take (S (Z.to_nat (current_position c))) (events c)) as Hvis.
    { cbn. unfold get_state_at_position.
      replace (current_position c <? 0)%Z with false by (symmetry; apply Z.ltb_ge; lia).
      f_equal. lia. }
    split; [|split; [done|split]].
    + cbn. unfold get_current_event.
      replace (0 <=? current_position c)%Z with true by (symmetry; apply Z.leb_le; lia).
      replace (current_position c <? Z.of_nat (length (events c)))%Z with true
        by (symmetry; apply Z.ltb_lt; lia).
      done.
    + rewrite Hvis, length_take. lia.
    + rewrite Hvis, (take_S_r _ _ e He). by rewrite last_snoc.
  - intros Hnil. rewrite Hnil in Hmax. simpl in Hmax.
    assert (current_position c = 0%Z) as Hpos by lia.
    cbn. unfold get_current_event, get_state_at_position.
    rewrite Hpos, Hmax, Hnil. by cbn.
Qed.

Lemma current_state_of_valid_cursor_witness :
  is_at_end (get_current_state
               (fst (seek_to 2 ReplayExamples.three_event_controller))) = false.
Proof.
  refine (proj1 (proj1 (current_state_of_valid_cursor
                          (fst (seek_to 2 ReplayExamples.three_event_controller)) _)
                   _)).
  - split; [reflexivity|]. split; [by_evaluation|]. left. by_evaluation.
  - discriminate.
Defined.

(** X7: stepping forward and back undoes itself. With a valid cursor, a
    [step_forward] that succeeds followed by [step_back] gives the
    controller back, and so does a [step_back] that succeeds followed by
    [step_forward]; [k] calls of [step_forward] move the cursor of a flow
    with events to [min(position + k, N - 1)]. *)
Theorem step_round_trip (c : controller) (k : nat) :
  cursor_valid c →
  (fst (snd (step_forward c)) = true →
     step_back (fst (step_forward c)) = (c, (true, get_current_state c))) ∧
  (fst (snd (step_back c)) = true →
     step_forward (fst (step_back c)) = (c, (true, get_current_state c))) ∧
  (events c ≠ [] →
     current_position (Nat.iter k (λ c, fst (step_forward c)) c) =
       Z.min (current_position c + Z.of_nat k) (max_position c - 1)).
Proof.
  intros (Hmax & Hlo & Hhi). split; [|split].
  - unfold step_forward.
    destruct (current_position c <? max_position c - 1)%Z eqn:E; [|done].
    intros _. cbn [fst]. unfold step_back, set_position. cbn.
    replace (0 <? current_position c + 1)%Z with true
      by (symmetry; apply Z.ltb_lt; lia).
    replace (current_position c + 1 - 1)%Z with (current_position c) by lia.
    by rewrite controller_eta.
  - unfold step_back.
    destruct (0 <? current_position c)%Z eqn:E; [|done].
    apply Z.ltb_lt in E.
    intros _. cbn [fst]. unfold step_forward, set_position. cbn.
    replace (current_position c - 1 <? max_position c - 1)%Z with true
      by (symmetry; apply Z.ltb_lt; lia).
    replace (current_position c - 1 + 1)%Z with (current_position c) by lia.
    by rewrite controller_eta.
  - intros Hne.
    assert (0 < length (events c))%nat as Hlen
      by (destruct (events c); [done|simpl; lia]).
    assert (∀ k, max_position (Nat.iter k (λ c, fst (step_forward c)) c) =
                 max_position c) as Hkeep.
    { intros n. induction n as [|n IH]; [done|]. rewrite Nat.iter_succ.
      destruct (navigation_keeps_events (Nat.iter n (λ c, fst (step_forward c)) c) 0)
        as (_ & Hm & _). by rewrite Hm. }
    induction k as [|k IH].
    { change (Nat.iter 0 (λ c, fst (step_forward c)) c) with c. lia. }
    rewrite Nat.iter_succ. unfold step_forward at 1. rewrite (Hkeep k), IH.
    destruct (_ <? _)%Z eqn:E; cbn [fst set_position current_position].
    + apply Z.ltb_lt in E. lia.
    + apply Z.ltb_ge in E. rewrite IH. lia.
Qed.

Lemma step_round_trip_witness :
  step_back (fst (step_forward ReplayExamples.three_event_controller)) =
    (ReplayExamples.three_event_controller,
     (true, get_current_state ReplayExamples.three_event_controller)).
Proof.
  refine (proj1 (step_round_trip ReplayExamples.three_event_controller 0 _) _).
  - split; [reflexivity|]. split; [by_evaluation|]. left. by_evaluation.
  - reflexivity.
Defined.

End CursorFacts.

Section PositionFacts.
Import Replay ReplayContext.

Lemma enumerate_filter_elem {A} (P : Z * A → bool) (l : list A) (i : Z) :
  i ∈ fst <$> List.filter P (enumerate l) ↔
  (0 ≤ i)%Z ∧ ∃ e, l !! Z.to_nat i = Some e ∧ P (i, e) = true.
Proof.
  rewrite list_elem_of_fmap. split.
  - intros ([j e] & -> & Hin). apply list_elem_of_In, List.filter_In in Hin as [Hin HP].
    apply list_elem_of_In, elem_of_lookup_imap in Hin as (k & y & [= -> ->] & Hk).
    cbn [fst]. split; [lia|]. exists y. by rewrite Nat2Z.id.
  - intros (Hi & e & He & HP). exists (i, e). split; [done|].
    apply list_elem_of_In, List.filter_In. split; [|done].
    apply list_elem_of_In, elem_of_lookup_imap.
    exists (Z.to_nat i), e. split; [|done]. f_equal. lia.
Qed.

Lemma enumerate_filter_sorted {A} (P : Z * A → bool) (l : list A) : ∀ n,
  StronglySorted Z.lt
    (fst <$> List.filter P (imap (λ i x, (Z.of_nat (n + i), x)) l)) ∧
  Forall (λ z, Z.of_nat n ≤ z)%Z
    (fst <$> List.filter P (imap (λ i x, (Z.of_nat (n + i), x)) l)).
Proof.
  induction l as [|x l IH]; intros n.
  - split; constructor.
  - rewrite imap_cons.
    rewrite (imap_ext _ (λ i x, (Z.of_nat (S n + i), x))); last first.
    { intros i y _. simpl. do 2 f_equal. lia. }
    destruct (IH (S n)) as [Hs Hlo]. cbn [List.filter].
    assert (Forall (λ z, Z.of_nat n ≤ z)%Z
              (fst <$> List.filter P (imap (λ i x, (Z.of_nat (S n + i), x)) l)))
      as Hlo' by (eapply Forall_impl; [exact Hlo|]; intros z Hz; cbn in Hz; lia).
    destruct (P _); cbn [fmap list_fmap fst].
    + split.
      * constructor; [exact Hs|].
        eapply Forall_impl; [exact Hlo|]. intros z Hz. cbn in Hz. lia.
      * constructor; [lia|exact Hlo'].
    + split; [exact Hs|exact Hlo'].
Qed.

(** X8: [find_decision_points] lists exactly the positions of the events
    whose type is [decision_point], each once and in increasing order. *)
Theorem decision_points_characterised (c : controller) :
  (∀ i, i ∈ find_decision_points c ↔
        (0 ≤ i)%Z ∧
        ∃ e, events c !! Z.to_nat i = Some e ∧
             eq_str (get "event_type" VNone e) "decision_point" = true) ∧
  StronglySorted Z.lt (find_decision_points c).
Proof.
  split.
  - intros i. unfold find_decision_points. by rewrite enumerate_filter_elem.
  - apply (enumerate_filter_sorted _ (events c) 0).
Qed.

Lemma positions_of_elem t (l : list dict) i :
  i ∈ positions_of t l ↔
  (0 ≤ i)%Z ∧ ∃ e, l !! Z.to_nat i = Some e ∧
                   eq_str (get "event_type" (VStr "") e) t = true.
Proof. unfold positions_of. by rewrite enumerate_filter_elem. Qed.

Lemma positions_of_decision_points (c : controller) :
  positions_of "decision_point" (events c) = find_decision_points c.
Proof.
  unfold positions_of, find_decision_points. f_equal.
  apply List.filter_ext. intros [i e]. cbn [snd]. unfold get.
  by destruct (e !! "event_type").
Qed.

Lemma empty_key_events_lookup t :
  empty_key_events !! t = if bool_decide (t ∈ key_event_types) then Some [] else None.
Proof.
  unfold empty_key_events. case_bool_decide as Hin.
  - apply elem_of_list_to_map_1.
    + by_evaluation.
    + apply list_elem_of_fmap. by exists t.
  - apply not_elem_of_list_to_map_1. rewrite <- list_fmap_compose.
    intros Hin'. apply Hin. by rewrite list_fmap_id in Hin'.
Qed.

(** The loop of [find_key_events] over events whose types can be hashed:
    every key of the map keeps its positions and gains those of the events
    of its type; no key is added. *)
Lemma key_events_loop (ies : list (Z * dict)) : ∀ (acc : gmap string (list Z)),
  Forall (λ ie, hashable_type (snd ie) = true) ies →
  ∃ m,
    fold_left (λ acc ie, key_events ← acc; record_key_event key_events ie)
              ies (Ok acc) = Ok m ∧
    ∀ t, m !! t =
         (λ ps, ps ++ (fst <$> List.filter
                         (λ ie, eq_str (get "event_type" (VStr "") (snd ie)) t) ies))
           <$> acc !! t.
Proof.
  induction ies as [|[i e] ies IH]; intros acc Hok.
  - exists acc. split; [done|]. intros t. cbn.
    destruct (acc !! t); cbn; [|done]. by rewrite app_nil_r.
  - apply Forall_cons in Hok as [He Hok]. cbn [snd] in He.
    cbn [fold_left mbind result_bind].
    assert (∃ acc', record_key_event acc (i, e) = Ok acc' ∧
              ∀ t, acc' !! t =
                   (λ ps, ps ++ (if eq_str (get "event_type" (VStr "") e) t
                                 then [i] else [])) <$> acc !! t)
      as (acc' & Hstep & Hacc').
    { unfold record_key_event, hashable_type in *. cbn [snd fst].
      destruct (get "event_type" (VStr "") e) as [| | | |t0| |] eqn:Ety;
        try discriminate;
        try (exists acc; split; [done|]; intros t; cbn;
             destruct (acc !! t); cbn; [by rewrite app_nil_r|done]).
      destruct (acc !! t0) as [ps|] eqn:Ht0.
      - eexists. split; [reflexivity|]. intros t. cbn [eq_str].
        destruct (String.eqb_spec t0 t) as [->|Hne].
        + by rewrite lookup_insert_eq, Ht0.
        + rewrite lookup_insert_ne by done.
          destruct (acc !! t); cbn; [by rewrite app_nil_r|done].
      - exists acc. split; [done|]. intros t. cbn [eq_str].
        destruct (String.eqb_spec t0 t) as [->|Hne].
        + by rewrite Ht0.
        + destruct (acc !! t); cbn; [by rewrite app_nil_r|done]. }
    rewrite Hstep. destruct (IH acc' Hok) as (m & Hm & Hlook).
    exists m. split; [exact Hm|]. intros t. rewrite Hlook, Hacc'.
    cbn [List.filter snd].
    destruct (acc !! t) as [ps|]; cbn; [|done].
    destruct (eq_str _ t); cbn; by rewrite <- app_assoc.
Qed.

Lemma key_events_loop_raises (ies : list (Z * dict)) :
  fold_left (λ acc ie, key_events ← acc; record_key_event key_events ie)
            ies (Raise TypeError) = Raise TypeError.
Proof. by induction ies. Qed.

Lemma key_events_loop_unhashable (ies : list (Z * dict)) :
  ∀ (acc : gmap string (list Z)),
  Exists (λ ie, hashable_type (snd ie) = false) ies →
  fold_left (λ acc ie, key_events ← acc; record_key_event key_events ie)
            ies (Ok acc) = Raise TypeError.
Proof.
  induction ies as [|[i e] ies IH]; intros acc Hex; [by inversion Hex|].
  cbn [fold_left mbind result_bind].
  destruct (hashable_type e) eqn:He.
  - apply Exists_cons in Hex as [Hex|Hex]; [cbn in Hex; congruence|].
    destruct (key_events_loop [(i, e)] acc) as (m & Hm & _).
    { by constructor. }
    cbn [fold_left mbind result_bind] in Hm. rewrite Hm. by apply IH.
  - assert (record_key_event acc (i, e) = Raise TypeError) as ->.
    { unfold record_key_event, hashable_type in *. cbn [snd].
      by destruct (get "event_type" (VStr "") e). }
    apply key_events_loop_raises.
Qed.

Lemma find_key_events_hashable (c : controller) :
  Forall (λ e, hashable_type e = true) (events c) →
  ∃ m, find_key_events c = Ok m ∧
       (∀ t, t ∈ key_event_types → m !! t = Some (positions_of t (events c))) ∧
       (∀ t, t ∉ key_event_types → m !! t = None) ∧
       m !! "decision_point" = Some (find_decision_points c).
Proof.
  intros Hok. unfold find_key_events.
  destruct (key_events_loop (enumerate (events c)) empty_key_events)
    as (m & Hm & Hlook).
  { apply Forall_forall. intros [i e] Hin.
    apply elem_of_lookup_imap in Hin as (k & y & [= -> ->] & Hk).
    rewrite Forall_forall in Hok. apply Hok. by eapply list_elem_of_lookup_2. }
  exists m. split; [exact Hm|].
  assert (∀ t, t ∈ key_event_types → m !! t = Some (positions_of t (events c)))
    as Hin.
  { intros t Ht. rewrite Hlook, empty_key_events_lookup.
    by rewrite bool_decide_eq_true_2. }
  split; [exact Hin|]. split.
  - intros t Ht. rewrite Hlook, empty_key_events_lookup.
    by rewrite bool_decide_eq_false_2.
  - rewrite <- positions_of_decision_points. apply Hin. by_evaluation.
Qed.

Lemma find_key_events_unhashable (c : controller) :
  Exists (λ e, hashable_type e = false) (events c) →
  find_key_events c = Raise TypeError.
Proof.
  intros Hex. unfold find_key_events. apply key_events_loop_unhashable.
  apply Exists_exists in Hex as (e & Hin & He).
  apply list_elem_of_lookup in Hin as [k Hk].
  apply Exists_exists. exists (Z.of_nat k, e). split; [|done].
  by apply (elem_of_lookup_imap_2 (λ i x, (Z.of_nat i, x))).
Qed.

Lemma hashable_cases (l : list dict) :
  Forall (λ e, hashable_type e = true) l ∨
  Exists (λ e, hashable_type e = false) l.
Proof.
  induction l as [|e l [IH|IH]].
  - left. constructor.
  - destruct (hashable_type e) eqn:He.
    + left. by constructor.
    + right. by constructor.
  - right. by constructor 2.
Qed.

(** X9: [find_key_events] on events whose types can be hashed returns a map
    with the five key event types as keys, and no other; each type has the
    positions of its events, in increasing order, and the entry of
    [decision_point] is what [find_decision_points] returns. When the type
    of some event is a list or a dictionary, it raises [TypeError]. *)
Theorem key_events_characterised (c : controller) :
  (Forall (λ e, hashable_type e = true) (events c) →
     ∃ m, find_key_events c = Ok m ∧
          (∀ t, t ∈ key_event_types → m !! t = Some (positions_of t (events c))) ∧
          (∀ t, t ∉ key_event_types → m !! t = None) ∧
          m !! "decision_point" = Some (find_decision_points c)) ∧
  (Exists (λ e, hashable_type e = false) (events c) →
     find_key_events c = Raise TypeError).
Proof.
  split; [apply find_key_events_hashable|apply find_key_events_unhashable].
Qed.

Lemma key_events_characterised_witness :
  ∃ m, find_key_events ReplayExamples.three_event_controller = Ok m ∧
       (∀ t, t ∈ key_event_types →
             m !! t = Some (positions_of t
                              (events ReplayExamples.three_event_controller))) ∧
       (∀ t, t ∉ key_event_types → m !! t = None) ∧
       m !! "decision_point" =
         Some (find_decision_points ReplayExamples.three_event_controller).
Proof.
  refine (proj1 (key_events_characterised ReplayExamples.three_event_controller) _).
  by_evaluation.
Defined.

End PositionFacts.

Section DecisionContext.
Import Replay ReplayContext.

Lemma decision_context_in_range (c : controller) (position : Z) (e : dict) :
  (0 ≤ position)%Z →
  events c !! Z.to_nat position = Some e →
  get_decision_context c position =
    d ← type_details e;
    Ok (Some (Context position e
                (get "event_type" (VStr "") e) (get "timestamp" (VStr "") e)
                (slice (Z.max 0 (position - 5)) position (events c))
                (slice (position + 1)
                       (Z.min (position + 6) (Z.of_nat (length (events c))))
                       (events c))
                d)).
Proof.
  intros Hpos He. unfold get_decision_context.
  pose proof (lookup_lt_Some _ _ _ He) as Hlt.
  replace (position <? 0)%Z with false by (symmetry; apply Z.ltb_ge; lia).
  replace (Z.of_nat (length (events c)) <=? position)%Z with false
    by (symmetry; apply Z.leb_gt; lia).
  cbn [orb]. by rewrite He.
Qed.

Lemma window_before {A} (l : list A) (k : nat) :
  take (k - 5) l ++ drop (k - 5) (take k l) = take k l.
Proof.
  transitivity (take (k - 5) (take k l) ++ drop (k - 5) (take k l)).
  - f_equal. rewrite take_take. f_equal. lia.
  - apply take_drop.
Qed.

Lemma window_after {A} (l : list A) (k : nat) :
  k < length l →
  drop (S k) (take (Nat.min (k + 6) (length l)) l)
    ++ drop (Nat.min (k + 6) (length l)) l = drop (S k) l.
Proof.
  intros Hk. set (m := Nat.min (k + 6) (length l)).
  transitivity (drop (S k) (take m l ++ drop m l)).
  - rewrite drop_app_le; [done|]. rewrite length_take. lia.
  - by rewrite take_drop.
Qed.

(** X10: [get_decision_context] returns the empty dictionary exactly for a
    position outside the events. For a position inside them, a returned
    context holds the event at that position, the events just before it
    (five of them, or all when there are fewer) and the events just after it
    (five, or all that are left), in stored order: the events of the
    controller are those before the window, the window, and those after
    it. *)
Theorem decision_context_window (c : controller) (position : Z) :
  (get_decision_context c position = Ok None ↔
     (position < 0 ∨ Z.of_nat (length (events c)) ≤ position)%Z) ∧
  (∀ ctx, get_decision_context c position = Ok (Some ctx) →
     (0 ≤ position < Z.of_nat (length (events c)))%Z ∧
     context_position ctx = position ∧
     events c !! Z.to_nat position = Some (context_event ctx) ∧
     length (previous_context ctx) = Nat.min 5 (Z.to_nat position) ∧
     length (subsequent_impact ctx) =
       Nat.min 5 (length (events c) - 1 - Z.to_nat position) ∧
     events c =
       take (Z.to_nat position - 5) (events c)
         ++ previous_context ctx ++ [context_event ctx] ++ subsequent_impact ctx
         ++ drop (Z.to_nat position + 6) (events c)).
Proof.
  destruct (decide (position < 0 ∨ Z.of_nat (length (events c)) ≤ position)%Z)
    as [Hout|Hin].
  - assert (get_decision_context c position = Ok None) as Hnone.
    { unfold get_decision_context.
      destruct Hout as [Hneg|Hbig].
      - by replace (position <? 0)%Z with true by (symmetry; apply Z.ltb_lt; lia).
      - replace (Z.of_nat (length (events c)) <=? position)%Z with true
          by (symmetry; apply Z.leb_le; lia).
        by rewrite orb_true_r. }
    split; [done|]. intros ctx Hctx. congruence.
  - assert (0 ≤ position < Z.of_nat (length (events c)))%Z as Hrange by lia.
    destruct (lookup_lt_is_Some_2 (events c) (Z.to_nat position)) as [e He];
      [lia|].
    rewrite (decision_context_in_range c position e) by (done || lia).
    split.
    + split; [|tauto]. destruct (type_details e); discriminate.
    + intros ctx Hctx. destruct (type_details e) as [d|]; [|discriminate].
      cbn in Hctx. injection Hctx as <-.
      cbn [context_position context_event previous_context subsequent_impact].
      split; [done|]. split; [done|]. split; [done|].
      unfold slice.
      replace (Z.to_nat (Z.max 0 (position - 5))) with (Z.to_nat position - 5)
        by lia.
      replace (Z.to_nat (position + 1)) with (S (Z.to_nat position)) by lia.
      replace (Z.to_nat (Z.min (position + 6) (Z.of_nat (length (events c)))))
        with (Nat.min (Z.to_nat position + 6) (length (events c))) by lia.
      split; [rewrite length_drop, length_take; lia|].
      split; [rewrite length_drop, length_take; lia|].
      set (k := Z.to_nat position) in *.
      assert (k < length (events c)) as Hk by lia.
      assert (drop (k + 6) (events c)
              = drop (Nat.min (k + 6) (length (events c))) (events c)) as ->.
      { destruct (decide (k + 6 ≤ length (events c))%nat) as [Hle|Hgt].
        - by rewrite Nat.min_l.
        - rewrite Nat.min_r by lia. by rewrite !drop_ge by lia. }
      rewrite (app_assoc (take _ _)), window_before.
      cbn [app]. rewrite window_after by done.
      rewrite <- (take_drop_middle _ _ _ He) at 1. done.
Qed.

Lemma decision_context_window_witness :
  (0 ≤ 1 < Z.of_nat (length (events ReplayExamples.three_event_controller)))%Z ∧
  context_position
    (Context 1 ReplayExamples.stored_generation
       (VStr "tasks_generated") (VStr StoreExamples.t1)
       [ReplayExamples.stored_analysis] [ReplayExamples.stored_task]
       (Some (GenerationDetails (VInt 0) (VStr "") (VInt 0)))) = 1%Z.
Proof.
  refine (let H := proj2 (decision_context_window
                            ReplayExamples.three_event_controller 1) _ _ in
          conj (proj1 H) (proj1 (proj2 H))).
  evaluate.
Defined.

(** X11: what can make [get_decision_context] raise at a position inside
    the events. An event that is none of [decision_point],
    [ai_prd_analysis] and [tasks_generated] always gives a context, with no
    details entry. An event of one of these three types whose [data] is not
    a dictionary raises [AttributeError]; with a dictionary (or no [data])
    only [ai_prd_analysis] can raise, [TypeError] from [len], and it does
    so exactly when [extracted_requirements] is not a string, a list or a
    dictionary. *)
Theorem decision_context_errors (c : controller) (position : Z) (e : dict) :
  (0 ≤ position)%Z →
  events c !! Z.to_nat position = Some e →
  let known t := eq_str (get "event_type" VNone e) t in
  let payload := get "data" (VDict ∅) e in
  (known "decision_point" = false → known "ai_prd_analysis" = false →
   known "tasks_generated" = false →
     ∃ ctx, get_decision_context c position = Ok (Some ctx) ∧
            context_details ctx = None) ∧
  (known "decision_point" || known "ai_prd_analysis" || known "tasks_generated"
     = true →
   (∀ d, payload ≠ VDict d) →
     get_decision_context c position = Raise AttributeError) ∧
  (∀ d, payload = VDict d →
     known "decision_point" || known "tasks_generated" = true →
     ∃ ctx details, get_decision_context c position = Ok (Some ctx) ∧
                    context_details ctx = Some details) ∧
  (∀ d, payload = VDict d → known "ai_prd_analysis" = true →
     match py_len (get "extracted_requirements" (VList []) d) with
     | Ok n =>
         ∃ ctx confidence ambiguities,
           get_decision_context c position = Ok (Some ctx) ∧
           context_details ctx = Some (AnalysisDetails n confidence ambiguities)
     | Raise err => get_decision_context c position = Raise err ∧ err = TypeError
     end).
Proof.
  intros Hpos He known payload.
  rewrite (decision_context_in_range c position e Hpos He).
  unfold type_details. fold (known "decision_point") (known "ai_prd_analysis")
    (known "tasks_generated").
  assert (∀ key default d, payload = VDict d →
            data_get key default e = Ok (get key default d)) as Hget.
  { intros key default d Hd. unfold data_get. fold payload. by rewrite Hd. }
  assert (∀ key default, (∀ d, payload ≠ VDict d) →
            data_get key default e = Raise AttributeError) as Hbad.
  { intros key default Hd. unfold data_get. fold payload.
    destruct payload; try done. by destruct (Hd d). }
  assert (known "decision_point" = true → known "ai_prd_analysis" = false)
    as Hexcl.
  { unfold known. destruct (get "event_type" VNone e); try done. cbn.
    intros ->%String.eqb_eq. done. }
  repeat split.
  - intros -> -> ->. eexists. split; [reflexivity|done].
  - intros Hknown Hd.
    rewrite !Hbad by exact Hd.
    destruct (known "decision_point"); [done|].
    destruct (known "ai_prd_analysis"); [done|].
    destruct (known "tasks_generated"); [done|discriminate].
  - intros d Hd Hknown.
    destruct (known "decision_point") eqn:Hdp.
    + rewrite !(Hget _ _ d Hd). do 2 eexists. split; reflexivity.
    + destruct (known "ai_prd_analysis") eqn:Hai.
      * exfalso. cbn in Hknown. unfold known in *.
        destruct (get "event_type" VNone e); try done. cbn in *.
        apply String.eqb_eq in Hai, Hknown. congruence.
      * cbn in Hknown. rewrite Hknown, !(Hget _ _ d Hd).
        do 2 eexists. split; reflexivity.
  - intros d Hd Hai.
    assert (known "decision_point" = false) as ->.
    { destruct (known "decision_point"); [|done]. by rewrite Hexcl in Hai. }
    rewrite Hai, !(Hget _ _ d Hd). cbn [mbind result_bind].
    destruct (py_len _) as [n|err] eqn:Hlen.
    + cbn [mbind result_bind]. do 3 eexists. split; reflexivity.
    + split; [done|].
      unfold py_len in Hlen. destruct (get "extracted_requirements" _ d); congruence.
Qed.

Lemma decision_context_errors_witness :
  ∃ ctx details,
    get_decision_context ReplayExamples.three_event_controller 1
      = Ok (Some ctx) ∧
    context_details ctx = Some details.
Proof.
  refine (proj1 (proj2 (proj2 (decision_context_errors
            ReplayExamples.three_event_controller 1
            ReplayExamples.stored_generation _ _)))
          ∅ _ _).
  - lia.
  - evaluate.
  - evaluate.
  - evaluate.
Defined.

End DecisionContext.

Section TimelineShape.
Import Replay ReplayContext Timeline ReplayExport.

Variable datetime : Type.
Variable fromisoformat : string → option datetime.
Variable elapsed_ms : datetime → datetime → result Z.
Variable _get_event_summary : dict → result string.

Abbreviation event_time := (Timeline.event_time datetime fromisoformat).
Abbreviation later_entries :=
  (Timeline.later_entries datetime fromisoformat elapsed_ms _get_event_summary).
Abbreviation get_timeline_data :=
  (Timeline.get_timeline_data datetime fromisoformat elapsed_ms _get_event_summary).
Abbreviation export_replay_data :=
  (ReplayExport.export_replay_data datetime fromisoformat elapsed_ms
     _get_event_summary).

Abbreviation entry_of := (ReplayExport.entry_of _get_event_summary).

Lemma timeline_entry_ok i e ms en :
  timeline_entry _get_event_summary i e ms = Ok en →
  position en = i ∧ relative_ms en = ms ∧ entry_of e en.
Proof.
  unfold timeline_entry, entry_of. destruct (_get_event_summary e); [|done].
  cbn. by intros [= <-].
Qed.

Lemma event_time_ok e t :
  event_time e = Ok t →
  ∃ s, get "timestamp" (VStr "") e = VStr s ∧ fromisoformat s = Some t.
Proof.
  unfold Timeline.event_time. destruct (get "timestamp" (VStr "") e); try done.
  destruct (fromisoformat s) eqn:Hs; [|done]. intros [= <-]. by exists s.
Qed.

Lemma later_entries_shape start evs : ∀ i tl,
  later_entries start i evs = Ok tl →
  length tl = length evs ∧
  ∀ k en, tl !! k = Some en →
    position en = (i + Z.of_nat k)%Z ∧
    ∃ e t, evs !! k = Some e ∧ entry_of e en ∧ event_time e = Ok t ∧
           elapsed_ms t start = Ok (relative_ms en).
Proof.
  induction evs as [|e evs IH]; intros i tl; cbn.
  - intros [= <-]. split; [done|]. intros k en Hk. by rewrite lookup_nil in Hk.
  - destruct (Timeline.event_time _ _ e) as [t|] eqn:Ht; [|done]. cbn.
    destruct (elapsed_ms t start) as [ms|] eqn:Hms; [|done]. cbn.
    destruct (timeline_entry _ i e ms) as [en0|] eqn:Hen; [|done]. cbn.
    destruct (Timeline.later_entries _ _ _ _ start (i + 1) evs) as [es|] eqn:Hes;
      [|done].
    cbn. intros [= <-]. destruct (IH _ _ Hes) as [Hlen Hes'].
    apply timeline_entry_ok in Hen as (Hpos & Hrel & Hof).
    split; [cbn; by rewrite Hlen|].
    intros [|k] en Hk; cbn in Hk.
    + injection Hk as <-. split; [lia|]. exists e, t. by rewrite Hrel.
    + destruct (Hes' k en Hk) as (Hp & e' & t' & He' & Hof' & Ht' & Hms').
      split; [lia|]. by exists e', t'.
Qed.

Lemma get_timeline_data_entries (evs : list dict) (tl : list entry) :
  get_timeline_data evs = Ok tl →
  length tl = length evs ∧
  ∀ k en, tl !! k = Some en →
    position en = Z.of_nat k ∧
    ∃ e s t,
      evs !! k = Some e ∧ entry_of e en ∧
      timestamp en = VStr s ∧ fromisoformat s = Some t ∧
      match k with
      | O => relative_ms en = 0%Z
      | S _ => ∃ first start, head evs = Some first ∧
                              event_time first = Ok start ∧
                              elapsed_ms t start = Ok (relative_ms en)
      end.
Proof.
  destruct evs as [|e evs]; cbn.
  - intros [= <-]. split; [done|]. intros k en Hk. by rewrite lookup_nil in Hk.
  - destruct (Timeline.event_time _ _ e) as [t0|] eqn:Ht0; [|done]. cbn.
    destruct (timeline_entry _ 0 e 0) as [en0|] eqn:Hen; [|done]. cbn.
    destruct (Timeline.later_entries _ _ _ _ t0 1 evs) as [es|] eqn:Hes; [|done].
    cbn. intros [= <-].
    destruct (later_entries_shape _ _ _ _ Hes) as [Hlen Hes'].
    apply timeline_entry_ok in Hen as (Hpos & Hrel & Hof).
    split; [cbn; by rewrite Hlen|].
    intros [|k] en Hk; cbn in Hk.
    + injection Hk as <-. split; [done|].
      destruct (event_time_ok _ _ Ht0) as (s & Hs & Hparse).
      exists e, s, t0. repeat split; try apply Hof; try done.
      destruct Hof as [-> _]. done.
    + destruct (Hes' k en Hk) as (Hp & e' & t' & He' & Hof' & Ht' & Hms').
      split; [lia|].
      destruct (event_time_ok _ _ Ht') as (s & Hs & Hparse).
      exists e', s, t'. repeat split; try apply Hof'; try done.
      * destruct Hof' as [-> _]. done.
      * by exists e, t0.
Qed.

(** X12: a timeline [get_timeline_data] returns has one entry per event, in
    the order of the events and numbered from 0. The entry of an event
    carries the event's timestamp, which is a string that
    [datetime.fromisoformat] accepted, its type, stage and status; the
    first entry has relative time 0 and every later one the time elapsed
    since the first event. *)
Theorem timeline_one_entry_per_event (evs : list dict) (tl : list entry) :
  get_timeline_data evs = Ok tl →
  length tl = length evs ∧
  ∀ k en, tl !! k = Some en →
    position en = Z.of_nat k ∧
    ∃ e s t,
      evs !! k = Some e ∧ entry_of e en ∧
      timestamp en = VStr s ∧ fromisoformat s = Some t ∧
      match k with
      | O => relative_ms en = 0%Z
      | S _ => ∃ first start, head evs = Some first ∧
                              event_time first = Ok start ∧
                              elapsed_ms t start = Ok (relative_ms en)
      end.
Proof. apply get_timeline_data_entries. Qed.

Lemma find_key_events_decision_points (c : controller) m :
  find_key_events c = Ok m →
  m !! "decision_point" = Some (find_decision_points c).
Proof.
  intros Hm. destruct (hashable_cases (events c)) as [Hall|Hex].
  - destruct (find_key_events_hashable c Hall) as (m' & Hm' & _ & _ & Hdp).
    congruence.
  - rewrite (find_key_events_unhashable c Hex) in Hm. done.
Qed.

(** X13: the bundle [export_replay_data] returns is consistent: its
    [total_events] counts the exported events and the entries of its
    timeline, its [decision_points] are the [decision_point] entry of its
    [key_events], and (as [datetime.fromisoformat] refuses the empty text)
    its [start_time] and [end_time] are the timestamps of the first and of
    the last timeline entry, [None] for a flow with no event. *)
Theorem export_bundle_consistent (c : controller) (b : bundle) :
  fromisoformat "" = None →
  export_replay_data c = Ok b →
  export_flow_id b = flow_id c ∧
  exported_events b = events c ∧
  total_events b = length (exported_events b) ∧
  total_events b = length (timeline b) ∧
  key_events b !! "decision_point" = Some (decision_points b) ∧
  start_time b = default VNone (timestamp <$> head (timeline b)) ∧
  end_time b = default VNone (timestamp <$> last (timeline b)).
Proof.
  intros Hempty. unfold ReplayExport.export_replay_data.
  destruct (Timeline.get_timeline_data _ _ _ _ (events c)) as [tl|] eqn:Htl;
    [|done].
  cbn. destruct (find_key_events c) as [ke|] eqn:Hke; [|done]. cbn.
  match goal with |- context [mbind _ ?r] => destruct r as [duration|]; [|done] end.
  cbn [mbind result_bind]. intros [= <-].
  cbn [export_flow_id exported_events total_events timeline key_events
       decision_points start_time end_time].
  destruct (get_timeline_data_entries _ _ Htl) as [Hlen Hentries].
  assert (∀ k, timestamp <$> tl !! k = get "timestamp" VNone <$> events c !! k)
    as Hstamp.
  { intros k. destruct (tl !! k) as [en|] eqn:Hk.
    - destruct (Hentries k en Hk) as (_ & e & s & t & He & Hof & Hs & Hparse & _).
      rewrite He. cbn. f_equal. destruct Hof as [Hts _]. rewrite Hs in Hts.
      unfold get in *. destruct (e !! "timestamp"); [congruence|].
      injection Hts as ->. congruence.
    - apply lookup_ge_None in Hk.
      by rewrite (proj2 (lookup_ge_None (events c) k)) by lia. }
  repeat split; try done.
  - by apply find_key_events_decision_points.
  - rewrite !head_lookup, Hstamp.
    unfold timestamp_or_none. by destruct (events c !! 0).
  - rewrite !last_lookup, Hlen, Hstamp.
    unfold timestamp_or_none. by destruct (events c !! _).
Qed.

(** The cases of [export_replay_data], for any summary function. *)
Lemma export_replay_data_cases (c : controller) :
  match get_timeline_data (events c) with
  | Raise err => export_replay_data c = Raise err
  | Ok tl =>
      if negb (forallb hashable_type (events c))
      then export_replay_data c = Raise TypeError
      else match last (events c) with
           | Some e =>
               match get "data" (VDict ∅) e with
               | VDict d =>
                   ∃ b, export_replay_data c = Ok b ∧ timeline b = tl ∧
                        total_duration_ms b = get "total_duration_ms" (VInt 0) d
               | _ => export_replay_data c = Raise AttributeError
               end
           | None => ∃ b, export_replay_data c = Ok b ∧ timeline b = tl ∧
                          total_duration_ms b = VInt 0
           end
  end.
Proof.
  unfold ReplayExport.export_replay_data.
  destruct (Timeline.get_timeline_data _ _ _ _ (events c)) as [tl|err]; [|done].
  cbn [mbind result_bind].
  destruct (hashable_cases (events c)) as [Hall|Hex].
  - assert (forallb hashable_type (events c) = true) as ->.
    { apply forallb_forall. intros e He. rewrite Forall_forall in Hall.
      by apply Hall, list_elem_of_In. }
    cbn [negb].
    destruct (find_key_events_hashable c Hall) as (m & -> & _).
    cbn [mbind result_bind]. destruct (last (events c)) as [e|].
    + unfold data_get. destruct (get "data" (VDict ∅) e); try done.
      eexists. split; [reflexivity|done].
    + eexists. split; [reflexivity|done].
  - assert (forallb hashable_type (events c) = false) as ->.
    { apply not_true_is_false. intros Hall.
      apply Exists_exists in Hex as (e & Hin & He).
      rewrite forallb_forall in Hall.
      apply list_elem_of_In, Hall in Hin. congruence. }
    cbn [negb]. by rewrite (find_key_events_unhashable c Hex).
Qed.

End TimelineShape.

Lemma timeline_one_entry_per_event_witness :
  length ReplayExportExamples.sample_timeline
    = length (Replay.events ReplayExamples.three_event_controller).
Proof.
  refine (proj1 (timeline_one_entry_per_event
                   IsoFormat.datetime IsoFormat.fromisoformat
                   ReplayExportExamples.elapsed_ms
                   ReplayExportExamples.type_as_summary
                   (Replay.events ReplayExamples.three_event_controller)
                   ReplayExportExamples.sample_timeline _)).
  evaluate.
Defined.

Lemma export_bundle_consistent_witness :
  ReplayExport.key_events ReplayExportExamples.sample_bundle !! "decision_point"
    = Some (ReplayExport.decision_points ReplayExportExamples.sample_bundle).
Proof.
  refine (proj1 (proj2 (proj2 (proj2 (proj2
            (export_bundle_consistent
               IsoFormat.datetime IsoFormat.fromisoformat
               ReplayExportExamples.elapsed_ms
               ReplayExportExamples.type_as_summary
               ReplayExamples.three_event_controller
               ReplayExportExamples.sample_bundle _ _)))))).
  - evaluate.
  - evaluate.
Defined.

(** ** The export with the summary of the code *)

Section ExportOrder.
Import Replay ReplayContext Timeline ReplayExport.

Variable datetime : Type.
Variable fromisoformat : string → option datetime.
Variable elapsed_ms : datetime → datetime → result Z.
Variable str_of : value → string.
Variable first_50 : value → result value.
Variable percent : value → result string.
Variable title : string → string.

Abbreviation summary_of :=
  (Summary._get_event_summary str_of first_50 percent title).
Abbreviation timeline_of :=
  (Timeline.get_timeline_data datetime fromisoformat elapsed_ms summary_of).
Abbreviation export_of :=
  (ReplayExport.export_replay_data datetime fromisoformat elapsed_ms summary_of).

(** [_get_event_summary] returns only for an event whose type is a string:
    on any other type no branch is taken and [event_type.replace] raises
    [AttributeError]. *)
Lemma summary_needs_string_type (e : dict) :
  (∀ t, get "event_type" (VStr "") e ≠ VStr t) →
  summary_of e = Raise AttributeError.
Proof.
  intros Ht. unfold Summary._get_event_summary.
  destruct (get "event_type" (VStr "") e); try done. by destruct (Ht s).
Qed.

Lemma string_type_hashable (e : dict) t :
  get "event_type" (VStr "") e = VStr t → hashable_type e = true.
Proof. intros H. unfold hashable_type. by rewrite H. Qed.

Lemma string_type_cases (e : dict) :
  (∃ t, get "event_type" (VStr "") e = VStr t) ∨
  (∀ t, get "event_type" (VStr "") e ≠ VStr t).
Proof. destruct (get "event_type" (VStr "") e); eauto. Qed.

Lemma timeline_needs_string_types (evs : list dict) tl :
  timeline_of evs = Ok tl →
  Forall (λ e, ∃ t, get "event_type" (VStr "") e = VStr t) evs.
Proof.
  intros Htl.
  destruct (get_timeline_data_entries _ _ _ _ _ _ Htl) as [Hlen Hentries].
  apply Forall_lookup. intros k e He.
  destruct (lookup_lt_is_Some_2 tl k) as [en Hen].
  { rewrite Hlen. by eapply lookup_lt_Some. }
  destruct (Hentries k en Hen) as (_ & e' & s & t & He' & Hof & _).
  assert (e' = e) as -> by congruence.
  destruct Hof as (_ & _ & _ & _ & Hsum).
  destruct (string_type_cases e) as [?|Hno]; [done|].
  rewrite (summary_needs_string_type e Hno) in Hsum. done.
Qed.

(** X14: the order in which [export_replay_data] fails. An exception of
    [get_timeline_data] escapes as it is, and an event whose type is not a
    string always raises one there, in [_get_event_summary]: the
    [TypeError] of [find_key_events] on a type that cannot be hashed is
    never reached. When the timeline is built, every event type is a
    string and [find_key_events] returns; then a last event whose [data] is
    not a dictionary raises [AttributeError], and otherwise a bundle is
    returned. *)
Theorem export_failure_order (c : controller) :
  match timeline_of (events c) with
  | Raise err => export_of c = Raise err
  | Ok tl =>
      Forall (λ e, ∃ t, get "event_type" (VStr "") e = VStr t) (events c) ∧
      (∃ key_events, find_key_events c = Ok key_events) ∧
      match last (events c) with
      | Some e =>
          match get "data" (VDict ∅) e with
          | VDict d =>
              ∃ b, export_of c = Ok b ∧ timeline b = tl ∧
                   total_duration_ms b = get "total_duration_ms" (VInt 0) d
          | _ => export_of c = Raise AttributeError
          end
      | None => ∃ b, export_of c = Ok b ∧ timeline b = tl ∧
                     total_duration_ms b = VInt 0
      end
  end ∧
  (Exists (λ e, ∀ t, get "event_type" (VStr "") e ≠ VStr t) (events c) →
   ∃ err, timeline_of (events c) = Raise err ∧ export_of c = Raise err).
Proof.
  pose proof (export_replay_data_cases datetime fromisoformat elapsed_ms
                summary_of c) as Hcases.
  pose proof (timeline_needs_string_types (events c)) as Htypes.
  destruct (timeline_of (events c)) as [tl|err] eqn:Htl.
  - specialize (Htypes tl eq_refl).
    assert (Forall (λ e, hashable_type e = true) (events c)) as Hhash.
    { eapply Forall_impl; [exact Htypes|]. intros e [t Ht].
      by eapply string_type_hashable. }
    assert (forallb hashable_type (events c) = true) as Hall.
    { apply forallb_forall. intros e He. rewrite Forall_forall in Hhash.
      by apply Hhash, list_elem_of_In. }
    rewrite Hall in Hcases. cbn [negb] in Hcases.
    split.
    + split; [done|]. split; [|done].
      destruct (find_key_events_hashable c Hhash) as (m & Hm & _). by exists m.
    + intros Hex. apply Exists_exists in Hex as (e & Hin & Hno).
      rewrite Forall_forall in Htypes. destruct (Htypes e Hin) as [t Ht].
      by destruct (Hno t).
  - split; [done|]. intros _. by exists err.
Qed.

End ExportOrder.

(** An event whose type is a list: the export fails in the summary, whatever
    [str()], the slice, the formatting and [title] do. *)
Lemma export_list_type_raises str_of first_50 percent title :
  ReplayExport.export_replay_data IsoFormat.datetime IsoFormat.fromisoformat
    ReplayExportExamples.elapsed_ms
    (Summary._get_event_summary str_of first_50 percent title)
    ReplayExportExamples.list_typed_controller
  = Raise AttributeError.
Proof. evaluate. Qed.

(** ** More on the log tailer *)

Section TailerMore.
Import Tailer Watcher.

Context {datetime : Type} (fromisoformat : string → option datetime).
Context (path_str : string → string).

Abbreviation parse_entry := (_parse_log_entry datetime fromisoformat).
Abbreviation process_line := (_process_log_line datetime fromisoformat).
Abbreviation process_all := (process_lines datetime fromisoformat).
Abbreviation process_file := (_process_log_file datetime fromisoformat).
Abbreviation process_queue := (_process_queue datetime fromisoformat path_str).

(** One turn of the loop on a decoded line. *)
Lemma process_lines_json (p : processor datetime) v rest clock :
  process_all p (Json v :: rest) clock =
    match parse_entry p v (clock (_event_counter p)) with
    | (q, Ok (Some ev)) =>
        let '(p', events, finished) := process_all (remember q ev) rest clock in
        (p', ev :: events, finished)
    | (q, Ok None) => process_all q rest clock
    | (q, Raise _) => (q, [], false)
    end.
Proof.
  cbn [process_lines _process_log_line].
  destruct (parse_entry p v _) as [q [[ev|]|err]]; try done.
  by destruct (process_all q rest clock) as [[p' events] finished].
Qed.

Lemma process_lines_skip (p : processor datetime) l rest clock :
  is_json l = false →
  process_all p (l :: rest) clock = process_all p rest clock.
Proof.
  destruct l; try done. intros _. cbn [process_lines _process_log_line].
  by destruct (process_all p rest clock) as [[p' events] finished].
Qed.

Lemma parse_entry_bump (p : processor datetime) v now :
  (parse_entry p v now).1 = bump p.
Proof. done. Qed.

Lemma keep_latest_snoc {A} (m : nat) (all : list A) (e : A) :
  (let h := drop (length all - m) all ++ [e] in
   if (m <? length h)%nat then drop 1 h else h)
  = drop (length (all ++ [e]) - m) (all ++ [e]).
Proof.
  cbn zeta. rewrite !length_app, length_drop. cbn [length].
  destruct (decide (length all ≤ m)%nat) as [Hle|Hgt].
  - replace (length all - m)%nat with 0%nat by lia. cbn [drop].
    destruct (Nat.ltb_spec m (length all - 0 + 1)).
    + by replace (length all + 1 - m)%nat with 1%nat by lia.
    + by replace (length all + 1 - m)%nat with 0%nat by lia.
  - destruct (Nat.ltb_spec m (length all - (length all - m) + 1)); [|lia].
    rewrite <- (drop_app_le all [e]) by lia.
    rewrite drop_drop. f_equal. lia.
Qed.

Lemma history_invariant lines : ∀ (p : processor datetime) all clock p' evs fin,
  conversation_history p = drop (length all - max_history_size p) all →
  process_all p lines clock = (p', evs, fin) →
  max_history_size p' = max_history_size p ∧
  conversation_history p' =
    drop (length (all ++ evs) - max_history_size p) (all ++ evs).
Proof.
  induction lines as [|l lines IH]; intros p all clock p' evs fin Hh.
  - intros [= <- <- <-]. by rewrite app_nil_r.
  - destruct l as [| |v].
    + rewrite process_lines_skip by done. by apply IH.
    + rewrite process_lines_skip by done. by apply IH.
    + rewrite process_lines_json.
      destruct (parse_entry p v _) as [q r] eqn:Hq.
      assert (q = bump p) as -> by (by rewrite <- (parse_entry_bump p v
                                       (clock (_event_counter p))), Hq).
      destruct r as [[ev|]|err].
      * destruct (process_all (remember (bump p) ev) lines clock)
          as [[p1 evs1] fin1] eqn:Hrest.
        intros [= <- <- <-].
        destruct (IH (remember (bump p) ev) (all ++ [ev]) clock p1 evs1 fin1)
          as [Hmax Hhist]; [|done|].
        { cbn [remember conversation_history max_history_size bump].
          rewrite Hh. apply keep_latest_snoc. }
        split; [done|]. rewrite Hhist. cbn [remember max_history_size bump].
        by rewrite <- app_assoc.
      * intros Hrest. by apply (IH (bump p) all clock p' evs fin).
      * intros [= <- <- <-]. by rewrite app_nil_r.
Qed.

(** X15: the history keeps the latest events. From a history within its
    bound, after any lines are processed the history is what it was followed
    by the events handed to the handlers, cut at the front to the last
    [max_history_size] of them; the bound itself never changes. *)
Theorem history_keeps_latest (p : processor datetime) (lines : list line)
  (clock : nat → string) :
  (length (conversation_history p) ≤ max_history_size p)%nat →
  let '(p', evs, _) := process_all p lines clock in
  let all := conversation_history p ++ evs in
  max_history_size p' = max_history_size p ∧
  conversation_history p' = drop (length all - max_history_size p) all ∧
  (length (conversation_history p') ≤ max_history_size p)%nat ∧
  ∀ ev, last evs = Some ev → (0 < max_history_size p)%nat →
        last (conversation_history p') = Some ev.
Proof.
  intros Hbound.
  destruct (process_all p lines clock) as [[p' evs] fin] eqn:Hrun.
  destruct (history_invariant lines p (conversation_history p) clock p' evs fin)
    as [Hmax Hhist]; [|done|].
  { by replace (length (conversation_history p) - max_history_size p)%nat
      with 0%nat by lia. }
  cbn zeta. split; [done|]. split; [done|]. split.
  - rewrite Hhist, length_drop. lia.
  - intros ev Hev Hpos. rewrite Hhist.
    rewrite last_lookup in Hev |- *. rewrite length_drop, lookup_drop.
    destruct evs as [|e0 evs0]; [done|].
    rewrite length_app in *. cbn [length] in *.
    rewrite lookup_app_r by lia.
    rewrite <- Hev. f_equal. lia.
Qed.

Lemma event_id_inj : Inj (=) (=) event_id.
Proof.
  intros m n H. unfold event_id in H.
  apply (inj (String.append "event_")) in H.
  apply (inj pretty) in H. lia.
Qed.

Lemma simple_event_id counter (d : dict) t :
  id (_parse_simple_event datetime counter d t) = event_id counter.
Proof. unfold _parse_simple_event. by repeat case_match. Qed.

Lemma simple_event_content c1 c2 (d : dict) t1 t2 :
  content (_parse_simple_event datetime c1 d t1) =
  content (_parse_simple_event datetime c2 d t2).
Proof. unfold _parse_simple_event. by repeat case_match. Qed.

(** Whatever the parser builds carries the id of the counter. *)
Lemma dispatch_id counter (d : dict) t ev :
  dispatch datetime counter d t = Ok (Some ev) → id ev = event_id counter.
Proof.
  unfold dispatch, _parse_worker_event, _parse_kanban_event.
  repeat case_match; simpl; try congruence;
    try (intros [= <-]; apply simple_event_id);
    try (intros [= <-]; reflexivity);
    repeat (destruct (contains _ _) as [[]|]; simpl; try congruence;
            try (intros [= <-]; reflexivity)).
Qed.

(** The id and the timestamp apart, what the parser builds depends on the
    record only. *)
Lemma dispatch_content c1 c2 (d : dict) t1 t2 :
  fmap (M:=result) (fmap (M:=option) content) (dispatch datetime c1 d t1) =
  fmap (M:=result) (fmap (M:=option) content) (dispatch datetime c2 d t2).
Proof.
  unfold dispatch, _parse_worker_event, _parse_kanban_event.
  repeat case_match; simpl; try reflexivity;
    try (by rewrite (simple_event_content c1 c2 d t1 t2));
    repeat (destruct (contains _ _) as [[]|]; simpl; try reflexivity).
Qed.

Lemma parse_entry_id (p : processor datetime) v now q ev :
  parse_entry p v now = (q, Ok (Some ev)) →
  q = bump p ∧ id ev = event_id (S (_event_counter p)).
Proof.
  unfold _parse_log_entry. intros [= <- Hr]. split; [done|].
  destruct v; try done. destruct (parse_timestamp _ _ _ _) as [t|]; [|done].
  by apply dispatch_id in Hr.
Qed.

Lemma ids_invariant lines : ∀ (p : processor datetime) clock p' evs fin,
  process_all p lines clock = (p', evs, fin) →
  ∃ ns,
    id <$> evs = event_id <$> ns ∧
    StronglySorted lt ns ∧
    Forall (λ n, _event_counter p < n ≤ _event_counter p')%nat ns ∧
    (_event_counter p ≤ _event_counter p')%nat ∧
    (_event_counter p' ≤ _event_counter p + length (List.filter is_json lines))%nat ∧
    (fin = true →
     _event_counter p' = (_event_counter p + length (List.filter is_json lines))%nat).
Proof.
  induction lines as [|l lines IH]; intros p clock p' evs fin.
  - intros [= <- <- <-]. exists []. cbn. repeat split; try constructor; lia.
  - destruct l as [| |v].
    + rewrite process_lines_skip by done. apply IH.
    + rewrite process_lines_skip by done. apply IH.
    + rewrite process_lines_json. cbn [List.filter is_json length].
      destruct (parse_entry p v _) as [q r] eqn:Hq.
      assert (q = bump p) as -> by (by rewrite <- (parse_entry_bump p v
                                       (clock (_event_counter p))), Hq).
      destruct r as [[ev|]|err].
      * destruct (process_all (remember (bump p) ev) lines clock)
          as [[p1 evs1] fin1] eqn:Hrest.
        intros [= <- <- <-].
        destruct (IH _ _ _ _ _ Hrest) as (ns & Hids & Hsorted & Hrange & Hle & Hub & Hfin).
        cbn [remember bump _event_counter] in *.
        apply parse_entry_id in Hq as [_ Hid].
        exists (S (_event_counter p) :: ns). repeat split.
        -- cbn [fmap list_fmap]. by rewrite Hid, <- Hids.
        -- constructor; [done|]. eapply Forall_impl; [exact Hrange|].
           intros n Hn. cbn in Hn. lia.
        -- constructor; [lia|]. eapply Forall_impl; [exact Hrange|].
           intros n Hn. cbn in Hn. lia.
        -- lia.
        -- lia.
        -- intros Hf. rewrite (Hfin Hf). lia.
      * intros Hrest.
        destruct (IH _ _ _ _ _ Hrest) as (ns & Hids & Hsorted & Hrange & Hle & Hub & Hfin).
        cbn [bump _event_counter] in *.
        exists ns. repeat split; try done.
        -- eapply Forall_impl; [exact Hrange|]. intros n Hn. cbn in Hn. lia.
        -- lia.
        -- lia.
        -- intros Hf. rewrite (Hfin Hf). lia.
      * intros [= <- <- <-]. exists []. cbn. repeat split; try constructor; try lia.
Qed.

(** X16: the ids of the events handed to the handlers. Every decoded line
    takes the next value of the counter, whether or not it yields an event,
    and blank or undecodable lines take none: the events delivered in one
    run carry ids [event_n] with strictly increasing [n] above the counter
    at the start, so no two of them share an id, and a run that reaches the
    end of the lines has advanced the counter by the number of decoded
    lines. *)
Theorem event_ids_increase (p : processor datetime) (lines : list line)
  (clock : nat → string) :
  let '(p', evs, fin) := process_all p lines clock in
  (∃ ns, id <$> evs = event_id <$> ns ∧ StronglySorted lt ns ∧
         Forall (λ n, _event_counter p < n ≤ _event_counter p')%nat ns) ∧
  NoDup (id <$> evs) ∧
  (_event_counter p' ≤ _event_counter p + length (List.filter is_json lines))%nat ∧
  (fin = true →
   _event_counter p' = (_event_counter p + length (List.filter is_json lines))%nat).
Proof.
  destruct (process_all p lines clock) as [[p' evs] fin] eqn:Hrun.
  destruct (ids_invariant _ _ _ _ _ _ Hrun)
    as (ns & Hids & Hsorted & Hrange & Hle & Hub & Hfin).
  split; [by exists ns|]. split; [|done].
  rewrite Hids. apply NoDup_fmap_2; [apply event_id_inj|].
  clear -Hsorted. induction Hsorted as [|n ns Hs IH Hall]; constructor; [|done].
  intros Hin. rewrite Forall_forall in Hall. specialize (Hall _ Hin). lia.
Qed.

(** X17: blank lines and lines that are not JSON leave no trace: a run over
    the lines ends in the same state, with the same events delivered, as a
    run over the decoded lines alone. *)
Theorem skipped_lines_leave_no_trace (p : processor datetime)
  (lines : list line) (clock : nat → string) :
  process_all p lines clock = process_all p (List.filter is_json lines) clock.
Proof.
  revert p. induction lines as [|l lines IH]; intros p; [done|].
  destruct l as [| |v]; cbn [List.filter is_json].
  - rewrite process_lines_skip by done. apply IH.
  - rewrite process_lines_skip by done. apply IH.
  - rewrite !process_lines_json.
    destruct (parse_entry p v _) as [q [[ev|]|err]]; try done.
    by rewrite IH.
Qed.

Lemma process_lines_app l1 : ∀ (p : processor datetime) l2 clock,
  process_all p (l1 ++ l2) clock =
    let '(p1, ev1, fin1) := process_all p l1 clock in
    if fin1 : bool then
      let '(p2, ev2, fin2) := process_all p1 l2 clock in
      (p2, ev1 ++ ev2, fin2)
    else (p1, ev1, false).
Proof.
  induction l1 as [|l l1 IH]; intros p l2 clock.
  - cbn. by destruct (process_all p l2 clock) as [[p2 ev2] fin2].
  - destruct l as [| |v]; cbn [app].
    + rewrite !process_lines_skip by done. apply IH.
    + rewrite !process_lines_skip by done. apply IH.
    + rewrite !process_lines_json.
      destruct (parse_entry p v _) as [q [[ev|]|err]]; try done.
      rewrite IH.
      destruct (process_all (remember q ev) l1 clock) as [[p1 ev1] []]; [|done].
      by destruct (process_all p1 l2 clock) as [[p2 ev2] fin2].
Qed.

Abbreviation with_positions p m :=
  (Processor datetime (conversation_history p) (max_history_size p)
             (_event_counter p) m).

(** The loop does not look at the file positions. *)
Lemma process_lines_positions lines : ∀ (p : processor datetime) m clock,
  process_all (with_positions p m) lines clock =
    let '(p', evs, fin) := process_all p lines clock in
    (with_positions p' m, evs, fin).
Proof.
  induction lines as [|l lines IH]; intros p m clock; [done|].
  destruct l as [| |v].
  - rewrite !process_lines_skip by done. apply IH.
  - rewrite !process_lines_skip by done. apply IH.
  - rewrite !process_lines_json.
    change (_event_counter (with_positions p m)) with (_event_counter p).
    set (now := clock (_event_counter p)).
    change (parse_entry (with_positions p m) v now)
      with (with_positions (bump p) m, (parse_entry p v now).2).
    pose proof (parse_entry_bump p v now) as Hq.
    destruct (parse_entry p v now) as [q [[ev|]|err]]; cbn [fst snd] in *;
      subst q.
    + change (remember (with_positions (bump p) m) ev)
        with (with_positions (remember (bump p) ev) m).
      rewrite IH.
      by destruct (process_all _ lines clock) as [[p' evs] fin].
    + apply IH.
    + done.
Qed.

Lemma with_positions_same (p : processor datetime) :
  with_positions p (_file_positions p) = p.
Proof. by destruct p. Qed.

Lemma process_lines_keeps_positions (p : processor datetime) lines clock :
  _file_positions (process_all p lines clock).1.1 = _file_positions p.
Proof.
  pose proof (process_lines_positions lines p (_file_positions p) clock) as H.
  rewrite with_positions_same in H.
  destruct (process_all p lines clock) as [[p' evs] fin].
  injection H as H. cbn [fst]. by rewrite H.
Qed.

Lemma parse_entry_content (p q : processor datetime) v now1 now2 :
  is_Some (fromisoformat now1) → is_Some (fromisoformat now2) →
  fmap (M:=result) (fmap (M:=option) content) (parse_entry p v now1).2 =
  fmap (M:=result) (fmap (M:=option) content) (parse_entry q v now2).2.
Proof.
  intros [t1 H1] [t2 H2]. unfold _parse_log_entry. cbn [snd].
  destruct v; try done.
  destruct (d !! "timestamp") as [x|] eqn:Hx.
  - rewrite (parse_timestamp_present fromisoformat d now1 now2) by eauto.
    destruct (parse_timestamp _ _ d now2) as [t|]; [|done].
    apply dispatch_content.
  - rewrite (parse_timestamp_missing fromisoformat d now1 t1) by done.
    rewrite (parse_timestamp_missing fromisoformat d now2 t2) by done.
    apply dispatch_content.
Qed.

(** The ids and the timestamps apart, what a run delivers depends on the
    lines only, when the clocks give texts that [fromisoformat] reads, as
    [datetime.now().isoformat()] does. *)
Lemma process_lines_content lines : ∀ (p q : processor datetime) clock1 clock2,
  (∀ n, is_Some (fromisoformat (clock1 n))) →
  (∀ n, is_Some (fromisoformat (clock2 n))) →
  content <$> (process_all p lines clock1).1.2
    = content <$> (process_all q lines clock2).1.2 ∧
  (process_all p lines clock1).2 = (process_all q lines clock2).2.
Proof.
  induction lines as [|l lines IH]; intros p q clock1 clock2 Hc1 Hc2; [done|].
  destruct l as [| |v].
  - rewrite !process_lines_skip by done. by apply IH.
  - rewrite !process_lines_skip by done. by apply IH.
  - rewrite !process_lines_json.
    pose proof (parse_entry_content p q v (clock1 (_event_counter p))
                  (clock2 (_event_counter q)) (Hc1 _) (Hc2 _)) as Hsame.
    destruct (parse_entry p v _) as [p1 rp].
    destruct (parse_entry q v _) as [q1 rq].
    cbn [snd] in Hsame.
    rename Hsame into Hr.
    destruct rp as [[ep|]|errp], rq as [[eq|]|errq]; try discriminate Hr.
    + assert (content ep = content eq) as Hc by (cbn in Hr; congruence).
      destruct (IH (remember p1 ep) (remember q1 eq) clock1 clock2 Hc1 Hc2)
        as [Hevs Hfin].
      destruct (process_all (remember p1 ep) lines clock1) as [[p' e1] f1].
      destruct (process_all (remember q1 eq) lines clock2) as [[q' e2] f2].
      cbn [fst snd fmap list_fmap] in *. by rewrite Hc, Hevs.
    + by apply IH.
    + done.
Qed.

(** A pass over a file is the loop over its lines from the position, and
    at most a new file position. *)
Lemma process_file_run (p : processor datetime) path lines position clock :
  ∃ m, process_file p path lines position clock =
         (with_positions (process_all p (drop position lines) clock).1.1 m,
          (process_all p (drop position lines) clock).1.2).
Proof.
  unfold _process_log_file.
  destruct (process_all p (drop position lines) clock) as [[q evs] []];
    cbn [fst snd].
  - by eexists.
  - exists (_file_positions q). by rewrite with_positions_same.
Qed.

(** X19: a file notified twice before the queue is processed is read twice
    from the same position: both notifications carry the position recorded
    when they were made, so every event of the lines from there on is handed
    to the handlers twice, the second time with a new id. The clock gives
    the texts of [datetime.now().isoformat()], which [fromisoformat]
    reads. *)
Theorem queued_twice_delivered_twice (p : processor datetime) (src : string)
  (lines : list line) (contents : string → option (list line))
  (clock : nat → string) :
  endswith ".jsonl" src = true →
  contents src = Some lines →
  (∀ n, is_Some (fromisoformat (clock n))) →
  let position := default 0 (_file_positions p !! path_str src) in
  let queue :=
    on_modified datetime path_str p (FileModifiedEvent src)
      (on_modified datetime path_str p (FileModifiedEvent src) []) in
  let '(p1, ev1) := process_file p (path_str src) lines position clock in
  let '(p2, ev2) := process_file p1 (path_str src) lines position clock in
  process_queue p queue contents clock = (p2, ev1 ++ ev2) ∧
  content <$> ev2 = content <$> ev1 ∧
  ∀ e1 e2, e1 ∈ ev1 → e2 ∈ ev2 → id e1 ≠ id e2.
Proof.
  intros Hjsonl Hcontents Hts. cbn zeta.
  unfold on_modified. rewrite Hjsonl. cbn [app _process_queue].
  rewrite Hcontents.
  set (position := default 0 (_file_positions p !! path_str src)).
  destruct (process_file_run p (path_str src) lines position clock)
    as [m1 H1].
  destruct (process_file p (path_str src) lines position clock)
    as [p1 ev1].
  destruct (process_file_run p1 (path_str src) lines position clock)
    as [m2 H2].
  destruct (process_file p1 (path_str src) lines position clock)
    as [p2 ev2].
  rewrite app_nil_r. split; [done|].
  pose proof (process_lines_content (drop position lines) p p1 clock clock
                Hts Hts) as [Hevs _].
  pose proof (ids_invariant (drop position lines) p clock) as Hids1.
  pose proof (ids_invariant (drop position lines) p1 clock) as Hids2.
  destruct (process_all p (drop position lines) clock) as [[q1 e1] f1].
  destruct (process_all p1 (drop position lines) clock) as [[q2 e2] f2].
  cbn [fst snd] in *.
  injection H1 as -> ->. injection H2 as -> ->.
  split; [done|].
  destruct (Hids1 _ _ _ eq_refl) as (ns1 & Hid1 & _ & Hrange1 & _).
  destruct (Hids2 _ _ _ eq_refl) as (ns2 & Hid2 & _ & Hrange2 & _).
  cbn [_event_counter] in *.
  intros x1 x2 Hx1 Hx2 Heq.
  assert (id x1 ∈ event_id <$> ns1) as Hn1
    by (rewrite <- Hid1; by apply list_elem_of_fmap_2).
  assert (id x2 ∈ event_id <$> ns2) as Hn2
    by (rewrite <- Hid2; by apply list_elem_of_fmap_2).
  apply list_elem_of_fmap in Hn1 as (n1 & Hi1 & Hin1).
  apply list_elem_of_fmap in Hn2 as (n2 & Hi2 & Hin2).
  rewrite Forall_forall in Hrange1, Hrange2.
  specialize (Hrange1 _ Hin1). specialize (Hrange2 _ Hin2).
  assert (n1 = n2) by (apply event_id_inj; congruence). lia.
Qed.

(** X20: a notification made after a pass that reached the end of the
    file, for a file that has not grown since, delivers nothing: the pass it
    starts reads from the recorded position, the end of the file, and leaves
    the history and the counter as they are. *)
Theorem notified_after_processing (p : processor datetime) (src : string)
  (lines : list line) (contents : string → option (list line))
  (clock : nat → string) (from_position : nat) :
  endswith ".jsonl" src = true →
  contents src = Some lines →
  (process_all p (drop from_position lines) clock).2 = true →
  let '(p1, _) := process_file p (path_str src) lines from_position clock in
  let queue := on_modified datetime path_str p1 (FileModifiedEvent src) [] in
  ∃ p2, process_queue p1 queue contents clock = (p2, []) ∧
        conversation_history p2 = conversation_history p1 ∧
        _event_counter p2 = _event_counter p1 ∧
        _file_positions p2 = _file_positions p1.
Proof.
  intros Hjsonl Hcontents Hfin. unfold _process_log_file at 1.
  destruct (process_all p (drop from_position lines) clock) as [[q1 e1] f1].
  cbn in Hfin. subst f1. cbn zeta.
  unfold on_modified. rewrite Hjsonl. cbn [app _process_queue _file_positions].
  rewrite Hcontents, lookup_insert_eq. cbn [default from_option Datatypes.id].
  unfold _process_log_file.
  rewrite drop_ge by lia. cbn [process_lines].
  eexists. split; [reflexivity|].
  cbn [conversation_history _event_counter _file_positions].
  repeat split. rewrite insert_insert_eq. f_equal. lia.
Qed.

(** Only modifications of [.jsonl] files are queued. *)
Lemma on_modified_other (p : processor datetime) event queue :
  match event with
  | FileModifiedEvent src => endswith ".jsonl" src = false
  | OtherEvent _ => True
  end →
  on_modified datetime path_str p event queue = queue.
Proof. destruct event; [|done]. cbn. by intros ->. Qed.

End TailerMore.

Section TailerMoreSamples.
Import Tailer Watcher TailerExamples.

Abbreviation fresh := (@new_processor IsoFormat.datetime).

Lemma morning_is_read n : is_Some (IsoFormat.fromisoformat (morning n)).
Proof. by_evaluation. Qed.

Lemma history_keeps_latest_witness :
  let '(p', evs, _) :=
    process_lines _ IsoFormat.fromisoformat fresh timed_log morning in
  let all := conversation_history fresh ++ evs in
  max_history_size p' = max_history_size fresh ∧
  conversation_history p'
    = drop (length all - max_history_size fresh) all ∧
  (length (conversation_history p') ≤ max_history_size fresh)%nat ∧
  ∀ ev, last evs = Some ev → (0 < max_history_size fresh)%nat →
        last (conversation_history p') = Some ev.
Proof.
  refine (history_keeps_latest IsoFormat.fromisoformat fresh timed_log
            morning _).
  cbn. lia.
Defined.

(** The directory holds the one file [realtime_1.jsonl]. *)
Lemma queued_twice_delivered_twice_witness :
  let contents := λ s, if String.eqb s "realtime_1.jsonl"
                       then Some mixed_log else None in
  let '(p1, ev1) :=
    _process_log_file _ IsoFormat.fromisoformat fresh
      "realtime_1.jsonl" mixed_log 0 morning in
  let '(p2, ev2) :=
    _process_log_file _ IsoFormat.fromisoformat p1 "realtime_1.jsonl"
      mixed_log 0 morning in
  _process_queue _ IsoFormat.fromisoformat (λ s, s) fresh
    [("realtime_1.jsonl", 0%nat); ("realtime_1.jsonl", 0%nat)] contents morning
    = (p2, ev1 ++ ev2) ∧
  content <$> ev2 = content <$> ev1 ∧
  ∀ e1 e2, e1 ∈ ev1 → e2 ∈ ev2 → id e1 ≠ id e2.
Proof.
  refine (queued_twice_delivered_twice IsoFormat.fromisoformat (λ s, s)
            fresh "realtime_1.jsonl" mixed_log
            (λ s, if String.eqb s "realtime_1.jsonl"
                  then Some mixed_log else None)
            morning _ _ morning_is_read).
  - evaluate.
  - reflexivity.
Defined.

Lemma notified_after_processing_witness :
  let contents := λ s, if String.eqb s "realtime_1.jsonl"
                       then Some timed_log else None in
  let '(p1, _) :=
    _process_log_file _ IsoFormat.fromisoformat fresh
      "realtime_1.jsonl" timed_log 0 morning in
  let queue := on_modified _ (λ s, s) p1 (FileModifiedEvent "realtime_1.jsonl") []
  in
  ∃ p2, _process_queue _ IsoFormat.fromisoformat (λ s, s) p1 queue contents
          morning = (p2, []) ∧
        conversation_history p2 = conversation_history p1 ∧
        _event_counter p2 = _event_counter p1 ∧
        _file_positions p2 = _file_positions p1.
Proof.
  refine (notified_after_processing IsoFormat.fromisoformat (λ s, s)
            fresh "realtime_1.jsonl" timed_log
            (λ s, if String.eqb s "realtime_1.jsonl"
                  then Some timed_log else None)
            morning 0 _ _ _).
  - evaluate.
  - reflexivity.
  - evaluate.
Defined.

End TailerMoreSamples.

(** ** The log tailer on the bytes of the file *)

Section TailerBytesFacts.
Import Tailer TailerBytes.

Context {datetime : Type} (fromisoformat : string → option datetime).
Variable classify : string → line.

Abbreviation process_all := (process_lines datetime fromisoformat).
Abbreviation process_bytes :=
  (TailerBytes._process_log_file datetime fromisoformat classify).
Abbreviation records := (read_records classify).
Abbreviation with_positions p m :=
  (Processor datetime (conversation_history p) (max_history_size p)
             (_event_counter p) m).

Lemma string_app_cons x (a b : string) : String x a +:+ b = String x (a +:+ b).
Proof. reflexivity. Qed.

Lemma string_app_assoc (a b c : string) : (a +:+ b) +:+ c = a +:+ (b +:+ c).
Proof.
  induction a as [|x a IH]; [done|]. by rewrite !string_app_cons, IH.
Qed.

Lemma string_app_nil_r (a : string) : a +:+ "" = a.
Proof. induction a as [|x a IH]; [done|]. by rewrite string_app_cons, IH. Qed.

Lemma string_app_length (a b : string) :
  String.length (a +:+ b) = (String.length a + String.length b)%nat.
Proof.
  induction a as [|x a IH]; [done|]. rewrite string_app_cons. cbn. by rewrite IH.
Qed.

Lemma drop_bytes_app (a b : string) : drop_bytes (String.length a) (a +:+ b) = b.
Proof.
  induction a as [|x a IH]; [by destruct b|]. rewrite string_app_cons. apply IH.
Qed.

Lemma drop_bytes_all (n : nat) (s : string) :
  (String.length s ≤ n)%nat → drop_bytes n s = "".
Proof.
  revert n. induction s as [|x s IH]; intros [|n] Hn; cbn in *; try done; try lia.
  apply IH. lia.
Qed.

Lemma translate_whole (a b : string) :
  whole_lines a = true →
  translate_newlines (a +:+ b) = translate_newlines a +:+ translate_newlines b.
Proof.
  induction a as [|c a IH]; [done|]. intros Hw.
  destruct a as [|c' a].
  - cbn in Hw. apply Ascii.eqb_eq in Hw as ->. done.
  - specialize (IH Hw). rewrite !string_app_cons in *.
    cbn [translate_newlines] in *.
    destruct (Ascii.eqb c CR); [destruct (Ascii.eqb c' LF)|];
      rewrite ?string_app_cons; by rewrite IH.
Qed.

Lemma translate_not_empty c (a : string) : translate_newlines (String c a) ≠ "".
Proof.
  revert c. induction a as [|c' a IH]; intros c.
  - cbn. by destruct (Ascii.eqb c CR).
  - cbn [translate_newlines].
    destruct (Ascii.eqb c CR); [destruct (Ascii.eqb c' LF)|]; try done.
    apply IH.
Qed.

Lemma translate_cons c c' (a : string) :
  translate_newlines (String c (String c' a)) =
    if Ascii.eqb c CR then
      if Ascii.eqb c' LF then translate_newlines (String c' a)
      else String LF (translate_newlines (String c' a))
    else String c (translate_newlines (String c' a)).
Proof. reflexivity. Qed.

Lemma translate_whole_is_whole (a : string) :
  whole_lines a = true → whole_lines (translate_newlines a) = true.
Proof.
  induction a as [|c a IH]; [done|]. intros Hw.
  destruct a as [|c' a].
  - cbn in Hw. apply Ascii.eqb_eq in Hw as ->. done.
  - specialize (IH Hw).
    pose proof (translate_not_empty c' a) as Hne.
    rewrite translate_cons.
    destruct (translate_newlines (String c' a)) as [|y t]; [done|].
    by destruct (Ascii.eqb c CR); [destruct (Ascii.eqb c' LF)|].
Qed.

Lemma lines_from_whole (u v : string) :
  whole_lines u = true → ∀ cur,
  lines_from cur (u +:+ v) =
    match u with
    | EmptyString => lines_from cur v
    | _ => lines_from cur u ++ lines_from "" v
    end.
Proof.
  induction u as [|c u IH]; [done|]. intros Hw cur.
  destruct u as [|c' u].
  - cbn in Hw. apply Ascii.eqb_eq in Hw as ->. done.
  - specialize (IH Hw). rewrite string_app_cons.
    cbn [lines_from]. destruct (Ascii.eqb c LF).
    + by rewrite IH.
    + by rewrite IH.
Qed.

Lemma readlines_whole (a b : string) :
  whole_lines a = true → readlines (a +:+ b) = readlines a ++ readlines b.
Proof.
  intros Hw. unfold readlines. rewrite translate_whole by done.
  rewrite lines_from_whole by by apply translate_whole_is_whole.
  destruct a as [|c a]; [done|].
  destruct (translate_newlines (String c a)) eqn:Ht; [|done].
  done.
Qed.

Lemma translate_plain (s b : string) :
  plain s = true → translate_newlines (s +:+ b) = s +:+ translate_newlines b.
Proof.
  induction s as [|c s IH]; [done|]. cbn [plain]. intros Hp.
  apply andb_prop in Hp as [Hc Hp]. apply andb_prop in Hc as [_ Hc].
  apply negb_true_iff in Hc.
  rewrite !string_app_cons. cbn [translate_newlines]. rewrite Hc. by rewrite IH.
Qed.

Lemma lines_from_plain (s b : string) :
  plain s = true → ∀ cur, lines_from cur (s +:+ b) = lines_from (cur +:+ s) b.
Proof.
  induction s as [|c s IH]; intros Hp cur.
  - by rewrite string_app_nil_r.
  - cbn [plain] in Hp.
    apply andb_prop in Hp as [Hc Hp]. apply andb_prop in Hc as [Hc _].
    apply negb_true_iff in Hc.
    rewrite string_app_cons. cbn [lines_from]. rewrite Hc, IH by done.
    by rewrite string_app_assoc.
Qed.

Lemma plain_app (a b : string) : plain (a +:+ b) = plain a && plain b.
Proof.
  induction a as [|c a IH]; [done|]. rewrite string_app_cons. cbn [plain].
  rewrite IH. by rewrite andb_assoc.
Qed.

(** A text without a newline is one line. *)
Lemma readlines_plain (s : string) :
  plain s = true → s ≠ "" → readlines s = [s].
Proof.
  intros Hp Hne. unfold readlines.
  rewrite <- (string_app_nil_r s) at 1.
  rewrite translate_plain, string_app_nil_r by done.
  rewrite <- (string_app_nil_r s) at 1.
  rewrite lines_from_plain by done. cbn. by destruct s.
Qed.

Lemma whole_lines_newline (s : string) :
  whole_lines (s +:+ String LF "") = true.
Proof.
  induction s as [|c s IH]; [done|]. rewrite string_app_cons.
  cbn [whole_lines]. by destruct (s +:+ String LF "") eqn:E; [destruct s|].
Qed.

(** A text without a newline, then [\n]: one line; what follows is read
    after it. *)
Lemma readlines_line (s rest : string) :
  plain s = true →
  readlines (s +:+ String LF rest) = (s +:+ String LF "") :: readlines rest.
Proof.
  intros Hp. unfold readlines.
  rewrite translate_plain by done.
  change (translate_newlines (String LF rest))
    with (String LF (translate_newlines rest)).
  rewrite lines_from_plain by done. done.
Qed.

Lemma records_whole (a b : string) :
  whole_lines a = true → records (a +:+ b) 0 = records a 0 ++ records b 0.
Proof.
  intros Hw. unfold read_records. cbn [drop_bytes].
  by rewrite readlines_whole, fmap_app.
Qed.

Lemma records_from_end (a b : string) :
  records (a +:+ b) (String.length a) = records b 0.
Proof. unfold read_records. by rewrite drop_bytes_app. Qed.

(** A pass over the bytes of a file is the loop over the lines read from
    the position, and a new file position when the loop ends normally. *)
Lemma process_bytes_run (p : processor datetime) path content position clock :
  process_bytes p path content position clock =
    let '(q, evs, fin) := process_all p (records content position) clock in
    (if fin : bool
     then with_positions q (<[path := Nat.max position (String.length content)]>
                              (_file_positions q))
     else q, evs).
Proof.
  unfold TailerBytes._process_log_file.
  by destruct (process_all p _ clock) as [[q evs] []].
Qed.

(** From the start of the file, the pass over the bytes delivers what the
    pass over the lines read delivers. *)
Lemma process_bytes_lines (p : processor datetime) path content clock :
  let '(p1, ev1) := process_bytes p path content 0 clock in
  let '(p2, ev2) :=
    Tailer._process_log_file datetime fromisoformat p path
      (records content 0) 0 clock in
  ev1 = ev2 ∧ conversation_history p1 = conversation_history p2 ∧
  _event_counter p1 = _event_counter p2.
Proof.
  rewrite process_bytes_run. unfold Tailer._process_log_file. rewrite drop_0.
  by destruct (process_all p _ clock) as [[q evs] []].
Qed.

(** The lines of a file whose last record was half written when the first
    pass read it. *)
Lemma records_half_written (whole head body rest : string) :
  whole_lines whole = true → plain head = true → head ≠ "" →
  plain body = true →
  records (whole +:+ head) 0 ++ records (body +:+ String LF rest) 0
    = records whole 0
        ++ [classify head; classify (body +:+ String LF "")]
        ++ records rest 0 ∧
  records ((whole +:+ head) +:+ (body +:+ String LF rest)) 0
    = records whole 0
        ++ [classify ((head +:+ body) +:+ String LF "")]
        ++ records rest 0.
Proof.
  intros Hw Hh Hne Hb. split.
  - rewrite records_whole by done. unfold read_records. cbn [drop_bytes].
    rewrite (readlines_plain head), (readlines_line body) by done.
    cbn [fmap list_fmap]. by rewrite <- app_assoc.
  - rewrite string_app_assoc, <- (string_app_assoc head body).
    rewrite records_whole by done. unfold read_records. cbn [drop_bytes].
    rewrite (readlines_line (head +:+ body))
      by (rewrite plain_app, Hh, Hb; done).
    done.
Qed.

(** X18: tailing in two passes, on the bytes of the file. When a pass over
    a file from its start reaches the end, the position recorded is the
    length of the file in bytes; a second pass from that position, after
    the file has grown, reads the new bytes only, and the two passes
    together deliver the events, and leave the history and the counter, of
    one run of the loop over the lines of the old bytes followed by the
    lines of the new bytes. When the old bytes end with a newline (or the
    file was empty), these are the lines of the grown file, and the two
    passes do what a single pass over the grown file does; the whole state
    is the same when that pass reaches the end. When the old bytes end in
    the middle of a line, the two passes read the two halves of that line
    as two lines, where a single pass reads one line. *)
Theorem tail_in_two_passes (p : processor datetime) (path : string)
  (c1 c2 : string) (clock : nat → string) :
  (process_all p (records c1 0) clock).2 = true →
  let '(p1, ev1) := process_bytes p path c1 0 clock in
  let '(p2, ev2) :=
    process_bytes p1 path (c1 +:+ c2)
      (default 0 (_file_positions p1 !! path)) clock in
  let '(q, evs, _) :=
    process_all p (records c1 0 ++ records c2 0) clock in
  let '(p', evs') := process_bytes p path (c1 +:+ c2) 0 clock in
  _file_positions p1 !! path = Some (String.length c1) ∧
  ev1 ++ ev2 = evs ∧
  conversation_history p2 = conversation_history q ∧
  _event_counter p2 = _event_counter q ∧
  (whole_lines c1 = true →
   evs' = ev1 ++ ev2 ∧
   conversation_history p' = conversation_history p2 ∧
   _event_counter p' = _event_counter p2 ∧
   ((process_all p (records (c1 +:+ c2) 0) clock).2 = true →
    p' = p2)) ∧
  (∀ whole head body rest,
     whole_lines whole = true → plain head = true → head ≠ "" →
     plain body = true →
     c1 = whole +:+ head → c2 = body +:+ String LF rest →
     records c1 0 ++ records c2 0
       = records whole 0
           ++ [classify head; classify (body +:+ String LF "")]
           ++ records rest 0 ∧
     records (c1 +:+ c2) 0
       = records whole 0
           ++ [classify ((head +:+ body) +:+ String LF "")]
           ++ records rest 0).
Proof.
  intros Hfin.
  destruct (process_all p (records c1 0) clock) as [[q1 e1] f1] eqn:H1.
  cbn in Hfin. subst f1.
  pose proof (process_lines_keeps_positions fromisoformat q1 (records c2 0) clock)
    as Hkeep.
  destruct (process_all q1 (records c2 0) clock) as [[q2 e2] f2] eqn:H2.
  cbn [fst snd] in Hkeep.
  assert (process_all p (records c1 0 ++ records c2 0) clock
          = (q2, e1 ++ e2, f2)) as H12.
  { rewrite process_lines_app, H1. by rewrite H2. }
  rewrite (process_bytes_run p path c1), H1. lazy beta iota zeta.
  rewrite process_bytes_run. cbn [_file_positions].
  rewrite lookup_insert_eq. cbn [default from_option Datatypes.id].
  rewrite Nat.max_0_l, records_from_end, process_lines_positions, H2.
  lazy beta iota zeta. rewrite H12.
  rewrite (process_bytes_run p path (c1 +:+ c2) 0).
  pose proof (records_whole c1 c2) as Hwhole.
  destruct (process_all p (records (c1 +:+ c2) 0) clock)
    as [[q' e'] f'] eqn:Hsingle.
  lazy beta iota zeta. cbn [snd].
  split; [done|]. split; [done|].
  split; [by destruct f2|]. split; [by destruct f2|].
  split.
  - intros Hw. rewrite (Hwhole Hw), H12 in Hsingle.
    injection Hsingle as <- <- <-.
    destruct f2;
      cbn [conversation_history max_history_size _event_counter _file_positions].
    + repeat split; try done. intros _. f_equal.
      rewrite insert_insert_eq, Hkeep. f_equal.
      rewrite string_app_length. lia.
    + repeat split; try done.
  - intros whole head body rest Hw Hh Hne Hb -> ->.
    by apply records_half_written.
Qed.

End TailerBytesFacts.

Section TailerBytesSamples.
Import Tailer TailerExamples TailerBytes TailerBytesExamples.

Abbreviation fresh := (@new_processor IsoFormat.datetime).
Abbreviation sample_pass :=
  (TailerBytes._process_log_file _ IsoFormat.fromisoformat sample_classify).
Abbreviation sample_records := (read_records sample_classify).

(** [\r\n] and [\r] end a line as [\n] does. *)
Lemma readlines_universal_newlines :
  readlines ("a" +:+ String CR (String LF ("b" +:+ String CR "c")))
    = ["a" +:+ newline; "b" +:+ newline; "c"].
Proof. reflexivity. Qed.

Lemma tail_in_two_passes_witness :
  let c1 := record_text +:+ newline in
  let c2 := record_text +:+ newline in
  let '(p1, ev1) := sample_pass fresh "realtime_1.jsonl" c1 0 morning in
  let '(p2, ev2) :=
    sample_pass p1 "realtime_1.jsonl" (c1 +:+ c2)
      (default 0 (_file_positions p1 !! "realtime_1.jsonl")) morning in
  let '(q, evs, _) :=
    process_lines _ IsoFormat.fromisoformat fresh
      (sample_records c1 0 ++ sample_records c2 0) morning in
  let '(p', evs') := sample_pass fresh "realtime_1.jsonl" (c1 +:+ c2) 0 morning in
  _file_positions p1 !! "realtime_1.jsonl" = Some (String.length c1) ∧
  ev1 ++ ev2 = evs ∧
  conversation_history p2 = conversation_history q ∧
  _event_counter p2 = _event_counter q ∧
  (whole_lines c1 = true →
   evs' = ev1 ++ ev2 ∧
   conversation_history p' = conversation_history p2 ∧
   _event_counter p' = _event_counter p2 ∧
   ((process_lines _ IsoFormat.fromisoformat fresh
       (sample_records (c1 +:+ c2) 0) morning).2 = true →
    p' = p2)) ∧
  (∀ whole head body rest,
     whole_lines whole = true → plain head = true → head ≠ "" →
     plain body = true →
     c1 = whole +:+ head → c2 = body +:+ String LF rest →
     sample_records c1 0 ++ sample_records c2 0
       = sample_records whole 0
           ++ [sample_classify head; sample_classify (body +:+ String LF "")]
           ++ sample_records rest 0 ∧
     sample_records (c1 +:+ c2) 0
       = sample_records whole 0
           ++ [sample_classify ((head +:+ body) +:+ String LF "")]
           ++ sample_records rest 0).
Proof.
  refine (tail_in_two_passes IsoFormat.fromisoformat sample_classify fresh
            "realtime_1.jsonl" (record_text +:+ newline)
            (record_text +:+ newline) morning _).
  evaluate.
Defined.

(** A record half written when the first pass reads the file is handed to
    no handler: the first pass reads its first 20 bytes as a line that is no
    JSON and records the position 20, and the second pass reads the rest as
    a line that is no JSON either; a single pass over the file, once the
    record is whole, delivers it. *)
Lemma half_written_record_is_lost :
  let first := sample_pass fresh "realtime_1.jsonl" record_head 0 morning in
  let second :=
    sample_pass first.1 "realtime_1.jsonl" (record_text +:+ newline)
      (default 0 (_file_positions first.1 !! "realtime_1.jsonl")) morning in
  let single :=
    sample_pass fresh "realtime_1.jsonl" (record_text +:+ newline) 0 morning in
  record_head +:+ record_rest = record_text ∧
  _file_positions first.1 !! "realtime_1.jsonl" = Some 20%nat ∧
  first.2 = [] ∧
  second.2 = [] ∧
  _file_positions second.1 !! "realtime_1.jsonl"
    = Some (String.length (record_text +:+ newline)) ∧
  message <$> single.2 = [Plain (VStr "started")].
Proof. cbv zeta. repeat split; evaluate. Qed.

End TailerBytesSamples.

(** ** More on the two processes *)

Section SchedMore.
Import Store Sched SchedOrder.

Lemma add_event_keeps_registered flow_id event now (f : file) :
  is_Some (flows (_read_events f) !! flow_id) →
  is_Some (flows (_read_events (add_event flow_id event now f).2) !! flow_id).
Proof.
  intros [fl Hfl].
  destruct (add_event_known flow_id event now f fl Hfl) as (fls & -> & Hreg & _).
  done.
Qed.

Lemma add_event_length flow_id event now (f : file) :
  is_Some (flows (_read_events f) !! flow_id) →
  length (events (_read_events (add_event flow_id event now f).2))
    = S (length (events (_read_events f))).
Proof.
  intros [fl Hfl].
  destruct (add_event_known flow_id event now f fl Hfl) as (fls & -> & _ & _).
  cbn [snd _read_events events]. rewrite length_app. cbn [length]. lia.
Qed.

(** Three steps of one process alone, on a registered flow, are one call of
    [add_event]. *)
Lemma call_alone flow_id (f : file) event now rest (other : process) :
  is_Some (flows (_read_events f) !! flow_id) →
  run flow_id [P1; P1; P1] (System f (Process ((event, now) :: rest) Idle) other)
    = System (add_event flow_id event now f).2 (Process rest Idle) other ∧
  run flow_id [P2; P2; P2] (System f other (Process ((event, now) :: rest) Idle))
    = System (add_event flow_id event now f).2 other (Process rest Idle).
Proof.
  intros [fl Hfl]. unfold run, add_event, add_event_body.
  cbn [fold_left system_step step pending at_stage process1 process2
       shared_file].
  unfold add_event_body. rewrite Hfl.
  cbn [fold_left system_step step pending at_stage process1 process2
       shared_file snd]. done.
Qed.

Lemma serial_round flow_id (f : file) event1 now1 rest1 event2 now2 rest2 :
  is_Some (flows (_read_events f) !! flow_id) →
  run flow_id [P1; P1; P1; P2; P2; P2]
    (System f (Process ((event1, now1) :: rest1) Idle)
            (Process ((event2, now2) :: rest2) Idle))
  = System (add_event flow_id event2 now2 (add_event flow_id event1 now1 f).2).2
           (Process rest1 Idle) (Process rest2 Idle).
Proof.
  intros Hreg.
  change [P1; P1; P1; P2; P2; P2] with ([P1; P1; P1] ++ [P2; P2; P2]).
  unfold run. rewrite fold_left_app.
  destruct (call_alone flow_id f event1 now1 rest1
              (Process ((event2, now2) :: rest2) Idle) Hreg) as [H1 _].
  unfold run in H1. rewrite H1.
  destruct (call_alone flow_id (add_event flow_id event1 now1 f).2 event2 now2
              rest2 (Process rest1 Idle)
              (add_event_keeps_registered _ _ _ _ Hreg)) as [_ H2].
  exact H2.
Qed.

Lemma lost_update_round flow_id (f : file) event1 now1 rest1 event2 now2 rest2 :
  is_Some (flows (_read_events f) !! flow_id) →
  run flow_id [P1; P2; P1; P1; P2; P2]
    (System f (Process ((event1, now1) :: rest1) Idle)
            (Process ((event2, now2) :: rest2) Idle))
  = System (add_event flow_id event2 now2 f).2
           (Process rest1 Idle) (Process rest2 Idle).
Proof.
  intros [fl Hfl]. unfold run, add_event.
  assert (∀ event now,
    add_event_body flow_id event now (_read_events f) =
      Some (Document
              match event !! "stage" with
              | Some stage =>
                  <[flow_id := <["current_stage" := stage]> fl]>
                    (flows (_read_events f))
              | None => flows (_read_events f)
              end
              (events (_read_events f)
                 ++ [event_data flow_id now event (events (_read_events f))])))
    as Hbody.
  { intros event now. unfold add_event_body. by rewrite Hfl. }
  repeat (cbn [fold_left system_step step pending at_stage process1 process2
               shared_file snd];
          rewrite ?Hbody).
  done.
Qed.

(** X21: two processes that take turns, each running a whole [add_event]
    call on a registered flow before the other starts one, lose nothing: all
    calls return and the file ends as after the same calls made by one
    process in that order, with one more stored event per call. *)
Theorem serial_schedule_keeps_every_event (flow_id : string)
  (calls1 calls2 : list (dict * string)) (f : file) :
  length calls1 = length calls2 →
  is_Some (flows (_read_events f) !! flow_id) →
  let s := run flow_id (rounds (length calls1) [P1; P1; P1; P2; P2; P2])
               (System f (Process calls1 Idle) (Process calls2 Idle)) in
  finished s = true ∧
  shared_file s = add_events flow_id (alternate calls1 calls2) f ∧
  length (events (_read_events (shared_file s))) =
    (length (events (_read_events f)) + length calls1 + length calls2)%nat.
Proof.
  revert calls2 f.
  induction calls1 as [|[event1 now1] calls1 IH];
    intros [|[event2 now2] calls2] f Hlen Hreg; try discriminate.
  - cbn. split; [done|]. split; [done|]. lia.
  - cbn [length rounds alternate]. unfold run. rewrite fold_left_app.
    pose proof (serial_round flow_id f event1 now1 calls1 event2 now2 calls2
                  Hreg) as Hround.
    unfold run in Hround. rewrite Hround.
    set (f' := (add_event flow_id event2 now2
                  (add_event flow_id event1 now1 f).2).2).
    assert (is_Some (flows (_read_events f') !! flow_id)) as Hreg'
      by (by do 2 apply add_event_keeps_registered).
    destruct (IH calls2 f' ltac:(by injection Hlen) Hreg')
      as (Hfin & Hfile & Hcount).
    unfold run in Hfin, Hfile, Hcount.
    split; [done|]. split; [done|]. rewrite Hcount. subst f'.
    rewrite !add_event_length by (by repeat apply add_event_keeps_registered).
    cbn [length]. lia.
Qed.

(** X22: two processes whose calls interleave, in every round both reading
    before either writes: all calls return, and the file ends as if the
    first process had made no call at all. Every write of the first process
    is overwritten by the second, from what it read before. *)
Theorem interleaved_schedule_keeps_one_writer (flow_id : string)
  (calls1 calls2 : list (dict * string)) (f : file) :
  length calls1 = length calls2 →
  is_Some (flows (_read_events f) !! flow_id) →
  let s := run flow_id (rounds (length calls1) [P1; P2; P1; P1; P2; P2])
               (System f (Process calls1 Idle) (Process calls2 Idle)) in
  finished s = true ∧
  shared_file s = add_events flow_id calls2 f.
Proof.
  revert calls2 f.
  induction calls1 as [|[event1 now1] calls1 IH];
    intros [|[event2 now2] calls2] f Hlen Hreg; try discriminate.
  - done.
  - cbn [length rounds]. unfold run. rewrite fold_left_app.
    pose proof (lost_update_round flow_id f event1 now1 calls1 event2 now2
                  calls2 Hreg) as Hround.
    unfold run in Hround. rewrite Hround.
    apply (IH calls2 _ ltac:(by injection Hlen)).
    by apply add_event_keeps_registered.
Qed.

Lemma serial_schedule_keeps_every_event_witness :
  let s := run "f1" (rounds (length StoreExamples.two_calls)
                       [P1; P1; P1; P2; P2; P2])
               (System StoreExamples.one_flow
                       (Process StoreExamples.two_calls Idle)
                       (Process StoreExamples.two_calls Idle)) in
  finished s = true ∧
  shared_file s =
    add_events "f1" (alternate StoreExamples.two_calls StoreExamples.two_calls)
      StoreExamples.one_flow ∧
  length (events (_read_events (shared_file s))) =
    (length (events (_read_events StoreExamples.one_flow))
     + length StoreExamples.two_calls + length StoreExamples.two_calls)%nat.
Proof.
  refine (serial_schedule_keeps_every_event "f1" StoreExamples.two_calls
            StoreExamples.two_calls StoreExamples.one_flow _ _).
  - reflexivity.
  - by_evaluation.
Defined.

Lemma interleaved_schedule_keeps_one_writer_witness :
  let s := run "f1" (rounds (length StoreExamples.two_calls)
                       [P1; P2; P1; P1; P2; P2])
               (System StoreExamples.one_flow
                       (Process StoreExamples.two_calls Idle)
                       (Process StoreExamples.two_calls Idle)) in
  finished s = true ∧
  shared_file s = add_events "f1" StoreExamples.two_calls StoreExamples.one_flow.
Proof.
  refine (interleaved_schedule_keeps_one_writer "f1" StoreExamples.two_calls
            StoreExamples.two_calls StoreExamples.one_flow _ _).
  - reflexivity.
  - by_evaluation.
Defined.

End SchedMore.

(** ** From the producer to the replay *)

Section ProducerToReplay.
Import Store Replay ReplayContext.

(** X23: from the producer to the replay. A decision recorded through
    [track_decision_point] on a registered flow, whose stored events carry
    string timestamps, is found by a controller built afterwards: the
    controller's snapshot holds one event more, one of its positions is
    listed by [find_decision_points], and [get_decision_context] at that
    position returns the decision, rationale, confidence and alternatives of
    the call, with the time of the call as timestamp. *)
Theorem tracked_decision_is_replayed (f : file) (flow_id : string)
    (stage : Visualizer.PipelineStage) (decision rationale : string)
    (confidence : value) (alternatives : list value) (data_now now : string) :
  is_Some (flows (_read_events f) !! flow_id) →
  Forall (λ e, is_Some (timestamp_str e)) (get_flow_events flow_id f) →
  let f' := (Visualizer.track_decision_point flow_id stage decision rationale
               confidence alternatives data_now now f).2 in
  ∃ c position ctx,
    new_controller f' flow_id = Returns c ∧
    length (events c) = S (length (get_flow_events flow_id f)) ∧
    position ∈ find_decision_points c ∧
    get_decision_context c position = Ok (Some ctx) ∧
    context_timestamp ctx = VStr now ∧
    context_details ctx =
      Some (DecisionDetails (VStr decision) (VStr rationale) confidence
              (VList alternatives)).
Proof.
  intros Hreg Hts. cbn zeta.
  unfold Visualizer.track_decision_point, Visualizer.add_event.
  set (payload := <["decision" := VStr decision]> _).
  set (event := Visualizer.build_event stage "decision_point" payload
                  "completed" None None).
  set (e := event_data flow_id now event (Store.events (_read_events f))).
  assert (event !! "flow_id" = None) as Hfid by done.
  assert (event !! "timestamp" = None) as Hnots by done.
  destruct (get_flow_events_add_event flow_id event now f Hreg (or_introl Hfid))
    as [Hstep _]. fold e in Hstep.
  assert (∀ k v, event !! k = Some v → e !! k = Some v) as Hkeep.
  { intros k v Hk. eapply lookup_weaken; [exact Hk|]. apply event_data_keeps. }
  assert (e !! "event_type" = Some (VStr "decision_point")) as Htype
    by (by apply Hkeep).
  assert (e !! "data" = Some (VDict payload)) as Hdata by (by apply Hkeep).
  assert (e !! "timestamp" = Some (VStr now)) as Hstamp.
  { subst e. rewrite event_data_timestamp. by rewrite Hnots. }
  set (f' := (add_event flow_id event now f).2) in *.
  assert (Forall (λ e, is_Some (timestamp_str e)) (get_flow_events flow_id f'))
    as Hts'.
  { rewrite Hstep. apply Forall_app. split; [done|]. constructor; [|done].
    unfold timestamp_str, get. rewrite Hstamp. eauto. }
  set (snapshot := sorted timestamp_key (get_flow_events flow_id f')).
  assert (new_controller f' flow_id
          = Returns (Controller flow_id snapshot 0 (Z.of_nat (length snapshot))))
    as Hnew.
  { unfold new_controller, _load_flow_events.
    by rewrite (forallb_timestamps _ Hts'). }
  pose proof (sorted_perm timestamp_key (get_flow_events flow_id f')) as Hperm.
  fold snapshot in Hperm.
  assert (e ∈ snapshot) as Hin.
  { rewrite <- Hperm, Hstep. apply elem_of_app. right. by apply list_elem_of_singleton. }
  apply list_elem_of_lookup in Hin as [k Hk].
  set (c := Controller flow_id snapshot 0 (Z.of_nat (length snapshot))).
  assert (events c !! Z.to_nat (Z.of_nat k) = Some e) as Hk'
    by (by rewrite Nat2Z.id).
  eexists c, (Z.of_nat k), _. split; [exact Hnew|]. split.
  { cbn [events c]. rewrite <- (Permutation_length Hperm), Hstep, length_app.
    cbn [length]. lia. }
  split.
  { unfold find_decision_points. apply enumerate_filter_elem.
    split; [lia|]. exists e. split; [exact Hk'|].
    cbn [snd]. unfold get. by rewrite Htype. }
  rewrite (decision_context_in_range c (Z.of_nat k) e) by (lia || done).
  unfold type_details, data_get, get. rewrite Htype, Hdata, Hstamp.
  cbn [eq_str String.eqb Ascii.eqb Bool.eqb mbind result_bind].
  split; [reflexivity|]. split; [done|].
  cbn [context_details]. done.
Qed.

Lemma tracked_decision_is_replayed_witness :
  let f' := (Visualizer.track_decision_point "f1" Visualizer.TASK_GENERATION
               "split by component" "smaller tasks" (VInt 1) [] StoreExamples.t1
               StoreExamples.t2 ReplayExamples.three_events).2 in
  ∃ c position ctx,
    new_controller f' "f1" = Returns c ∧
    length (events c)
      = S (length (get_flow_events "f1" ReplayExamples.three_events)) ∧
    position ∈ find_decision_points c ∧
    get_decision_context c position = Ok (Some ctx) ∧
    context_timestamp ctx = VStr StoreExamples.t2 ∧
    context_details ctx =
      Some (DecisionDetails (VStr "split by component") (VStr "smaller tasks")
              (VInt 1) (VList [])).
Proof.
  refine (tracked_decision_is_replayed ReplayExamples.three_events "f1"
            Visualizer.TASK_GENERATION "split by component" "smaller tasks"
            (VInt 1) [] StoreExamples.t1 StoreExamples.t2 _ _).
  - by_evaluation.
  - by_evaluation.
Defined.

End ProducerToReplay.
